(** * Difficulty retargeting of dsvd (blockchain/difficulty.go)

    A shallow embedding of the compact-target codec, the work computation
    and the four difficulty algorithms of [blockchain/difficulty.go],
    together with the properties of its specification.

    Go's fixed-width integers are integers of [Z] with the wrap-around
    written out; [big.Int] is [Z]; a run-time panic is an outcome of its
    own, next to a returned value and a returned [AssertError]. *)

From Stdlib Require Import ZArith Lia Bool List String.
From Stdlib Require Import Strings.Byte.
Import ListNotations.
Local Open Scope Z_scope.

(** ** Fixed-width arithmetic *)

Module GoInt.

(** Conversion to an unsigned [w]-bit integer. *)
Definition wrapu (w : Z) (z : Z) : Z := z mod 2 ^ w.

(** Conversion to a signed [w]-bit integer (two's complement). *)
Definition wraps (w : Z) (z : Z) : Z :=
  (z + 2 ^ (w - 1)) mod 2 ^ w - 2 ^ (w - 1).

Definition u16 := wrapu 16.
Definition u32 := wrapu 32.
Definition u64 := wrapu 64.
Definition i32 := wraps 32.
Definition i64 := wraps 64.

Definition add32 (a b : Z) : Z := i32 (a + b).
Definition sub32 (a b : Z) : Z := i32 (a - b).
Definition neg32 (a : Z) : Z := i32 (- a).

Definition add64 (a b : Z) : Z := i64 (a + b).
Definition sub64 (a b : Z) : Z := i64 (a - b).
Definition mul64 (a b : Z) : Z := i64 (a * b).
Definition neg64 (a : Z) : Z := i64 (- a).

(** Signed division truncates toward zero; [MinInt64 / -1] wraps. *)
Definition quot64 (a b : Z) : Z := i64 (Z.quot a b).

Definition MaxInt32 : Z := 2 ^ 31 - 1.
Definition MinInt32 : Z := - 2 ^ 31.
Definition MaxInt64 : Z := 2 ^ 63 - 1.
Definition MinInt64 : Z := - 2 ^ 63.

Definition in_i32 (z : Z) : Prop := MinInt32 <= z <= MaxInt32.
Definition in_i64 (z : Z) : Prop := MinInt64 <= z <= MaxInt64.
Definition in_u32 (z : Z) : Prop := 0 <= z < 2 ^ 32.

End GoInt.
Import GoInt.

(** ** math/big *)

Module Big.

(** [big.Int.Div]: Euclidean division, the remainder is never negative.
    The caller checks the divisor: Go panics on zero. *)
Definition Div (x y : Z) : Z :=
  if 0 <? y then x / y else - (x / (- y)).

(** [len(n.Bytes())]: the number of bytes of the magnitude of [n]. *)
Definition byteLen (n : Z) : Z :=
  if n =? 0 then 0 else (Z.log2 (Z.abs n) + 8) / 8.

(** [uint32(n.Bits()[0])]: the low 32 bits of the magnitude of [n]. *)
Definition lowWord32 (n : Z) : Z := u32 (Z.abs n).

End Big.

(** ** Compact-target codec *)

Definition bigOne : Z := 1.
Definition oneLsh256 : Z := Z.shiftl bigOne 256.

Definition CompactToBig (compact : Z) : Z :=
  let mantissa := Z.land compact 0x007fffff in
  let isNegative := negb (Z.land compact 0x00800000 =? 0) in
  let exponent := Z.shiftr compact 24 in
  let bn :=
    if exponent <=? 3
    then Z.shiftr mantissa (8 * (3 - exponent))
    else Z.shiftl mantissa (8 * (exponent - 3)) in
  if isNegative then - bn else bn.

Definition BigToCompact (n : Z) : Z :=
  if n =? 0 then 0 else
  let exponent := Big.byteLen n in
  let mantissa :=
    if exponent <=? 3
    then u32 (Z.shiftl (Big.lowWord32 n) (8 * (3 - exponent)))
    else Big.lowWord32 (Z.shiftr n (8 * (exponent - 3))) in
  let '(mantissa, exponent) :=
    if negb (Z.land mantissa 0x00800000 =? 0)
    then (Z.shiftr mantissa 8, exponent + 1)
    else (mantissa, exponent) in
  let compact := Z.lor (u32 (Z.shiftl exponent 24)) mantissa in
  if n <? 0 then Z.lor compact 0x00800000 else compact.

(** A compact value whose sign bit is clear is normalised when
    [BigToCompact] can produce it: the mantissa has its top 16 bits in use
    and decoding drops none of its bits. *)
Definition normalized (x : Z) : bool :=
  let mantissa := Z.land x 0x007fffff in
  let exponent := Z.shiftr x 24 in
  (Z.land x 0x00800000 =? 0)
  && (0x008000 <=? mantissa)
  && ((3 <=? exponent) || (mantissa mod 2 ^ (8 * (3 - exponent)) =? 0)).

(** The mantissa [BigToCompact] holds before it normalises the sign bit,
    for a positive number, in arithmetic form. *)
Definition rawMantissa (n : Z) : Z :=
  let e := Big.byteLen n in
  if e <=? 3 then n * 2 ^ (8 * (3 - e)) else n / 2 ^ (8 * (e - 3)).

(** The mantissa that a number leaves under the exponent byte [E]: the
    number scaled by [256^(3-E)], rounded down. *)
Definition scaledMantissa (n E : Z) : Z :=
  if 3 <=? E then n / 2 ^ (8 * (E - 3)) else n * 2 ^ (8 * (3 - E)).

Definition CalcWork (bits : Z) : Z :=
  let difficultyNum := CompactToBig bits in
  if difficultyNum <=? 0 then 0
  else
    let denominator := difficultyNum + bigOne in
    Big.Div oneLsh256 denominator.

(** ** Chain parameters (chaincfg.Params, the difficulty subset)

    Durations are [time.Duration] values: signed 64-bit nanosecond counts. *)

Definition Second : Z := 1000000000.

Record Params := mkParams {
  PowLimit : Z;                 (* *big.Int *)
  PowLimitBits : Z;             (* uint32 *)
  PoWNoRetargeting : bool;
  TargetTimespan : Z;           (* time.Duration *)
  TargetTimePerBlock : Z;       (* time.Duration *)
  RetargetAdjustmentFactor : Z; (* int64 *)
  ReduceMinDifficulty : bool;
  MinDiffReductionTime : Z;     (* time.Duration *)
  LWMAHeight : Z;               (* int32 *)
  LWMAFixHeight : Z;            (* int32 *)
  LWMAWindow : Z;               (* int64 *)
  ASERTHeight : Z;              (* int32 *)
  ASERTHalfLife : Z;            (* int64 *)
  ASERTAnchorBits : Z           (* uint32 *)
}.

(** [int64(d / time.Second)] *)
Definition seconds (d : Z) : Z := Z.quot d Second.

(** ** The header and chain interfaces

    [HeaderCtx] is an interface of the package; a header is modelled by
    the values its methods return, the parent being absent ([nil]) at the
    end of the chain. *)

Local Unset Elimination Schemes.
Inductive HeaderCtx : Type :=
| Header (height : Z) (timestamp : Z) (bits : Z) (parent : option HeaderCtx).
Local Set Elimination Schemes.

Definition Height (h : HeaderCtx) : Z :=
  match h with Header height _ _ _ => height end.
Definition Timestamp (h : HeaderCtx) : Z :=
  match h with Header _ timestamp _ _ => timestamp end.
Definition Bits (h : HeaderCtx) : Z :=
  match h with Header _ _ bits _ => bits end.
Definition Parent (h : HeaderCtx) : option HeaderCtx :=
  match h with Header _ _ _ parent => parent end.

(** Walking back [n] generations along the parent links. *)
Fixpoint walkBack (n : nat) (h : HeaderCtx) : option HeaderCtx :=
  match n with
  | O => Some h
  | S n' =>
      match h with
      | Header _ _ _ None => None
      | Header _ _ _ (Some p) => walkBack n' p
      end
  end.

(** Modelled from the spec: the method [RelativeAncestorCtx] of [HeaderCtx]
    is implemented outside the sources at hand.  The specification gives
    [ancestor(n)]: "walks back n generations; returns absent if chain is too
    short".  A negative distance names no ancestor. *)
Definition RelativeAncestorCtx (h : HeaderCtx) (distance : Z) : option HeaderCtx :=
  if distance <? 0 then None else walkBack (Z.to_nat distance) h.

Record ChainCtx := mkChainCtx {
  ChainParams : Params;
  BlocksPerRetarget : Z;        (* int32 *)
  MinRetargetTimespan : Z;      (* int64 *)
  MaxRetargetTimespan : Z       (* int64 *)
}.

(** Modelled from the spec: the chain context a [BlockChain] provides is
    built outside the sources at hand; the derived quantities are
    [BlocksPerRetarget = TargetTimespan / TargetTimePerBlock],
    [MinRetargetTimespan = TargetTimespan / RetargetAdjustmentFactor] and
    [MaxRetargetTimespan = TargetTimespan * RetargetAdjustmentFactor]. *)
Definition chainCtxOf (p : Params) : ChainCtx :=
  let targetTimespan := seconds (TargetTimespan p) in
  let targetTimePerBlock := seconds (TargetTimePerBlock p) in
  {| ChainParams := p;
     BlocksPerRetarget := i32 (Z.quot targetTimespan targetTimePerBlock);
     MinRetargetTimespan := quot64 targetTimespan (RetargetAdjustmentFactor p);
     MaxRetargetTimespan := mul64 targetTimespan (RetargetAdjustmentFactor p) |}.

(** ** Outcomes

    A call returns compact bits, returns an [AssertError], or panics. *)

Definition AssertError := string.

Inductive RuntimePanic : Type :=
| DivideByZero      (* integer divide by zero, division by zero in big.Int *)
| NilDereference.   (* method call on a nil HeaderCtx *)

Inductive Outcome : Type :=
| Ok (bits : Z)
| Error (e : AssertError)
| Panic (p : RuntimePanic).

(** ** Legacy retarget *)

Fixpoint findPrevTestNetDifficultyFrom (iterNode : HeaderCtx) (c : ChainCtx)
  : Outcome :=
  match iterNode with
  | Header height _ bits parent =>
      if BlocksPerRetarget c =? 0 then Panic DivideByZero
      else if negb (Z.rem height (BlocksPerRetarget c) =? 0)
              && (bits =? PowLimitBits (ChainParams c))
      then match parent with
           | None => Ok (PowLimitBits (ChainParams c))
           | Some p => findPrevTestNetDifficultyFrom p c
           end
      else Ok bits
  end.

Definition findPrevTestNetDifficulty (startNode : option HeaderCtx)
  (c : ChainCtx) : Outcome :=
  match startNode with
  | None => Ok (PowLimitBits (ChainParams c))
  | Some n => findPrevTestNetDifficultyFrom n c
  end.

(** The number of generations between [lastNode] and the first node of
    the retarget window (the local [blocksPerRetarget]). *)
Definition retargetDistance (lastNode : HeaderCtx) (c : ChainCtx) : Z :=
  let blocksPerRetarget := sub32 (BlocksPerRetarget c) 1 in
  if negb (add32 (Height lastNode) 1 =? BlocksPerRetarget c)
  then BlocksPerRetarget c
  else blocksPerRetarget.

(** The retarget proper, from the first node of the window on. *)
Definition retargetFrom (lastNode : HeaderCtx) (c : ChainCtx)
  (firstNode : option HeaderCtx) : Outcome :=
  match firstNode with
  | None => Error "unable to obtain previous retarget block"%string
  | Some firstNode =>
      let actualTimespan := sub64 (Timestamp lastNode) (Timestamp firstNode) in
      let adjustedTimespan :=
        if actualTimespan <? MinRetargetTimespan c then MinRetargetTimespan c
        else if actualTimespan >? MaxRetargetTimespan c
             then MaxRetargetTimespan c
             else actualTimespan in
      let oldTarget := CompactToBig (Bits lastNode) in
      let newTarget := oldTarget * adjustedTimespan in
      let targetTimeSpan := seconds (TargetTimespan (ChainParams c)) in
      if targetTimeSpan =? 0 then Panic DivideByZero
      else
        let newTarget := Big.Div newTarget targetTimeSpan in
        let newTarget :=
          if newTarget >? PowLimit (ChainParams c)
          then PowLimit (ChainParams c) else newTarget in
        Ok (BigToCompact newTarget)
  end.

(** The tail of [calcNextRequiredDifficulty] below the dispatch: the
    original BTC-style algorithm. *)
Definition legacyRetarget (lastNode : HeaderCtx) (newBlockTime : Z)
  (c : ChainCtx) : Outcome :=
  if BlocksPerRetarget c =? 0 then Panic DivideByZero
  else if negb (Z.rem (add32 (Height lastNode) 1) (BlocksPerRetarget c) =? 0)
  then
    if ReduceMinDifficulty (ChainParams c)
    then
      let reductionTime := seconds (MinDiffReductionTime (ChainParams c)) in
      let allowMinTime := add64 (Timestamp lastNode) reductionTime in
      if newBlockTime >? allowMinTime
      then Ok (PowLimitBits (ChainParams c))
      else findPrevTestNetDifficulty (Some lastNode) c
    else Ok (Bits lastNode)
  else
    retargetFrom lastNode c
      (RelativeAncestorCtx lastNode (retargetDistance lastNode c)).

(** ** LWMA v1 and v2 *)

(** [min(N, (h+1) - LWMAHeight)], the number of blocks of the window. *)
Definition lwmaBlocks (lastNode : HeaderCtx) (params : Params) : Z :=
  let N := LWMAWindow params in
  let height := add64 (Height lastNode) 1 in
  let blocks := sub64 height (LWMAHeight params) in
  if blocks >? N then N else blocks.

(** A solvetime, clamped to [1, 6T]. *)
Definition solvetimeOf (T : Z) (block prev : HeaderCtx) : Z :=
  let solvetime := sub64 (Timestamp block) (Timestamp prev) in
  let solvetime := if solvetime <? 1 then 1 else solvetime in
  if solvetime >? mul64 6 T then mul64 6 T else solvetime.

(** The loop [for i := blocks; i >= 1; i--] of both LWMA variants, from
    [block] with counter [i] and the two running sums; it returns
    [(sumWeightedSolvetimes, sumWeights)].  The counter cannot overflow:
    it is decremented only while at least 1. *)
Fixpoint lwmaLoop (T : Z) (block : HeaderCtx) (i : Z)
  (sumWeightedSolvetimes sumWeights : Z) : Z * Z :=
  if i >=? 1 then
    match block with
    | Header _ _ _ None => (sumWeightedSolvetimes, sumWeights)
    | Header _ _ _ (Some prev) =>
        let solvetime := solvetimeOf T block prev in
        lwmaLoop T prev (i - 1)
          (add64 sumWeightedSolvetimes (mul64 solvetime i))
          (add64 sumWeights i)
    end
  else (sumWeightedSolvetimes, sumWeights).

(** The common tail of both variants: clamp the weighted sum to
    [expected / cap, expected * cap], scale the reference target, clamp to
    [PowLimit] and encode. *)
Definition lwmaFinish (params : Params) (cap : Z) (T : Z) (target : Z)
  (sums : Z * Z) : Outcome :=
  let '(sumWeightedSolvetimes, sumWeights) := sums in
  let expectedWeightedSolvetimes := mul64 sumWeights T in
  let minWS := quot64 expectedWeightedSolvetimes cap in
  let maxWS := mul64 expectedWeightedSolvetimes cap in
  let sumWeightedSolvetimes :=
    if sumWeightedSolvetimes <? minWS then minWS else sumWeightedSolvetimes in
  let sumWeightedSolvetimes :=
    if sumWeightedSolvetimes >? maxWS then maxWS else sumWeightedSolvetimes in
  let nextTarget := target * sumWeightedSolvetimes in
  if expectedWeightedSolvetimes =? 0 then Panic DivideByZero
  else
    let nextTarget := Big.Div nextTarget expectedWeightedSolvetimes in
    let nextTarget :=
      if nextTarget >? PowLimit params then PowLimit params else nextTarget in
    Ok (BigToCompact nextTarget).

Definition calcNextRequiredDifficultyLWMA (lastNode : HeaderCtx)
  (c : ChainCtx) : Outcome :=
  let params := ChainParams c in
  let T := seconds (TargetTimePerBlock params) in
  let blocks := lwmaBlocks lastNode params in
  if blocks <? 3 then Ok (Bits lastNode)
  else
    let prevTarget := CompactToBig (Bits lastNode) in
    lwmaFinish params 10 T prevTarget (lwmaLoop T lastNode blocks 0 0).

(** The loop [for i := 0; i < blocks; i++] locating the window start. *)
Fixpoint windowStartLoop (windowStart : HeaderCtx) (i blocks : Z)
  : HeaderCtx :=
  if i <? blocks then
    match windowStart with
    | Header _ _ _ None => windowStart
    | Header _ _ _ (Some prev) => windowStartLoop prev (i + 1) blocks
    end
  else windowStart.

Definition calcNextRequiredDifficultyLWMAv2 (lastNode : HeaderCtx)
  (c : ChainCtx) : Outcome :=
  let params := ChainParams c in
  let T := seconds (TargetTimePerBlock params) in
  let blocks := lwmaBlocks lastNode params in
  if blocks <? 3 then Ok (Bits lastNode)
  else
    let windowStart := windowStartLoop lastNode 0 blocks in
    let referenceTarget := CompactToBig (Bits windowStart) in
    lwmaFinish params 3 T referenceTarget (lwmaLoop T lastNode blocks 0 0).

(** ** ASERT *)

(** The anchor search [for anchor.Height() > ASERTHeight]; [None] when
    the walk steps onto a nil parent, whose [Height] is then called. *)
Fixpoint asertAnchor (asertHeight : Z) (anchor : HeaderCtx)
  : option HeaderCtx :=
  match anchor with
  | Header height _ _ parent =>
      if height >? asertHeight then
        match parent with
        | None => None
        | Some p => asertAnchor asertHeight p
        end
      else Some anchor
  end.

(** The decomposition of the fixed-point exponent into [(shifts, frac)]. *)
Definition asertSplit (exponent : Z) : Z * Z :=
  if exponent >=? 0 then
    (i32 (Z.shiftr exponent 16), u16 (Z.land exponent 0xFFFF))
  else
    let absExponent := neg64 exponent in
    let shifts := neg32 (i32 (Z.shiftr absExponent 16)) in
    let remainder := u32 (Z.land absExponent 0xFFFF) in
    if negb (remainder =? 0)
    then (sub32 shifts 1, u16 (u32 (65536 - remainder)))
    else (shifts, 0).

(** [2^(frac/65536) * 65536] by the cubic polynomial, in uint64. *)
Definition asertFactor (frac : Z) : Z :=
  if frac >? 0 then
    let f := u64 frac in
    u32 (65536 +
         u32 (Z.shiftr
                (u64 (195766423245049 * f + 971821376 * f * f
                      + 5127 * f * f * f + Z.shiftl 1 47)) 48))
  else 65536.

(** The last steps: at least 1, at most [PowLimit], encoded. *)
Definition asertFinish (params : Params) (nextTarget : Z) : Outcome :=
  let nextTarget := if nextTarget =? 0 then 1 else nextTarget in
  let nextTarget :=
    if nextTarget >? PowLimit params then PowLimit params else nextTarget in
  Ok (BigToCompact nextTarget).

Definition calcNextRequiredDifficultyASERT (lastNode : HeaderCtx)
  (c : ChainCtx) : Outcome :=
  let params := ChainParams c in
  match asertAnchor (ASERTHeight params) lastNode with
  | None => Panic NilDereference
  | Some anchor =>
      match Parent anchor with
      | None => Error "ASERT anchor block has no parent"%string
      | Some anchorParent =>
          let anchorTarget := CompactToBig (ASERTAnchorBits params) in
          let anchorParentTime := Timestamp anchorParent in
          let currentParentTime := Timestamp lastNode in
          let timeDelta := sub64 currentParentTime anchorParentTime in
          let nHeight := add64 (Height lastNode) 1 in
          let heightDelta := sub64 nHeight (ASERTHeight params) in
          let T := seconds (TargetTimePerBlock params) in
          let halfLife := ASERTHalfLife params in
          if halfLife =? 0 then Panic DivideByZero
          else
            let exponent :=
              quot64 (mul64 (sub64 timeDelta (mul64 T heightDelta)) 65536)
                     halfLife in
            let '(shifts, frac) := asertSplit exponent in
            let factor := asertFactor frac in
            let nextTarget := Z.shiftr (anchorTarget * factor) 16 in
            if shifts >? 0 then
              if shifts >=? 256 then Ok (BigToCompact (PowLimit params))
              else asertFinish params (Z.shiftl nextTarget (u64 shifts))
            else if shifts <? 0 then
              let absShifts := neg32 shifts in
              if absShifts >=? 256 then Ok (BigToCompact 1)
              else asertFinish params (Z.shiftr nextTarget (u64 absShifts))
            else asertFinish params nextTarget
      end
  end.

(** ** The dispatcher *)

Definition calcNextRequiredDifficulty (lastNode : option HeaderCtx)
  (newBlockTime : Z) (c : ChainCtx) : Outcome :=
  if PoWNoRetargeting (ChainParams c) then Ok (PowLimitBits (ChainParams c))
  else
    match lastNode with
    | None => Ok (PowLimitBits (ChainParams c))
    | Some lastNode =>
        let nHeight := add32 (Height lastNode) 1 in
        if (ASERTHeight (ChainParams c) >? 0)
           && (nHeight >? ASERTHeight (ChainParams c))
        then calcNextRequiredDifficultyASERT lastNode c
        else if (LWMAFixHeight (ChainParams c) >? 0)
                && (nHeight >=? LWMAFixHeight (ChainParams c))
        then calcNextRequiredDifficultyLWMAv2 lastNode c
        else if (LWMAHeight (ChainParams c) >? 0)
                && (nHeight >=? LWMAHeight (ChainParams c))
        then calcNextRequiredDifficultyLWMA lastNode c
        else legacyRetarget lastNode newBlockTime c
    end.

(** ** Induction along the parent links *)

Fixpoint HeaderCtx_chain_ind (P : HeaderCtx -> Prop)
  (Hroot : forall height timestamp bits, P (Header height timestamp bits None))
  (Hstep : forall height timestamp bits p,
      P p -> P (Header height timestamp bits (Some p)))
  (h : HeaderCtx) : P h :=
  match h with
  | Header height timestamp bits None => Hroot height timestamp bits
  | Header height timestamp bits (Some p) =>
      Hstep height timestamp bits p (HeaderCtx_chain_ind P Hroot Hstep p)
  end.

(** ** The dispatch rules as the specification words them

    The specification (section 4.H) has the dispatcher select "the first
    matching rule" on [next = h+1], the algorithms being the variants of
    one sum type. *)

Inductive Algorithm : Type :=
| PowLimitRule   (* rules 1 and 2: PowLimitBits *)
| ASERT          (* rule 3 *)
| LWMAv2         (* rule 4 *)
| LWMAv1         (* rule 5 *)
| Legacy.        (* rule 6 *)

Definition selectAlgorithm (c : ChainCtx) (lastNode : option HeaderCtx)
  : Algorithm :=
  let p := ChainParams c in
  if PoWNoRetargeting p then PowLimitRule
  else match lastNode with
       | None => PowLimitRule
       | Some tip =>
           let next := add32 (Height tip) 1 in
           if (0 <? ASERTHeight p) && (ASERTHeight p <? next) then ASERT
           else if (0 <? LWMAFixHeight p) && (LWMAFixHeight p <=? next)
           then LWMAv2
           else if (0 <? LWMAHeight p) && (LWMAHeight p <=? next)
           then LWMAv1
           else Legacy
       end.

Definition runAlgorithm (a : Algorithm) (lastNode : option HeaderCtx)
  (newBlockTime : Z) (c : ChainCtx) : Outcome :=
  match a, lastNode with
  | ASERT, Some tip => calcNextRequiredDifficultyASERT tip c
  | LWMAv2, Some tip => calcNextRequiredDifficultyLWMAv2 tip c
  | LWMAv1, Some tip => calcNextRequiredDifficultyLWMA tip c
  | Legacy, Some tip => legacyRetarget tip newBlockTime c
  | _, _ => Ok (PowLimitBits (ChainParams c))
  end.

(** The walk of the retarget window as claim C1 words it: one generation
    less than the interval, except on the first retarget. *)
Definition claimedRetargetDistance (lastNode : HeaderCtx) (c : ChainCtx) : Z :=
  if add32 (Height lastNode) 1 =? BlocksPerRetarget c
  then BlocksPerRetarget c
  else BlocksPerRetarget c - 1.

(** ** Steady windows *)

(** [1 + 2 + ... + n], the sum of the weights of a window of [n] blocks. *)
Fixpoint sumTo (n : nat) : Z :=
  match n with
  | O => 0
  | S n' => sumTo n' + Z.of_nat (S n')
  end.

(** [block] has [n] ancestors in a row, and each of the [n] solvetimes
    sampled from [block] down is exactly [T]. *)
Fixpoint steadyWindow (T : Z) (n : nat) (block : HeaderCtx) : bool :=
  match n with
  | O => true
  | S n' =>
      match Parent block with
      | None => false
      | Some prev =>
          (sub64 (Timestamp block) (Timestamp prev) =? T)
          && steadyWindow T n' prev
      end
  end.

(** ** Network parameters and sample chains *)

Definition mainPowLimit : Z :=
  0x0fffff000000000000000000000000000000000000000000000000000000.

Definition MainNetParams : Params :=
  {| PowLimit := mainPowLimit;
     PowLimitBits := 0x1e0ffff0;
     PoWNoRetargeting := false;
     TargetTimespan := 302400 * Second;
     TargetTimePerBlock := 150 * Second;
     RetargetAdjustmentFactor := 4;
     ReduceMinDifficulty := false;
     MinDiffReductionTime := 0;
     LWMAHeight := 1243845;
     LWMAFixHeight := 1244300;
     LWMAWindow := 45;
     ASERTHeight := 1246000;
     ASERTHalfLife := 3600;
     ASERTAnchorBits := 0x1d18ffe7 |}.

Definition TestNet4Params : Params :=
  {| PowLimit := mainPowLimit;
     PowLimitBits := 0x1e0fffff;
     PoWNoRetargeting := false;
     TargetTimespan := 302400 * Second;
     TargetTimePerBlock := 150 * Second;
     RetargetAdjustmentFactor := 4;
     ReduceMinDifficulty := true;
     MinDiffReductionTime := 300 * Second;
     LWMAHeight := 100;
     LWMAFixHeight := 200;
     LWMAWindow := 45;
     ASERTHeight := 300;
     ASERTHalfLife := 3600;
     ASERTAnchorBits := 0x1d18ffe7 |}.

(** Test-network parameters with another block spacing and another LWMA
    window, ASERT being disabled. *)
Definition lwmaTestParams (targetTimePerBlock window : Z) : Params :=
  {| PowLimit := mainPowLimit;
     PowLimitBits := 0x1e0fffff;
     PoWNoRetargeting := false;
     TargetTimespan := 302400 * Second;
     TargetTimePerBlock := targetTimePerBlock;
     RetargetAdjustmentFactor := 4;
     ReduceMinDifficulty := true;
     MinDiffReductionTime := 300 * Second;
     LWMAHeight := 100;
     LWMAFixHeight := 200;
     LWMAWindow := window;
     ASERTHeight := 0;
     ASERTHalfLife := 3600;
     ASERTAnchorBits := 0x1d18ffe7 |}.

(** The parameters with another half-life. *)
Definition withASERTHalfLife (p : Params) (halfLife : Z) : Params :=
  {| PowLimit := PowLimit p;
     PowLimitBits := PowLimitBits p;
     PoWNoRetargeting := PoWNoRetargeting p;
     TargetTimespan := TargetTimespan p;
     TargetTimePerBlock := TargetTimePerBlock p;
     RetargetAdjustmentFactor := RetargetAdjustmentFactor p;
     ReduceMinDifficulty := ReduceMinDifficulty p;
     MinDiffReductionTime := MinDiffReductionTime p;
     LWMAHeight := LWMAHeight p;
     LWMAFixHeight := LWMAFixHeight p;
     LWMAWindow := LWMAWindow p;
     ASERTHeight := ASERTHeight p;
     ASERTHalfLife := halfLife;
     ASERTAnchorBits := ASERTAnchorBits p |}.

(** A chain context with the derived quantities of the 3.5 day timespan
    (2016 blocks per retarget, a factor of 4 either way). *)
Definition ctxOf (p : Params) : ChainCtx :=
  {| ChainParams := p;
     BlocksPerRetarget := 2016;
     MinRetargetTimespan := 75600;
     MaxRetargetTimespan := 1209600 |}.

(** [n] further blocks on top of [tip], [spacing] seconds apart. *)
Fixpoint extendChain (n : nat) (tip : HeaderCtx) (spacing bits : Z)
  : HeaderCtx :=
  match n with
  | O => tip
  | S n' =>
      extendChain n'
        (Header (Height tip + 1) (Timestamp tip + spacing) bits (Some tip))
        spacing bits
  end.

(** The genesis header of the main network. *)
Definition genesisHeader : HeaderCtx := Header 0 1394325760 0x1e0ffff0 None.

(** The main chain up to height 2015, on schedule: the tip before the
    first retarget. *)
Definition firstRetargetTip : HeaderCtx :=
  extendChain 2015 genesisHeader 150 0x1e0ffff0.

(** A header whose parent is not at hand (a chain cut off below it). *)
Definition orphanHeader (height : Z) : HeaderCtx :=
  Header height 1700000000 0x1d18ffe7 None.

(** A test-network window: [n] blocks on top of the block of height 200,
    [spacing] seconds apart. *)
Definition windowStartHeader : HeaderCtx :=
  Header 200 1700000000 0x1d18ffe7 None.

Definition windowTip (n : nat) (spacing : Z) : HeaderCtx :=
  extendChain n windowStartHeader spacing 0x1c7fffff.

(** The ASERT anchor of the main network on top of its parent, [gap]
    seconds later. *)
Definition anchorTip (gap : Z) : HeaderCtx :=
  Header 1246000 (1700000000 + gap) 0x1d18ffe7
    (Some (Header 1245999 1700000000 0x1d18ffe7 None)).

(** Two chains on the same ASERT schedule: the tips have the same
    height and lie 900 seconds after the parent of their anchor; the
    blocks in between, the bits and the absolute times differ. *)
Definition scheduleTipA : HeaderCtx :=
  Header 1246002 1700000900 0x1c7fffff
    (Some (Header 1246001 1700000500 0x1c00ffff (Some (anchorTip 150)))).

Definition scheduleTipB : HeaderCtx :=
  Header 1246002 1700100900 0x1d00ffff
    (Some (Header 1246001 1700100001 0x1d18ffe7
       (Some (Header 1246000 1700100100 0x1b0404cb
          (Some (Header 1245999 1700100000 0x1d18ffe7 None)))))).

(** ** The easiest difficulty after a duration

    [calcEasiestDifficulty] is a method of [BlockChain]; it reads the
    chain parameters and the maximum retarget timespan of the chain,
    which are what [ChainParams] and [MaxRetargetTimespan] return.  The
    loop is bounded by fuel: [None] when the fuel runs out. *)

Fixpoint easiestLoop (fuel : nat) (c : ChainCtx) (durationVal newTarget : Z)
  : option Z :=
  match fuel with
  | O => None
  | S fuel' =>
      if (durationVal >? 0) && (newTarget <? PowLimit (ChainParams c))
      then easiestLoop fuel' c
             (sub64 durationVal (MaxRetargetTimespan c))
             (newTarget * RetargetAdjustmentFactor (ChainParams c))
      else Some newTarget
  end.

Definition calcEasiestDifficulty (fuel : nat) (c : ChainCtx)
  (bits duration : Z) : option Z :=
  let durationVal := seconds duration in
  let reductionTime := seconds (MinDiffReductionTime (ChainParams c)) in
  if ReduceMinDifficulty (ChainParams c) && (durationVal >? reductionTime)
  then Some (PowLimitBits (ChainParams c))
  else
    match easiestLoop fuel c durationVal (CompactToBig bits) with
    | None => None
    | Some newTarget =>
        let newTarget :=
          if newTarget >? PowLimit (ChainParams c)
          then PowLimit (ChainParams c) else newTarget in
        Some (BigToCompact newTarget)
    end.

(** The number of rounds of the loop for a duration: one per started
    maximum timespan. *)
Definition retargetPeriods (durationVal maxTimespan : Z) : Z :=
  if durationVal <=? 0 then 0 else (durationVal + maxTimespan - 1) / maxTimespan.

(** The condition under which [findPrevTestNetDifficulty] steps on: a
    block off the retarget boundary with the minimum difficulty. *)
Definition minDifficultyOffBoundary (c : ChainCtx) (h : HeaderCtx) : bool :=
  negb (Z.rem (Height h) (BlocksPerRetarget c) =? 0)
  && (Bits h =? PowLimitBits (ChainParams c)).

(** The tip before the first retarget of the main network, with the
    window exactly on the target timespan. *)
Definition onTargetTip : HeaderCtx :=
  Header 2015 (1394325760 + 302400) 0x1e0ffff0 (Parent firstRetargetTip).

(** ** Hashes

    A [chainhash.Hash] is an array of bytes (32 of them); [HashToBig]
    reverses a copy of it in place and reads the result as a big-endian
    number. *)

Definition byteVal (b : byte) : Z := Z.of_N (Byte.to_N b).

(** [buf[i] = b], for an index within the array. *)
Fixpoint setByte (buf : list byte) (i : nat) (b : byte) : list byte :=
  match buf, i with
  | [], _ => []
  | _ :: rest, O => b :: rest
  | x :: rest, S i' => x :: setByte rest i' b
  end.

(** [buf[i], buf[j] = buf[j], buf[i]] *)
Definition swapBytes (buf : list byte) (i j : nat) : list byte :=
  let bi := nth i buf x00 in
  let bj := nth j buf x00 in
  setByte (setByte buf i bj) j bi.

(** The loop [for i := 0; i < blen/2; i++], with [count] rounds to go. *)
Fixpoint reverseLoop (count i : nat) (buf : list byte) : list byte :=
  match count with
  | O => buf
  | S count' =>
      reverseLoop count' (S i) (swapBytes buf i (List.length buf - 1 - i)%nat)
  end.

(** [big.Int.SetBytes]: the bytes as a big-endian unsigned number. *)
Definition SetBytes (buf : list byte) : Z :=
  fold_left (fun acc b => acc * 256 + byteVal b) buf 0.

Definition HashToBig (hash : list byte) : Z :=
  let buf := hash in
  let blen := List.length buf in
  SetBytes (reverseLoop (blen / 2)%nat 0 buf).

(** The bytes as a little-endian unsigned number. *)
Fixpoint littleEndian (bytes : list byte) : Z :=
  match bytes with
  | [] => 0
  | b :: rest => byteVal b + 256 * littleEndian rest
  end.

(** After [i] rounds of the loop the outer [i] bytes on either side are
    exchanged. *)
Definition reversedTo (orig buf : list byte) (i : nat) : Prop :=
  List.length buf = List.length orig /\
  forall k, (k < List.length orig)%nat ->
    nth k buf x00 =
    if (k <? i)%nat || (List.length orig - i <=? k)%nat
    then nth (List.length orig - 1 - k) orig x00
    else nth k orig x00.

(** ** Proof automation *)

(** Closed powers of two, and comparisons of numerals, are evaluated. *)
Ltac eval_pow2 :=
  repeat match goal with
    | |- context [2 ^ ?k] =>
        let v := eval vm_compute in (2 ^ k) in
        lazymatch v with Zpos _ => change (2 ^ k) with v end
    | H : context [2 ^ ?k] |- _ =>
        let v := eval vm_compute in (2 ^ k) in
        lazymatch v with Zpos _ => change (2 ^ k) with v in H end
    end.

Ltac eval_leb :=
  repeat match goal with
    | |- context [?a <=? ?b] =>
        let v := eval vm_compute in (a <=? b) in
        lazymatch v with
        | true => change (a <=? b) with true
        | false => change (a <=? b) with false
        end
    end; cbv iota.

(** * Properties *)

(** ** Bit operations as arithmetic *)

Section BitArith.

Lemma pow2_pos (k : Z) : 0 <= k -> 0 < 2 ^ k.
Proof. intros; apply Z.pow_pos_nonneg; lia. Qed.

Lemma pow2_split (a b : Z) : 0 <= a -> 0 <= b -> 2 ^ (a + b) = 2 ^ a * 2 ^ b.
Proof. intros; apply Z.pow_add_r; assumption. Qed.

Lemma pow2_le (a b : Z) : 0 <= a <= b -> 2 ^ a <= 2 ^ b.
Proof. intros; apply Z.pow_le_mono_r; lia. Qed.

(** Testing one bit of a number below the next power of two. *)
Lemma land_pow2_eqb (a k : Z) :
  0 <= k -> 0 <= a < 2 ^ (k + 1) ->
  (Z.land a (2 ^ k) =? 0) = (a <? 2 ^ k).
Proof.
  intros Hk Ha.
  assert (Hp : 0 < 2 ^ k) by now apply pow2_pos.
  assert (Hs : 2 ^ (k + 1) = 2 ^ k * 2) by (rewrite pow2_split by lia; reflexivity).
  destruct (Z.ltb_spec a (2 ^ k)) as [Hlt | Hge].
  - apply Z.eqb_eq. apply Z.bits_inj'. intros n Hn.
    rewrite Z.land_spec, Z.bits_0, Z.pow2_bits_eqb by lia.
    destruct (Z.eqb_spec k n) as [<- | Hne]; [|apply andb_false_r].
    rewrite andb_true_r. apply Z.testbit_false; [lia|].
    rewrite Z.div_small by lia. reflexivity.
  - apply Z.eqb_neq. intros H0.
    assert (Hb : Z.testbit (Z.land a (2 ^ k)) k = false)
      by (rewrite H0; apply Z.bits_0).
    rewrite Z.land_spec, Z.pow2_bits_eqb, Z.eqb_refl, andb_true_r in Hb by lia.
    apply Z.testbit_false in Hb; [|lia].
    assert (Hq : a / 2 ^ k = 1).
    { symmetry. apply Z.div_unique with (r := a - 2 ^ k); lia. }
    rewrite Hq in Hb. discriminate.
Qed.

(** Packing a field above a smaller one is an addition. *)
Lemma lor_pack (hi lo k : Z) :
  0 <= k -> 0 <= lo < 2 ^ k -> Z.lor (hi * 2 ^ k) lo = hi * 2 ^ k + lo.
Proof.
  intros Hk Hlo.
  rewrite <- Z.shiftl_mul_pow2 by lia.
  assert (Hdisj : Z.land (Z.shiftl hi k) lo = 0).
  { apply Z.bits_inj'. intros n Hn.
    rewrite Z.land_spec, Z.bits_0.
    destruct (Z.ltb_spec n k).
    - rewrite Z.shiftl_spec_low by lia. reflexivity.
    - destruct (Z.eq_dec lo 0) as [-> | Hz];
        [rewrite Z.bits_0; apply andb_false_r|].
      rewrite (Z.bits_above_log2 lo n); [apply andb_false_r | lia |].
      apply Z.log2_lt_pow2; [lia|].
      apply Z.lt_le_trans with (2 ^ k); [lia | apply pow2_le; lia]. }
  rewrite <- Z.lxor_lor by exact Hdisj.
  symmetry. apply Z.add_nocarry_lxor. exact Hdisj.
Qed.

Lemma land_pow2_testbit (a k : Z) :
  0 <= k -> (Z.land a (2 ^ k) =? 0) = negb (Z.testbit a k).
Proof.
  intros Hk. destruct (Z.testbit a k) eqn:Hb; simpl.
  - apply Z.eqb_neq. intros H0.
    assert (Hc : Z.testbit (Z.land a (2 ^ k)) k = false)
      by (rewrite H0; apply Z.bits_0).
    rewrite Z.land_spec, Z.pow2_bits_eqb, Z.eqb_refl, Hb in Hc by lia.
    discriminate.
  - apply Z.eqb_eq. apply Z.bits_inj'. intros n Hn.
    rewrite Z.land_spec, Z.bits_0, Z.pow2_bits_eqb by lia.
    destruct (Z.eqb_spec k n) as [<- | Hne]; [|apply andb_false_r].
    rewrite Hb. reflexivity.
Qed.

End BitArith.

(** ** The codec in arithmetic form *)

Section CodecArith.

Lemma byteLen_bounds (n : Z) :
  0 < n ->
  1 <= Big.byteLen n /\ 2 ^ (8 * (Big.byteLen n - 1)) <= n < 2 ^ (8 * Big.byteLen n).
Proof.
  intros Hn. unfold Big.byteLen.
  destruct (Z.eqb_spec n 0) as [|_]; [lia|].
  rewrite Z.abs_eq by lia.
  pose proof (Z.log2_spec n Hn) as [Hlo Hhi].
  pose proof (Z.log2_nonneg n) as HL.
  set (L := Z.log2 n) in *.
  assert (He : 8 * ((L + 8) / 8) <= L + 8 < 8 * ((L + 8) / 8) + 8)
    by (Z.div_mod_to_equations; lia).
  set (e := (L + 8) / 8) in *.
  split; [lia|]. split.
  - apply Z.le_trans with (2 ^ L); [apply pow2_le; lia | exact Hlo].
  - apply Z.lt_le_trans with (2 ^ Z.succ L); [exact Hhi | apply pow2_le; lia].
Qed.

(** Decoding a packed pair of an exponent and a 23-bit mantissa. *)
Lemma CompactToBig_pack (E M : Z) :
  0 <= E -> 0 <= M < 2 ^ 23 ->
  CompactToBig (E * 2 ^ 24 + M) =
  if E <=? 3 then M / 2 ^ (8 * (3 - E)) else M * 2 ^ (8 * (E - 3)).
Proof.
  intros HE HM. unfold CompactToBig.
  assert (Hmant : Z.land (E * 2 ^ 24 + M) 0x007fffff = M).
  { change 0x007fffff with (Z.ones 23). rewrite Z.land_ones by lia.
    change (2 ^ 24) with (2 * 2 ^ 23) in *.
    Z.div_mod_to_equations; lia. }
  assert (Hsign : (Z.land (E * 2 ^ 24 + M) 0x00800000 =? 0) = true).
  { change 0x00800000 with (2 ^ 23). rewrite land_pow2_testbit by lia.
    apply negb_true_iff. apply Z.testbit_false; [lia|].
    change (2 ^ 24) with (2 * 2 ^ 23) in *.
    Z.div_mod_to_equations; lia. }
  assert (Hexp : Z.shiftr (E * 2 ^ 24 + M) 24 = E).
  { rewrite Z.shiftr_div_pow2 by lia.
    change (2 ^ 23) with 8388608 in *. change (2 ^ 24) with 16777216.
    Z.div_mod_to_equations; lia. }
  rewrite Hmant, Hsign, Hexp. simpl negb. cbv iota.
  destruct (Z.leb_spec E 3).
  - apply Z.shiftr_div_pow2; lia.
  - apply Z.shiftl_mul_pow2; lia.
Qed.

Lemma u32_shl24 (e : Z) : u32 (Z.shiftl e 24) = (e mod 256) * 2 ^ 24.
Proof.
  unfold u32, wrapu. rewrite Z.shiftl_mul_pow2 by lia.
  change (2 ^ 32) with (256 * 2 ^ 24).
  apply Z.mul_mod_distr_r; lia.
Qed.

Lemma rawMantissa_bounds (n : Z) :
  0 < n -> 2 ^ 16 <= rawMantissa n < 2 ^ 24.
Proof.
  intros Hn. unfold rawMantissa.
  destruct (byteLen_bounds n Hn) as (He & Hlo & Hhi).
  set (e := Big.byteLen n) in *.
  destruct (Z.leb_spec e 3) as [Hle | Hgt].
  - assert (Hc : e = 1 \/ e = 2 \/ e = 3) by lia.
    destruct Hc as [-> | [-> | ->]]; simpl Z.mul in *; simpl Z.sub in *;
      simpl Z.pow in *; lia.
  - set (k := 8 * (e - 3)).
    assert (Hk : 0 < 2 ^ k) by (apply pow2_pos; lia).
    assert (H1 : 2 ^ (8 * (e - 1)) = 2 ^ k * 2 ^ 16).
    { rewrite <- pow2_split by lia. f_equal. lia. }
    assert (H2 : 2 ^ (8 * e) = 2 ^ k * 2 ^ 24).
    { rewrite <- pow2_split by lia. f_equal. lia. }
    split.
    + apply Z.div_le_lower_bound; lia.
    + apply Z.div_lt_upper_bound; lia.
Qed.

(** The encoder on a positive number: the normalised mantissa packed
    under the exponent byte. *)
Lemma BigToCompact_pos (n : Z) :
  0 < n ->
  BigToCompact n =
  if rawMantissa n <? 2 ^ 23
  then (Big.byteLen n mod 256) * 2 ^ 24 + rawMantissa n
  else ((Big.byteLen n + 1) mod 256) * 2 ^ 24 + rawMantissa n / 256.
Proof.
  intros Hn.
  pose proof (rawMantissa_bounds n Hn) as Hm.
  destruct (byteLen_bounds n Hn) as (He & Hlo & Hhi).
  unfold BigToCompact.
  destruct (Z.eqb_spec n 0) as [|_]; [lia|].
  destruct (Z.ltb_spec n 0) as [|_]; [lia|].
  assert (Hraw :
    (if Big.byteLen n <=? 3
     then u32 (Z.shiftl (Big.lowWord32 n) (8 * (3 - Big.byteLen n)))
     else Big.lowWord32 (Z.shiftr n (8 * (Big.byteLen n - 3))))
    = rawMantissa n).
  { unfold rawMantissa in *. unfold Big.lowWord32, u32, wrapu.
    set (e := Big.byteLen n) in *.
    destruct (Z.leb_spec e 3) as [Hle | Hgt].
    - assert (Hn24 : n < 2 ^ 24).
      { apply Z.lt_le_trans with (2 ^ (8 * e)); [lia | apply pow2_le; lia]. }
      rewrite Z.abs_eq by lia.
      change (2 ^ 24) with 16777216 in *. change (2 ^ 32) with 4294967296.
      rewrite (Z.mod_small n) by lia.
      rewrite Z.shiftl_mul_pow2 by lia.
      apply Z.mod_small. lia.
    - rewrite Z.shiftr_div_pow2 by lia.
      rewrite Z.abs_eq by lia.
      change (2 ^ 24) with 16777216 in *. change (2 ^ 32) with 4294967296.
      apply Z.mod_small. lia. }
  rewrite Hraw. clear Hraw.
  set (m := rawMantissa n) in *.
  change 0x00800000 with (2 ^ 23).
  rewrite land_pow2_eqb by (change (23 + 1) with 24; lia).
  destruct (Z.ltb_spec m (2 ^ 23)) as [Hlt | Hge]; simpl negb; cbv iota beta.
  - rewrite u32_shl24. apply lor_pack; lia.
  - rewrite u32_shl24. rewrite Z.shiftr_div_pow2 by lia.
    change (2 ^ 8) with 256.
    apply lor_pack; [lia|].
    change (2 ^ 24) with (256 * 65536) in *.
    split; [apply Z.div_pos; lia | apply Z.div_lt_upper_bound; lia].
Qed.

End CodecArith.

(** ** Round trips of the codec *)

Section RoundTrip.

Lemma byteLen_le_32 (n : Z) : 0 < n < 2 ^ 256 -> 1 <= Big.byteLen n <= 32.
Proof.
  intros [Hn Hlt].
  destruct (byteLen_bounds n Hn) as (He & Hlo & _).
  split; [exact He|].
  assert (H : 8 * (Big.byteLen n - 1) < 256).
  { apply (Z.pow_lt_mono_r_iff 2); lia. }
  lia.
Qed.

Lemma byteLen_unique (n e : Z) :
  1 <= e -> 2 ^ (8 * (e - 1)) <= n < 2 ^ (8 * e) -> Big.byteLen n = e.
Proof.
  intros He [Hlo Hhi].
  assert (Hn : 0 < n).
  { apply Z.lt_le_trans with (2 ^ (8 * (e - 1))); [apply pow2_pos; lia | lia]. }
  destruct (byteLen_bounds n Hn) as (He' & Hlo' & Hhi').
  set (e' := Big.byteLen n) in *.
  assert (H1 : 8 * (e - 1) < 8 * e').
  { apply (Z.pow_lt_mono_r_iff 2); lia. }
  assert (H2 : 8 * (e' - 1) < 8 * e).
  { apply (Z.pow_lt_mono_r_iff 2); lia. }
  lia.
Qed.

(** The three fields of a compact value whose sign bit is clear. *)
Lemma compact_fields (x : Z) :
  0 <= x < 2 ^ 32 -> Z.land x 0x00800000 = 0 ->
  0 <= Z.shiftr x 24 < 256 /\
  0 <= Z.land x 0x007fffff < 2 ^ 23 /\
  x = Z.shiftr x 24 * 2 ^ 24 + Z.land x 0x007fffff.
Proof.
  intros Hx Hs.
  assert (Hb : (x / 2 ^ 23) mod 2 = 0).
  { apply Z.testbit_false; [lia|].
    apply negb_true_iff. rewrite <- land_pow2_testbit by lia.
    apply Z.eqb_eq. exact Hs. }
  rewrite Z.shiftr_div_pow2 by lia.
  change 0x007fffff with (Z.ones 23). rewrite Z.land_ones by lia.
  eval_pow2. Z.div_mod_to_equations. lia.
Qed.

(** The encoder on a number whose byte length is known. *)
Lemma BigToCompact_of (n e : Z) :
  1 <= e -> 2 ^ (8 * (e - 1)) <= n < 2 ^ (8 * e) ->
  forall r,
    r = (if e <=? 3 then n * 2 ^ (8 * (3 - e)) else n / 2 ^ (8 * (e - 3))) ->
    BigToCompact n =
    if r <? 2 ^ 23 then (e mod 256) * 2 ^ 24 + r
    else ((e + 1) mod 256) * 2 ^ 24 + r / 256.
Proof.
  intros He Hb r ->.
  assert (Hn : 0 < n).
  { apply Z.lt_le_trans with (2 ^ (8 * (e - 1))); [apply pow2_pos; lia | lia]. }
  rewrite BigToCompact_pos by exact Hn.
  unfold rawMantissa. rewrite (byteLen_unique n e He Hb). reflexivity.
Qed.

(** A normalised compact value is what encoding its target gives. *)
Lemma encode_decode_fields (E m : Z) :
  0 <= E < 256 -> 2 ^ 15 <= m < 2 ^ 23 ->
  3 <= E \/ m mod 2 ^ (8 * (3 - E)) = 0 ->
  BigToCompact (CompactToBig (E * 2 ^ 24 + m)) = E * 2 ^ 24 + m.
Proof.
  intros HE Hm Hlow.
  rewrite CompactToBig_pack by (eval_pow2; lia).
  destruct (Z.leb_spec E 3) as [Hle | Hgt].
  - assert (Hc : E = 0 \/ E = 1 \/ E = 2 \/ E = 3) by lia.
    destruct Hc as [-> | [-> | [-> | ->]]].
    + exfalso. destruct Hlow as [|Hlow]; [lia|].
      revert Hlow. eval_pow2. Z.div_mod_to_equations; lia.
    + destruct Hlow as [|Hlow]; [lia|].
      revert Hlow. eval_pow2. intros Hlow.
      rewrite (BigToCompact_of (m / 65536) 1) with (r := m);
        [ | lia | eval_pow2; Z.div_mod_to_equations; lia
          | eval_leb; eval_pow2; Z.div_mod_to_equations; lia ].
      destruct (Z.ltb_spec m (2 ^ 23)); [reflexivity | lia].
    + destruct Hlow as [|Hlow]; [lia|].
      revert Hlow. eval_pow2. intros Hlow.
      destruct (Z_lt_le_dec (m / 256) 256) as [Hs | Hb].
      * rewrite (BigToCompact_of (m / 256) 1) with (r := m * 256);
          [ | lia | eval_pow2; Z.div_mod_to_equations; lia
            | eval_leb; eval_pow2; Z.div_mod_to_equations; lia ].
        destruct (Z.ltb_spec (m * 256) (2 ^ 23)) as [Hlt|_];
          [revert Hlt; eval_pow2; lia|].
        rewrite Z.div_mul by lia. reflexivity.
      * rewrite (BigToCompact_of (m / 256) 2) with (r := m);
          [ | lia | eval_pow2; Z.div_mod_to_equations; lia
            | eval_leb; eval_pow2; Z.div_mod_to_equations; lia ].
        destruct (Z.ltb_spec m (2 ^ 23)); [reflexivity | lia].
    + change (2 ^ (8 * (3 - 3))) with 1. rewrite Z.div_1_r.
      destruct (Z_lt_le_dec m (2 ^ 16)) as [Hs | Hb].
      * rewrite (BigToCompact_of m 2) with (r := m * 256);
          [ | lia | revert Hs; eval_pow2; lia
            | eval_leb; eval_pow2; lia ].
        destruct (Z.ltb_spec (m * 256) (2 ^ 23)) as [Hlt|_];
          [revert Hlt; eval_pow2; lia|].
        rewrite Z.div_mul by lia. reflexivity.
      * rewrite (BigToCompact_of m 3) with (r := m);
          [ | lia | revert Hb; eval_pow2; lia
            | eval_leb; eval_pow2; lia ].
        destruct (Z.ltb_spec m (2 ^ 23)); [reflexivity | lia].
  - set (P := 2 ^ (8 * (E - 3))).
    assert (HP : 0 < P) by (apply pow2_pos; lia).
    assert (H16 : 2 ^ (8 * (E - 1)) = P * 2 ^ 16).
    { unfold P. rewrite <- pow2_split by lia. f_equal. lia. }
    assert (H24 : 2 ^ (8 * E) = P * 2 ^ 24).
    { unfold P. rewrite <- pow2_split by lia. f_equal. lia. }
    assert (H8 : 2 ^ (8 * (E - 1 - 1)) = P * 2 ^ 8).
    { unfold P. rewrite <- pow2_split by lia. f_equal. lia. }
    destruct (Z_lt_le_dec m (2 ^ 16)) as [Hs | Hb].
    + rewrite (BigToCompact_of (m * P) (E - 1)) with (r := m * 256).
      * destruct (Z.ltb_spec (m * 256) (2 ^ 23)) as [Hlt|_];
          [revert Hlt; eval_pow2; lia|].
        rewrite Z.div_mul by lia.
        replace (E - 1 + 1) with E by lia.
        rewrite Z.mod_small by lia. reflexivity.
      * lia.
      * rewrite H8. replace (8 * (E - 1)) with (8 * (E - 1 - 1) + 8) by lia.
        rewrite pow2_split, H8 by lia.
        revert Hs. eval_pow2. intros Hs. nia.
      * destruct (Z.leb_spec (E - 1) 3) as [Hle4 | Hgt4].
        -- assert (E = 4) by lia. subst E. unfold P. eval_pow2. lia.
        -- assert (HQ : P = 2 ^ (8 * (E - 1 - 3)) * 256).
           { unfold P. change 256 with (2 ^ 8).
             rewrite <- pow2_split by lia. f_equal. lia. }
           replace (m * P) with (m * 256 * 2 ^ (8 * (E - 1 - 3)))
             by (rewrite HQ; ring).
           rewrite Z.div_mul; [reflexivity|].
           apply Z.pow_nonzero; lia.
    + rewrite (BigToCompact_of (m * P) E) with (r := m).
      * destruct (Z.ltb_spec m (2 ^ 23)); [|lia].
        rewrite Z.mod_small by lia. reflexivity.
      * lia.
      * rewrite H16, H24. revert Hb. eval_pow2. intros Hb. nia.
      * destruct (Z.leb_spec E 3); [lia|].
        fold P. rewrite Z.div_mul; lia.
Qed.

(** Conversely, only normalised values come back from the round trip. *)
Lemma roundtrip_fields_inv (E m : Z) :
  0 <= E < 256 -> 0 < m < 2 ^ 23 ->
  BigToCompact (CompactToBig (E * 2 ^ 24 + m)) = E * 2 ^ 24 + m ->
  2 ^ 15 <= m /\ (3 <= E \/ m mod 2 ^ (8 * (3 - E)) = 0).
Proof.
  intros HE Hm.
  rewrite CompactToBig_pack by lia.
  set (n := if E <=? 3 then m / 2 ^ (8 * (3 - E)) else m * 2 ^ (8 * (E - 3))).
  assert (Hn0 : 0 <= n).
  { unfold n. destruct (Z.leb_spec E 3).
    - apply Z.div_pos; [lia | apply pow2_pos; lia].
    - apply Z.mul_nonneg_nonneg; [lia|]. apply Z.lt_le_incl, pow2_pos. lia. }
  intros Hrt.
  assert (Hn : 0 < n).
  { destruct (Z.eq_dec n 0) as [Hz|]; [|lia].
    rewrite Hz in Hrt. change (BigToCompact 0) with 0 in Hrt.
    revert Hm Hrt. eval_pow2. lia. }
  split.
  - pose proof (rawMantissa_bounds n Hn) as Hr.
    rewrite BigToCompact_pos in Hrt by exact Hn.
    pose proof (Z.mod_pos_bound (Big.byteLen n) 256 ltac:(lia)) as HA.
    pose proof (Z.mod_pos_bound (Big.byteLen n + 1) 256 ltac:(lia)) as HB.
    revert Hrt Hr Hm.
    destruct (Z.ltb_spec (rawMantissa n) (2 ^ 23)) as [Hlt | Hge];
      revert Hlt || revert Hge; eval_pow2; intros;
      Z.div_mod_to_equations; lia.
  - destruct (Z_le_gt_dec 3 E) as [|Hlt3]; [left; assumption | right].
    assert (Hc : E = 0 \/ E = 1 \/ E = 2) by lia.
    destruct Hc as [-> | [-> | ->]]; unfold n in *; clear n; revert Hn Hrt;
      eval_leb; eval_pow2; intros Hn Hrt.
    + exfalso. revert Hm. eval_pow2. intros. Z.div_mod_to_equations; lia.
    + rewrite (BigToCompact_of (m / 65536) 1) with (r := m / 65536 * 65536)
        in Hrt;
        [ | lia
          | revert Hm; eval_pow2; intros; Z.div_mod_to_equations; lia
          | eval_leb; eval_pow2; reflexivity ].
      revert Hrt Hm.
      destruct (Z.ltb_spec (m / 65536 * 65536) (2 ^ 23)) as [Hlt | Hge];
        revert Hlt || revert Hge; eval_pow2; intros;
        Z.div_mod_to_equations; lia.
    + destruct (Z_lt_le_dec (m / 256) 256) as [Hs | Hb].
      * rewrite (BigToCompact_of (m / 256) 1) with (r := m / 256 * 65536)
          in Hrt;
          [ | lia
            | revert Hm; eval_pow2; intros; Z.div_mod_to_equations; lia
            | eval_leb; eval_pow2; reflexivity ].
        revert Hrt Hm.
        destruct (Z.ltb_spec (m / 256 * 65536) (2 ^ 23)) as [Hlt | Hge];
          revert Hlt || revert Hge; eval_pow2; intros;
          Z.div_mod_to_equations; lia.
      * rewrite (BigToCompact_of (m / 256) 2) with (r := m / 256 * 256)
          in Hrt;
          [ | lia
            | revert Hm; eval_pow2; intros; Z.div_mod_to_equations; lia
            | eval_leb; eval_pow2; reflexivity ].
        revert Hrt Hm.
        destruct (Z.ltb_spec (m / 256 * 256) (2 ^ 23)) as [Hlt | Hge];
          revert Hlt || revert Hge; eval_pow2; intros;
          Z.div_mod_to_equations; lia.
Qed.

(** Claim C5, amended: for every positive [n <= 2^256 - 1], decoding the
    encoding of [n] gives at most [n], and the relative error
    [(n - decoded) / n] is below [2^-15] (not [2^-23]: a normalised
    mantissa may keep as few as 16 significant bits). *)
Theorem decode_encode_error (n : Z) :
  0 < n <= 2 ^ 256 - 1 ->
  CompactToBig (BigToCompact n) <= n /\
  (n - CompactToBig (BigToCompact n)) * 2 ^ 15 < n.
Proof.
  intros Hr'. assert (Hr : 0 < n < 2 ^ 256) by lia. clear Hr'.
  pose proof Hr as [Hn _].
  pose proof (byteLen_le_32 n Hr) as He.
  pose proof (rawMantissa_bounds n Hn) as Hm.
  destruct (byteLen_bounds n Hn) as (_ & Hlo & Hhi).
  rewrite BigToCompact_pos by exact Hn.
  assert (Hraw : rawMantissa n =
                 if Big.byteLen n <=? 3
                 then n * 2 ^ (8 * (3 - Big.byteLen n))
                 else n / 2 ^ (8 * (Big.byteLen n - 3))) by reflexivity.
  set (e := Big.byteLen n) in *. set (m := rawMantissa n) in *.
  change (2 ^ 15) with 32768. change (2 ^ 16) with 65536 in *.
  change (2 ^ 24) with 16777216 in Hm.
  destruct (Z.ltb_spec m (2 ^ 23)) as [Hlt | Hge];
    change (2 ^ 23) with 8388608 in *.
  - rewrite (Z.mod_small e) by lia.
    rewrite CompactToBig_pack by (change (2 ^ 23) with 8388608; lia).
    revert Hraw. destruct (Z.leb_spec e 3) as [Hle | Hgt]; intros Hraw.
    + rewrite Hraw. rewrite Z.div_mul; [lia|].
      apply Z.pow_nonzero; lia.
    + set (P := 2 ^ (8 * (e - 3))) in *.
      assert (HP : 0 < P) by (apply pow2_pos; lia).
      pose proof (Z.div_mod n P ltac:(lia)) as Hdm.
      pose proof (Z.mod_pos_bound n P HP) as Hrb.
      rewrite <- Hraw in Hdm. nia.
  - rewrite (Z.mod_small (e + 1)) by lia.
    assert (HM : 0 <= m / 256 < 2 ^ 23).
    { change (2 ^ 23) with 8388608. Z.div_mod_to_equations; lia. }
    rewrite CompactToBig_pack by (lia || exact HM).
    revert Hraw. destruct (Z.leb_spec e 3) as [Hle3 | Hgt3]; intros Hraw.
    + assert (Hc : e = 1 \/ e = 2 \/ e = 3) by lia.
      destruct Hc as [Hc | [Hc | Hc]]; rewrite Hc in *;
        match goal with
        | |- context [?a <=? 3] =>
            let b := eval vm_compute in (a <=? 3) in
            change (a <=? 3) with b; cbv iota
        end;
        eval_pow2; Z.div_mod_to_equations; lia.
    + destruct (Z.leb_spec (e + 1) 3) as [Hle | _]; [lia|].
      set (P := 2 ^ (8 * (e - 3))) in *.
      assert (HP : 0 < P) by (apply pow2_pos; lia).
      replace (2 ^ (8 * (e + 1 - 3))) with (P * 256).
      2:{ unfold P. replace (8 * (e + 1 - 3)) with (8 * (e - 3) + 8) by lia.
          rewrite pow2_split by lia. reflexivity. }
      pose proof (Z.div_mod n P ltac:(lia)) as Hdm.
      pose proof (Z.mod_pos_bound n P HP) as Hrb.
      rewrite <- Hraw in Hdm.
      pose proof (Z.div_mod m 256 ltac:(lia)) as Hdm2.
      pose proof (Z.mod_pos_bound m 256 ltac:(lia)) as Hrb2.
      nia.
Qed.

Lemma decode_encode_error_witness :
  0 < 0x8000ff <= 2 ^ 256 - 1 /\
  CompactToBig (BigToCompact 0x8000ff) <= 0x8000ff /\
  (0x8000ff - CompactToBig (BigToCompact 0x8000ff)) * 2 ^ 15 < 0x8000ff.
Proof.
  split; [vm_compute; split; [reflexivity | discriminate]|].
  apply (decode_encode_error 0x8000ff).
  vm_compute; split; [reflexivity | discriminate].
Defined.

(** Claim C5 as stated fails: [0x8000ff] encodes to [0x04008000], which
    decodes to [0x800000]; the error 255 exceeds [n / 2^23]. *)
Lemma decode_encode_error_2p23_counterexample :
  0 < 0x8000ff <= 2 ^ 256 - 1 /\
  BigToCompact 0x8000ff = 0x04008000 /\
  CompactToBig (BigToCompact 0x8000ff) = 0x800000 /\
  ~ (0x8000ff - CompactToBig (BigToCompact 0x8000ff)) * 2 ^ 23 <= 0x8000ff.
Proof.
  split; [vm_compute; split; [reflexivity | discriminate]|].
  split; [reflexivity|]. split; [reflexivity|].
  vm_compute. intros H. apply H. reflexivity.
Qed.

(** Claim C4, amended: for a 32-bit compact value whose sign bit is clear
    and whose mantissa is not zero, encoding the decoded target gives the
    value back exactly when the value is normalised: the mantissa is at
    least [0x008000] and, for an exponent below 3, the mantissa bits
    that decoding shifts out are zero. *)
Theorem encode_decode_iff_normalized (x : Z) :
  0 <= x < 2 ^ 32 ->
  Z.land x 0x00800000 = 0 ->
  Z.land x 0x007fffff <> 0 ->
  (BigToCompact (CompactToBig x) = x <-> normalized x = true).
Proof.
  intros Hx Hs Hm.
  destruct (compact_fields x Hx Hs) as (HE & HM & Hdec).
  unfold normalized.
  set (E := Z.shiftr x 24) in *. set (m := Z.land x 0x007fffff) in *.
  rewrite Hs. change (0 =? 0) with true. rewrite andb_true_l.
  change 0x008000 with (2 ^ 15).
  split.
  - intros Hrt. rewrite Hdec in Hrt.
    destruct (roundtrip_fields_inv E m HE ltac:(lia) Hrt) as [H15 Hlow].
    apply andb_true_iff. split; [apply Z.leb_le; exact H15|].
    apply orb_true_iff. destruct Hlow as [H3 | H0].
    + left. apply Z.leb_le. exact H3.
    + right. apply Z.eqb_eq. exact H0.
  - intros Hn. apply andb_true_iff in Hn. destruct Hn as [H15 Hlow].
    apply Z.leb_le in H15. apply orb_true_iff in Hlow.
    rewrite Hdec. apply encode_decode_fields; [exact HE | lia |].
    destruct Hlow as [H3 | H0].
    + left. apply Z.leb_le. exact H3.
    + right. apply Z.eqb_eq. exact H0.
Qed.

Lemma encode_decode_iff_normalized_witness :
  (0 <= 0x1b0404cb < 2 ^ 32 /\
   Z.land 0x1b0404cb 0x00800000 = 0 /\
   Z.land 0x1b0404cb 0x007fffff <> 0) /\
  (BigToCompact (CompactToBig 0x1b0404cb) = 0x1b0404cb
   <-> normalized 0x1b0404cb = true).
Proof.
  assert (H1 : 0 <= 0x1b0404cb < 2 ^ 32)
    by (vm_compute; split; [discriminate | reflexivity]).
  assert (H2 : Z.land 0x1b0404cb 0x00800000 = 0) by reflexivity.
  assert (H3 : Z.land 0x1b0404cb 0x007fffff <> 0) by (vm_compute; discriminate).
  split; [exact (conj H1 (conj H2 H3))|].
  exact (encode_decode_iff_normalized 0x1b0404cb H1 H2 H3).
Defined.

(** Claim C4 as stated fails: [0x03000001] has a clear sign bit and the
    non-zero mantissa 1; it decodes to 1, which encodes to
    [0x01010000]. *)
Lemma encode_decode_canonical_counterexample :
  (0 <= 0x03000001 < 2 ^ 32 /\
   Z.land 0x03000001 0x00800000 = 0 /\
   Z.land 0x03000001 0x007fffff <> 0 /\
   Z.land 0x03000001 0x007fffff <= 0x7fffff) /\
  CompactToBig 0x03000001 = 1 /\
  BigToCompact (CompactToBig 0x03000001) = 0x01010000 /\
  BigToCompact (CompactToBig 0x03000001) <> 0x03000001.
Proof.
  repeat split; try reflexivity; vm_compute; discriminate.
Qed.

(** Claim C9: for every bits value, [CalcWork] is 0 when the decoded
    target is not positive and [floor (2^256 / (decoded + 1))]
    otherwise. *)
Theorem CalcWork_spec (bits : Z) :
  CalcWork bits =
  if CompactToBig bits <=? 0 then 0
  else 2 ^ 256 / (CompactToBig bits + 1).
Proof.
  unfold CalcWork, Big.Div, bigOne, oneLsh256.
  destruct (Z.leb_spec (CompactToBig bits) 0) as [Hle | Hgt];
    [reflexivity|].
  destruct (Z.ltb_spec 0 (CompactToBig bits + 1)) as [_|]; [|lia].
  rewrite Z.shiftl_mul_pow2 by lia. rewrite Z.mul_1_l. reflexivity.
Qed.

(** Scenarios S1 to S3 of the specification. *)
Example CompactToBig_1d00ffff : CompactToBig 0x1d00ffff = 0xffff * 2 ^ 208.
Proof. reflexivity. Qed.

Example BigToCompact_CompactToBig_1b0404cb :
  BigToCompact (CompactToBig 0x1b0404cb) = 0x1b0404cb.
Proof. reflexivity. Qed.

Example CalcWork_1d00ffff : CalcWork 0x1d00ffff = 0x0000000100010001.
Proof. reflexivity. Qed.

End RoundTrip.

(** ** The dispatcher *)

Section Dispatch.

Lemma add32_small (h : Z) : MinInt32 <= h < MaxInt32 -> add32 h 1 = h + 1.
Proof.
  unfold add32, i32, wraps, MinInt32, MaxInt32. intros H.
  change (2 ^ (32 - 1)) with 2147483648 in *.
  change (2 ^ 31) with 2147483648 in *.
  change (2 ^ 32) with 4294967296.
  rewrite Z.mod_small by lia. lia.
Qed.

(** The dispatcher and the selection agree. *)
Lemma dispatch_run_select
  (lastNode : option HeaderCtx) (newBlockTime : Z) (c : ChainCtx) :
  calcNextRequiredDifficulty lastNode newBlockTime c =
  runAlgorithm (selectAlgorithm c lastNode) lastNode newBlockTime c.
Proof.
  unfold calcNextRequiredDifficulty, selectAlgorithm.
  destruct (PoWNoRetargeting (ChainParams c)); [reflexivity|].
  destruct lastNode as [tip|]; [|reflexivity].
  cbv zeta. rewrite !Z.gtb_ltb, !Z.geb_leb.
  destruct ((0 <? ASERTHeight (ChainParams c))
            && (ASERTHeight (ChainParams c) <? add32 (Height tip) 1));
    [reflexivity|].
  destruct ((0 <? LWMAFixHeight (ChainParams c))
            && (LWMAFixHeight (ChainParams c) <=? add32 (Height tip) 1));
    [reflexivity|].
  destruct ((0 <? LWMAHeight (ChainParams c))
            && (LWMAHeight (ChainParams c) <=? add32 (Height tip) 1));
    reflexivity.
Qed.

(** Claim C2: for every chain context and tip, the dispatcher runs the
    algorithm of the first matching rule on [next = h+1] (the 32-bit sum the
    code computes): [PowLimitBits] without retargeting or without a tip,
    ASERT when [ASERTHeight > 0] and [next > ASERTHeight], else LWMA v2 when
    [LWMAFixHeight > 0] and [next >= LWMAFixHeight], else LWMA v1 when
    [LWMAHeight > 0] and [next >= LWMAHeight], else the legacy retarget. *)
Theorem dispatcher_first_matching_rule
  (lastNode : option HeaderCtx) (newBlockTime : Z) (c : ChainCtx) :
  calcNextRequiredDifficulty lastNode newBlockTime c =
  match lastNode with
  | None => Ok (PowLimitBits (ChainParams c))
  | Some tip =>
      let p := ChainParams c in
      let next := add32 (Height tip) 1 in
      if PoWNoRetargeting p then Ok (PowLimitBits p)
      else if (0 <? ASERTHeight p) && (ASERTHeight p <? next)
      then calcNextRequiredDifficultyASERT tip c
      else if (0 <? LWMAFixHeight p) && (LWMAFixHeight p <=? next)
      then calcNextRequiredDifficultyLWMAv2 tip c
      else if (0 <? LWMAHeight p) && (LWMAHeight p <=? next)
      then calcNextRequiredDifficultyLWMA tip c
      else legacyRetarget tip newBlockTime c
  end
  /\ calcNextRequiredDifficulty lastNode newBlockTime c =
     runAlgorithm (selectAlgorithm c lastNode) lastNode newBlockTime c.
Proof.
  split; [|apply dispatch_run_select].
  unfold calcNextRequiredDifficulty.
  destruct lastNode as [tip|];
    [|destruct (PoWNoRetargeting (ChainParams c)); reflexivity].
  cbv zeta. rewrite !Z.gtb_ltb, !Z.geb_leb. reflexivity.
Qed.

(** The rules of the selection, one by one. *)
Lemma selectAlgorithm_rules (c : ChainCtx) (tip : HeaderCtx) :
  PoWNoRetargeting (ChainParams c) = false ->
  let p := ChainParams c in
  let next := add32 (Height tip) 1 in
  match selectAlgorithm c (Some tip) with
  | PowLimitRule => False
  | ASERT => 0 < ASERTHeight p /\ ASERTHeight p < next
  | LWMAv2 =>
      ~ (0 < ASERTHeight p /\ ASERTHeight p < next) /\
      0 < LWMAFixHeight p /\ LWMAFixHeight p <= next
  | LWMAv1 =>
      ~ (0 < ASERTHeight p /\ ASERTHeight p < next) /\
      ~ (0 < LWMAFixHeight p /\ LWMAFixHeight p <= next) /\
      0 < LWMAHeight p /\ LWMAHeight p <= next
  | Legacy =>
      ~ (0 < ASERTHeight p /\ ASERTHeight p < next) /\
      ~ (0 < LWMAFixHeight p /\ LWMAFixHeight p <= next) /\
      ~ (0 < LWMAHeight p /\ LWMAHeight p <= next)
  end.
Proof.
  intros Hno p next. unfold selectAlgorithm. rewrite Hno.
  cbv zeta. fold p next.
  destruct (Z.ltb_spec 0 (ASERTHeight p)), (Z.ltb_spec (ASERTHeight p) next),
    (Z.ltb_spec 0 (LWMAFixHeight p)), (Z.leb_spec (LWMAFixHeight p) next),
    (Z.ltb_spec 0 (LWMAHeight p)), (Z.leb_spec (LWMAHeight p) next);
    simpl; lia.
Qed.

(** The result depends on the time of the new block on the legacy path
    with [ReduceMinDifficulty] only. *)
Lemma newBlockTime_only_reduce_min_difficulty
  (lastNode : option HeaderCtx) (t1 t2 : Z) (c : ChainCtx) :
  selectAlgorithm c lastNode <> Legacy
  \/ ReduceMinDifficulty (ChainParams c) = false ->
  calcNextRequiredDifficulty lastNode t1 c =
  calcNextRequiredDifficulty lastNode t2 c.
Proof.
  intros H. rewrite !dispatch_run_select.
  destruct (selectAlgorithm c lastNode) eqn:Hsel, lastNode as [tip|];
    try reflexivity.
  destruct H as [H | H]; [congruence|].
  simpl. unfold legacyRetarget. rewrite H. reflexivity.
Qed.

End Dispatch.

(** ** Independence from the time of the new block *)

Section NewBlockTime.

(** Claim C10: two invocations that differ in the time of the new block
    only return the same result whenever the dispatcher selects LWMA v1,
    LWMA v2 or ASERT. *)
Theorem result_independent_of_newBlockTime
  (lastNode : option HeaderCtx) (t1 t2 : Z) (c : ChainCtx) :
  In (selectAlgorithm c lastNode) [ASERT; LWMAv2; LWMAv1] ->
  calcNextRequiredDifficulty lastNode t1 c =
  calcNextRequiredDifficulty lastNode t2 c.
Proof.
  intros Hin. apply newBlockTime_only_reduce_min_difficulty.
  left. intros Heq. rewrite Heq in Hin. simpl in Hin.
  repeat destruct Hin as [Hin | Hin]; try discriminate. exact Hin.
Qed.

Lemma result_independent_of_newBlockTime_witness :
  In (selectAlgorithm (ctxOf TestNet4Params) (Some (windowTip 45 150)))
     [ASERT; LWMAv2; LWMAv1] /\
  calcNextRequiredDifficulty (Some (windowTip 45 150)) 1700006900
    (ctxOf TestNet4Params) =
  calcNextRequiredDifficulty (Some (windowTip 45 150)) 1700009999
    (ctxOf TestNet4Params).
Proof.
  assert (Hin : In (selectAlgorithm (ctxOf TestNet4Params)
                      (Some (windowTip 45 150)))
                   [ASERT; LWMAv2; LWMAv1])
    by (right; left; reflexivity).
  split; [exact Hin|].
  exact (result_independent_of_newBlockTime
           (Some (windowTip 45 150)) 1700006900 1700009999
           (ctxOf TestNet4Params) Hin).
Defined.

(** On the legacy path of the test network the time of the new block
    decides between the minimum difficulty and the previous one. *)
Example legacy_depends_on_newBlockTime :
  selectAlgorithm (ctxOf TestNet4Params) (Some (orphanHeader 50)) = Legacy /\
  calcNextRequiredDifficulty (Some (orphanHeader 50)) 1700000300
    (ctxOf TestNet4Params) = Ok 0x1d18ffe7 /\
  calcNextRequiredDifficulty (Some (orphanHeader 50)) 1700000301
    (ctxOf TestNet4Params) = Ok 0x1e0fffff.
Proof. repeat split; reflexivity. Qed.

End NewBlockTime.

(** ** The window of the legacy retarget *)

Section LegacyWindow.

Lemma sub32_small (a : Z) : MinInt32 < a <= MaxInt32 -> sub32 a 1 = a - 1.
Proof.
  unfold sub32, i32, wraps, MinInt32, MaxInt32. intros H.
  change (2 ^ (32 - 1)) with 2147483648 in *.
  change (2 ^ 31) with 2147483648 in *.
  change (2 ^ 32) with 4294967296.
  rewrite Z.mod_small by lia. lia.
Qed.

Lemma RelativeAncestorCtx_walkBack (h : HeaderCtx) (distance : Z) :
  0 <= distance ->
  RelativeAncestorCtx h distance = walkBack (Z.to_nat distance) h.
Proof.
  intros H. unfold RelativeAncestorCtx.
  destruct (Z.ltb_spec distance 0); [lia | reflexivity].
Qed.

(** Claim C1, amended: at a retarget boundary of the legacy algorithm the
    first node of the window is found by walking back [BlocksPerRetarget]
    generations from [lastNode], except on the first retarget (when
    [h+1 = BlocksPerRetarget]), where it walks back [BlocksPerRetarget - 1]
    generations. *)
Theorem legacy_first_node (lastNode : HeaderCtx) (newBlockTime : Z)
  (c : ChainCtx) :
  selectAlgorithm c (Some lastNode) = Legacy ->
  0 < BlocksPerRetarget c <= MaxInt32 ->
  Z.rem (add32 (Height lastNode) 1) (BlocksPerRetarget c) = 0 ->
  calcNextRequiredDifficulty (Some lastNode) newBlockTime c =
  retargetFrom lastNode c
    (walkBack
       (Z.to_nat (if add32 (Height lastNode) 1 =? BlocksPerRetarget c
                  then BlocksPerRetarget c - 1
                  else BlocksPerRetarget c))
       lastNode).
Proof.
  intros Hsel Hbpr Hrem.
  rewrite dispatch_run_select, Hsel. simpl. unfold legacyRetarget.
  destruct (Z.eqb_spec (BlocksPerRetarget c) 0) as [|_]; [lia|].
  rewrite Hrem. simpl. f_equal.
  unfold retargetDistance.
  destruct (Z.eqb_spec (add32 (Height lastNode) 1) (BlocksPerRetarget c));
    simpl.
  - rewrite sub32_small by (unfold MinInt32, MaxInt32 in *; lia).
    apply RelativeAncestorCtx_walkBack. lia.
  - apply RelativeAncestorCtx_walkBack. lia.
Qed.

Lemma legacy_first_node_witness :
  (selectAlgorithm (ctxOf MainNetParams) (Some firstRetargetTip) = Legacy /\
   0 < BlocksPerRetarget (ctxOf MainNetParams) <= MaxInt32 /\
   Z.rem (add32 (Height firstRetargetTip) 1)
         (BlocksPerRetarget (ctxOf MainNetParams)) = 0) /\
  calcNextRequiredDifficulty (Some firstRetargetTip) 1394628160
    (ctxOf MainNetParams) =
  retargetFrom firstRetargetTip (ctxOf MainNetParams)
    (walkBack
       (Z.to_nat (if add32 (Height firstRetargetTip) 1
                     =? BlocksPerRetarget (ctxOf MainNetParams)
                  then BlocksPerRetarget (ctxOf MainNetParams) - 1
                  else BlocksPerRetarget (ctxOf MainNetParams)))
       firstRetargetTip).
Proof.
  assert (H1 : selectAlgorithm (ctxOf MainNetParams) (Some firstRetargetTip)
               = Legacy) by (vm_compute; reflexivity).
  assert (H2 : 0 < BlocksPerRetarget (ctxOf MainNetParams) <= MaxInt32)
    by (vm_compute; split; [reflexivity | discriminate]).
  assert (H3 : Z.rem (add32 (Height firstRetargetTip) 1)
                     (BlocksPerRetarget (ctxOf MainNetParams)) = 0)
    by (vm_compute; reflexivity).
  split; [exact (conj H1 (conj H2 H3))|].
  exact (legacy_first_node firstRetargetTip 1394628160 (ctxOf MainNetParams)
           H1 H2 H3).
Defined.

(** Claim C1 as stated fails: before the first retarget of the main
    network (tip of height 2015, interval 2016) the code walks back 2015
    generations, to the genesis block, and retargets; walking back 2016
    generations, as the claim has it, finds no block at all. *)
Lemma legacy_first_node_claimed_counterexample :
  (selectAlgorithm (ctxOf MainNetParams) (Some firstRetargetTip) = Legacy /\
   add32 (Height firstRetargetTip) 1 = BlocksPerRetarget (ctxOf MainNetParams) /\
   Z.rem (add32 (Height firstRetargetTip) 1)
         (BlocksPerRetarget (ctxOf MainNetParams)) = 0) /\
  claimedRetargetDistance firstRetargetTip (ctxOf MainNetParams) = 2016 /\
  walkBack 2016 firstRetargetTip = None /\
  walkBack 2015 firstRetargetTip = Some genesisHeader /\
  calcNextRequiredDifficulty (Some firstRetargetTip) 1394628160
    (ctxOf MainNetParams) = Ok 0x1e0ffde7 /\
  calcNextRequiredDifficulty (Some firstRetargetTip) 1394628160
    (ctxOf MainNetParams) <>
  retargetFrom firstRetargetTip (ctxOf MainNetParams)
    (RelativeAncestorCtx firstRetargetTip
       (claimedRetargetDistance firstRetargetTip (ctxOf MainNetParams))).
Proof.
  repeat split; try (vm_compute; reflexivity).
  vm_compute. discriminate.
Qed.

End LegacyWindow.

(** ** Signed 64-bit arithmetic *)

Section Int64.

Lemma i64_small (z : Z) : MinInt64 <= z <= MaxInt64 -> i64 z = z.
Proof.
  unfold i64, wraps, MinInt64, MaxInt64. intros H.
  change (2 ^ (64 - 1)) with 9223372036854775808 in *.
  change (2 ^ 63) with 9223372036854775808 in *.
  change (2 ^ 64) with 18446744073709551616.
  rewrite Z.mod_small by lia. lia.
Qed.

Lemma i64_wraps (z : Z) : exists k, i64 z = z + k * 2 ^ 64.
Proof.
  unfold i64, wraps.
  exists (- ((z + 2 ^ (64 - 1)) / 2 ^ 64)).
  pose proof (Z.div_mod (z + 2 ^ (64 - 1)) (2 ^ 64) ltac:(lia)). lia.
Qed.

Lemma i64_shift (z k : Z) : i64 (z + k * 2 ^ 64) = i64 z.
Proof.
  unfold i64, wraps. f_equal.
  replace (z + k * 2 ^ 64 + 2 ^ (64 - 1)) with (z + 2 ^ (64 - 1) + k * 2 ^ 64)
    by ring.
  apply Z_mod_plus_full.
Qed.

(** The schedule deviation of ASERT, computed in int64, is the wrapped
    exact deviation. *)
Lemma asert_deviation_exact (tLast tAnchor T h A : Z) :
  sub64 (sub64 tLast tAnchor) (mul64 T (sub64 (add64 h 1) A)) =
  i64 (tLast - tAnchor - T * (h + 1 - A)).
Proof.
  unfold sub64, mul64, add64.
  destruct (i64_wraps (h + 1)) as [k1 ->].
  destruct (i64_wraps (h + 1 + k1 * 2 ^ 64 - A)) as [k2 ->].
  destruct (i64_wraps (T * (h + 1 + k1 * 2 ^ 64 - A + k2 * 2 ^ 64)))
    as [k3 ->].
  destruct (i64_wraps (tLast - tAnchor)) as [k4 ->].
  rewrite <- (i64_shift (tLast - tAnchor - T * (h + 1 - A))
                (k4 - T * (k1 + k2) - k3)).
  f_equal. ring.
Qed.

End Int64.

(** ** Missing ancestors *)

Section MissingAncestors.

(** The anchor search fails exactly when every header from [lastNode]
    down is above the activation height. *)
Lemma asertAnchor_None_iff (A : Z) (lastNode : HeaderCtx) :
  asertAnchor A lastNode = None <->
  (forall n h, walkBack n lastNode = Some h -> A < Height h).
Proof.
  induction lastNode as [height ts bits | height ts bits p IH]
    using HeaderCtx_chain_ind; simpl.
  - destruct (Z.gtb_spec height A) as [Hgt | Hle]; split.
    + intros _ [|n] h Hw; simpl in Hw; [|discriminate].
      injection Hw as <-. simpl. lia.
    + reflexivity.
    + discriminate.
    + intros Hall. specialize (Hall O _ eq_refl). simpl in Hall. lia.
  - destruct (Z.gtb_spec height A) as [Hgt | Hle]; split.
    + intros Hnone [|n] h Hw; simpl in Hw.
      * injection Hw as <-. simpl. lia.
      * apply IH in Hw; assumption.
    + intros Hall. apply IH. intros n h Hw. apply (Hall (S n)). exact Hw.
    + discriminate.
    + intros Hall. specialize (Hall O _ eq_refl). simpl in Hall. lia.
Qed.

(** The search ends on a header at or below the activation height. *)
Lemma asertAnchor_Some (A : Z) (lastNode anchor : HeaderCtx) :
  asertAnchor A lastNode = Some anchor ->
  Height anchor <= A /\ exists n, walkBack n lastNode = Some anchor.
Proof.
  induction lastNode as [height ts bits | height ts bits p IH]
    using HeaderCtx_chain_ind; simpl.
  - destruct (Z.gtb_spec height A); [discriminate|].
    intros [= <-]. split; [simpl; lia | exists O; reflexivity].
  - destruct (Z.gtb_spec height A).
    + intros Hrec. destruct (IH Hrec) as [Hh [n Hn]].
      split; [exact Hh | exists (S n); exact Hn].
    + intros [= <-]. split; [simpl; lia | exists O; reflexivity].
Qed.

(** When the parent walk runs off the chain, ASERT calls [Height] on a
    nil header and panics. *)
Lemma asert_walk_exhausts (lastNode : HeaderCtx) (c : ChainCtx) :
  (forall n h, walkBack n lastNode = Some h ->
               ASERTHeight (ChainParams c) < Height h) ->
  calcNextRequiredDifficultyASERT lastNode c = Panic NilDereference.
Proof.
  intros H. apply asertAnchor_None_iff in H.
  unfold calcNextRequiredDifficultyASERT. rewrite H. reflexivity.
Qed.

(** When the anchor is found and has no parent, ASERT returns the
    [AssertError]. *)
Lemma asert_anchor_without_parent (lastNode anchor : HeaderCtx)
  (c : ChainCtx) :
  asertAnchor (ASERTHeight (ChainParams c)) lastNode = Some anchor ->
  Parent anchor = None ->
  calcNextRequiredDifficultyASERT lastNode c =
  Error "ASERT anchor block has no parent"%string.
Proof.
  intros Ha Hp. unfold calcNextRequiredDifficultyASERT.
  rewrite Ha, Hp. reflexivity.
Qed.

(** Claim C6 fails on the code: on the test network (ASERT from height
    300) a tip of height 400 whose parent is missing makes the dispatcher
    select ASERT, and the call panics on the nil parent instead of
    returning an [AssertError]. *)
Theorem asert_missing_anchor_panics (newBlockTime : Z) :
  selectAlgorithm (ctxOf TestNet4Params) (Some (orphanHeader 400)) = ASERT /\
  Parent (orphanHeader 400) = None /\
  calcNextRequiredDifficulty (Some (orphanHeader 400)) newBlockTime
    (ctxOf TestNet4Params) = Panic NilDereference.
Proof. repeat split. Qed.

(** With no parent at all under [lastNode], LWMA v1 leaves both sums at
    zero and divides by the zero expected sum. *)
Lemma lwma_first_parent_missing (lastNode : HeaderCtx) (c : ChainCtx) :
  Parent lastNode = None ->
  3 <= lwmaBlocks lastNode (ChainParams c) ->
  calcNextRequiredDifficultyLWMA lastNode c = Panic DivideByZero.
Proof.
  intros Hp Hb. unfold calcNextRequiredDifficultyLWMA.
  destruct (Z.ltb_spec (lwmaBlocks lastNode (ChainParams c)) 3); [lia|].
  destruct lastNode as [height ts bits parent]. simpl in Hp. subst parent.
  unfold lwmaLoop.
  destruct (lwmaBlocks _ _ >=? 1); reflexivity.
Qed.

(** The same holds for LWMA v2. *)
Lemma lwmav2_first_parent_missing (lastNode : HeaderCtx) (c : ChainCtx) :
  Parent lastNode = None ->
  3 <= lwmaBlocks lastNode (ChainParams c) ->
  calcNextRequiredDifficultyLWMAv2 lastNode c = Panic DivideByZero.
Proof.
  intros Hp Hb. unfold calcNextRequiredDifficultyLWMAv2.
  destruct (Z.ltb_spec (lwmaBlocks lastNode (ChainParams c)) 3); [lia|].
  destruct lastNode as [height ts bits parent]. simpl in Hp. subst parent.
  unfold lwmaLoop.
  destruct (lwmaBlocks _ _ >=? 1); reflexivity.
Qed.

(** The sum of the weights after the loop: at least what it was, at most
    [i (i + 1) / 2] more, and at least [i] more once a parent was there. *)
Lemma lwmaLoop_weights (T : Z) (block : HeaderCtx) :
  forall i sws sw,
    0 <= sw -> 2 * sw + i * (i + 1) <= 2 * MaxInt64 ->
    let r := snd (lwmaLoop T block i sws sw) in
    sw <= r /\ 2 * r <= 2 * sw + i * (i + 1) /\
    (1 <= i -> Parent block <> None -> sw + i <= r).
Proof.
  induction block as [h t b | h t b p IH] using HeaderCtx_chain_ind;
    intros i sws sw Hsw Hfit; cbn [lwmaLoop].
  - destruct (Z.geb_spec i 1); cbn [snd Parent].
    + split; [lia|]. split; [nia|]. intros _ Hp. contradiction.
    + split; [lia|]. split; [nia|]. intros _ Hp. contradiction.
  - destruct (Z.geb_spec i 1) as [Hi | Hi]; cbn [snd Parent].
    + assert (Hadd : add64 sw i = sw + i).
      { unfold add64. apply i64_small. unfold MinInt64, MaxInt64 in *. nia. }
      rewrite Hadd.
      specialize (IH (i - 1)
                    (add64 sws (mul64 (solvetimeOf T (Header h t b (Some p)) p) i))
                    (sw + i) ltac:(lia) ltac:(nia)).
      cbv zeta in IH. destruct IH as (Hlo & Hhi & _).
      split; [lia|]. split; [nia|]. intros _ _. exact Hlo.
    + split; [lia|]. split; [nia|]. intros Hi'. lia.
Qed.

(** When [lastNode] has a parent, the spacing is at least one second and
    the expected sum fits int64, LWMA v1 returns a target however early
    the walk stops. *)
Lemma lwma_partial_walk_returns (lastNode : HeaderCtx) (c : ChainCtx) :
  let p := ChainParams c in
  let T := seconds (TargetTimePerBlock p) in
  let blocks := lwmaBlocks lastNode p in
  Parent lastNode <> None ->
  3 <= blocks ->
  1 <= T ->
  T * (blocks * (blocks + 1)) <= 2 * MaxInt64 ->
  exists bits, calcNextRequiredDifficultyLWMA lastNode c = Ok bits.
Proof.
  intros p T blocks Hp Hb HT Hfit.
  unfold calcNextRequiredDifficultyLWMA. fold p T blocks.
  destruct (Z.ltb_spec blocks 3); [lia|].
  destruct (lwmaLoop_weights T lastNode blocks 0 0 ltac:(lia)
              ltac:(unfold MaxInt64 in *; nia)) as (Hlo & Hhi & Hstep).
  specialize (Hstep ltac:(lia) Hp).
  destruct (lwmaLoop T lastNode blocks 0 0) as [sws sw]. cbn [snd] in *.
  unfold lwmaFinish.
  assert (Hexp : mul64 sw T = sw * T).
  { unfold mul64. apply i64_small. unfold MinInt64, MaxInt64 in *. nia. }
  rewrite Hexp.
  destruct (Z.eqb_spec (sw * T) 0); [nia|].
  eexists. reflexivity.
Qed.

(** Claim C7 fails on the code: on the test network (LWMA v1 from height
    100, a window of 45) a tip of height 150 whose parent is missing makes
    the dispatcher select LWMA v1 with 45 blocks, and the call panics on a
    division by zero instead of returning a target. *)
Theorem lwma_missing_first_parent_panics (newBlockTime : Z) :
  selectAlgorithm (ctxOf TestNet4Params) (Some (orphanHeader 150)) = LWMAv1 /\
  lwmaBlocks (orphanHeader 150) TestNet4Params = 45 /\
  Parent (orphanHeader 150) = None /\
  calcNextRequiredDifficulty (Some (orphanHeader 150)) newBlockTime
    (ctxOf TestNet4Params) = Panic DivideByZero.
Proof. repeat split. Qed.

End MissingAncestors.

(** ** ASERT one half-life behind schedule *)

Section AsertHalfLife.

Lemma gtb_min (a b : Z) : (if a >? b then b else a) = Z.min a b.
Proof. destruct (Z.gtb_spec a b); [rewrite Z.min_r | rewrite Z.min_l]; lia. Qed.

(** The fixed-point exponent of a deviation of exactly one half-life is
    1.0, that is 65536, when the scaling by 65536 fits int64. *)
Lemma asert_exponent_one (halfLife : Z) :
  halfLife <> 0 -> - 2 ^ 47 <= halfLife < 2 ^ 47 ->
  quot64 (mul64 (i64 halfLife) 65536) halfLife = 65536.
Proof.
  intros Hnz Hr. unfold quot64, mul64.
  change (2 ^ 47) with 140737488355328 in Hr.
  rewrite (i64_small halfLife)
    by (unfold MinInt64, MaxInt64; change (2 ^ 63) with 9223372036854775808; lia).
  rewrite (i64_small (halfLife * 65536))
    by (unfold MinInt64, MaxInt64; change (2 ^ 63) with 9223372036854775808; lia).
  rewrite (Z.mul_comm halfLife), Z.quot_mul by exact Hnz.
  reflexivity.
Qed.

(** Claim C3, amended: for every ASERT invocation with the anchor and
    its parent present and a positive anchor target, in which
    [lastNode.timestamp - anchorParent.timestamp - T * ((h+1) - ASERTHeight)]
    is exactly [ASERTHalfLife], the result is the compact encoding of
    [2 * anchorTarget] clamped to [PowLimit], provided the half-life is
    not zero and its scaling by 65536 fits int64
    ([-2^47 <= ASERTHalfLife < 2^47]). *)
Theorem asert_one_half_life (lastNode anchor anchorParent : HeaderCtx)
  (c : ChainCtx) :
  let p := ChainParams c in
  let T := seconds (TargetTimePerBlock p) in
  let anchorTarget := CompactToBig (ASERTAnchorBits p) in
  asertAnchor (ASERTHeight p) lastNode = Some anchor ->
  Parent anchor = Some anchorParent ->
  0 < anchorTarget ->
  Timestamp lastNode - Timestamp anchorParent
    - T * (Height lastNode + 1 - ASERTHeight p) = ASERTHalfLife p ->
  ASERTHalfLife p <> 0 ->
  - 2 ^ 47 <= ASERTHalfLife p < 2 ^ 47 ->
  calcNextRequiredDifficultyASERT lastNode c =
  Ok (BigToCompact (Z.min (2 * anchorTarget) (PowLimit p))).
Proof.
  intros p T anchorTarget Ha Hp Hpos Hdev Hnz Hr.
  unfold calcNextRequiredDifficultyASERT. fold p. rewrite Ha, Hp.
  cbv zeta. fold T anchorTarget.
  rewrite asert_deviation_exact, Hdev.
  destruct (Z.eqb_spec (ASERTHalfLife p) 0) as [|_]; [contradiction|].
  rewrite asert_exponent_one by assumption.
  change (asertSplit 65536) with (1, 0). cbv iota beta.
  change (asertFactor 0) with 65536.
  change (1 >? 0) with true. change (1 >=? 256) with false. cbv iota.
  change (u64 1) with 1.
  rewrite Z.shiftr_div_pow2 by lia. change (2 ^ 16) with 65536.
  rewrite Z.div_mul by lia.
  rewrite Z.shiftl_mul_pow2 by lia. change (2 ^ 1) with 2.
  unfold asertFinish.
  destruct (Z.eqb_spec (anchorTarget * 2) 0) as [|_]; [lia|].
  rewrite gtb_min. rewrite (Z.mul_comm anchorTarget 2). reflexivity.
Qed.

Lemma asert_one_half_life_witness :
  (asertAnchor (ASERTHeight MainNetParams) (anchorTip 3750)
   = Some (anchorTip 3750) /\
   Parent (anchorTip 3750) = Some (Header 1245999 1700000000 0x1d18ffe7 None) /\
   0 < CompactToBig (ASERTAnchorBits MainNetParams) /\
   Timestamp (anchorTip 3750) - 1700000000
     - seconds (TargetTimePerBlock MainNetParams)
       * (Height (anchorTip 3750) + 1 - ASERTHeight MainNetParams)
   = ASERTHalfLife MainNetParams /\
   ASERTHalfLife MainNetParams <> 0 /\
   - 2 ^ 47 <= ASERTHalfLife MainNetParams < 2 ^ 47) /\
  calcNextRequiredDifficultyASERT (anchorTip 3750) (ctxOf MainNetParams) =
  Ok (BigToCompact
        (Z.min (2 * CompactToBig (ASERTAnchorBits MainNetParams))
               (PowLimit MainNetParams))).
Proof.
  assert (H1 : asertAnchor (ASERTHeight MainNetParams) (anchorTip 3750)
               = Some (anchorTip 3750)) by reflexivity.
  assert (H2 : Parent (anchorTip 3750)
               = Some (Header 1245999 1700000000 0x1d18ffe7 None))
    by reflexivity.
  assert (H3 : 0 < CompactToBig (ASERTAnchorBits MainNetParams))
    by reflexivity.
  assert (H4 : Timestamp (anchorTip 3750) - 1700000000
               - seconds (TargetTimePerBlock MainNetParams)
                 * (Height (anchorTip 3750) + 1 - ASERTHeight MainNetParams)
               = ASERTHalfLife MainNetParams) by reflexivity.
  assert (H5 : ASERTHalfLife MainNetParams <> 0) by discriminate.
  assert (H6 : - 2 ^ 47 <= ASERTHalfLife MainNetParams < 2 ^ 47)
    by (vm_compute; split; [discriminate | reflexivity]).
  split; [exact (conj H1 (conj H2 (conj H3 (conj H4 (conj H5 H6)))))|].
  exact (asert_one_half_life (anchorTip 3750) (anchorTip 3750)
           (Header 1245999 1700000000 0x1d18ffe7 None) (ctxOf MainNetParams)
           H1 H2 H3 H4 H5 H6).
Defined.

(** Claim C3 as stated fails where the half-life is outside that range.
    With a half-life of zero, a tip exactly on schedule deviates by the
    half-life, and the division by the half-life panics.  With a half-life
    of [2^47] seconds the scaled deviation [2^63] wraps to [-2^63], the
    exponent is [-1.0] and the target is halved ([0x1d0c7ff3]) instead of
    doubled ([0x1d31ffce]). *)
Lemma asert_one_half_life_counterexample :
  (let c := ctxOf (withASERTHalfLife MainNetParams 0) in
   let tip := anchorTip 150 in
   selectAlgorithm c (Some tip) = ASERT /\
   asertAnchor (ASERTHeight (ChainParams c)) tip = Some tip /\
   0 < CompactToBig (ASERTAnchorBits (ChainParams c)) /\
   Timestamp tip - 1700000000
     - seconds (TargetTimePerBlock (ChainParams c))
       * (Height tip + 1 - ASERTHeight (ChainParams c))
   = ASERTHalfLife (ChainParams c) /\
   calcNextRequiredDifficultyASERT tip c = Panic DivideByZero) /\
  (let c := ctxOf (withASERTHalfLife MainNetParams (2 ^ 47)) in
   let tip := anchorTip (150 + 2 ^ 47) in
   selectAlgorithm c (Some tip) = ASERT /\
   asertAnchor (ASERTHeight (ChainParams c)) tip = Some tip /\
   0 < CompactToBig (ASERTAnchorBits (ChainParams c)) /\
   Timestamp tip - 1700000000
     - seconds (TargetTimePerBlock (ChainParams c))
       * (Height tip + 1 - ASERTHeight (ChainParams c))
   = ASERTHalfLife (ChainParams c) /\
   BigToCompact (Z.min (2 * CompactToBig (ASERTAnchorBits (ChainParams c)))
                       (PowLimit (ChainParams c))) = 0x1d31ffce /\
   calcNextRequiredDifficultyASERT tip c = Ok 0x1d0c7ff3).
Proof. split; cbv zeta; repeat split. Qed.

End AsertHalfLife.

(** ** LWMA v2 in the steady state *)

Section SteadyState.

Lemma sumTo_closed (n : nat) : 2 * sumTo n = Z.of_nat n * (Z.of_nat n + 1).
Proof. induction n as [|n IH]; [reflexivity|]. cbn [sumTo]. lia. Qed.

Lemma sumTo_div (n : nat) : sumTo n = Z.of_nat n * (Z.of_nat n + 1) / 2.
Proof.
  rewrite <- sumTo_closed. rewrite Z.mul_comm, Z.div_mul by lia. reflexivity.
Qed.

Lemma sumTo_nonneg (n : nat) : 0 <= sumTo n.
Proof. pose proof (sumTo_closed n). nia. Qed.

(** A steady window has all its ancestors. *)
Lemma steadyWindow_walkBack (T : Z) (n : nat) :
  forall block, steadyWindow T n block = true ->
                exists ws, walkBack n block = Some ws.
Proof.
  induction n as [|n IH]; intros block Hs.
  - exists block. reflexivity.
  - destruct block as [h t b [p|]]; simpl in Hs; [|discriminate].
    apply andb_true_iff in Hs. destruct Hs as [_ Hs].
    simpl. apply IH. exact Hs.
Qed.

(** The first loop of LWMA v2 ends on the ancestor [blocks] generations
    back, when the chain has it. *)
Lemma windowStartLoop_walkBack (n : nat) :
  forall block i ws,
    walkBack n block = Some ws ->
    windowStartLoop block i (i + Z.of_nat n) = ws.
Proof.
  induction n as [|n IH]; intros block i ws Hw.
  - simpl in Hw. injection Hw as <-.
    destruct block as [h t b [p|]]; simpl;
      destruct (Z.ltb_spec i (i + 0)); (lia || reflexivity).
  - destruct block as [h t b [p|]]; simpl in Hw; [|discriminate].
    cbn [windowStartLoop].
    destruct (Z.ltb_spec i (i + Z.of_nat (S n))); [|lia].
    replace (i + Z.of_nat (S n)) with (i + 1 + Z.of_nat n) by lia.
    apply IH. exact Hw.
Qed.

(** The second loop over a steady window: every solvetime is [T], the
    sums are [T * (1 + ... + n)] and [1 + ... + n]. *)
Lemma lwmaLoop_steady (T : Z) (n : nat) :
  1 <= T -> 6 * T <= MaxInt64 ->
  forall block sws sw,
    steadyWindow T n block = true ->
    0 <= sws -> 0 <= sw ->
    sws + T * sumTo n <= MaxInt64 ->
    sw + sumTo n <= MaxInt64 ->
    lwmaLoop T block (Z.of_nat n) sws sw = (sws + T * sumTo n, sw + sumTo n).
Proof.
  intros HT H6.
  induction n as [|n IH]; intros block sws sw Hs Hsws Hsw Hb1 Hb2.
  - destruct block as [h t b [p|]]; simpl; f_equal; lia.
  - destruct block as [h t b [p|]]; simpl in Hs; [|discriminate].
    apply andb_true_iff in Hs. destruct Hs as [Hst Hs].
    apply Z.eqb_eq in Hst.
    cbn [lwmaLoop].
    destruct (Z.geb_spec (Z.of_nat (S n)) 1); [|lia].
    assert (Hsolve : solvetimeOf T (Header h t b (Some p)) p = T).
    { unfold solvetimeOf. cbn [Timestamp]. rewrite Hst.
      destruct (Z.ltb_spec T 1); [lia|].
      unfold mul64. rewrite i64_small by (unfold MinInt64, MaxInt64 in *; lia).
      destruct (Z.gtb_spec T (6 * T)); [lia | reflexivity]. }
    rewrite Hsolve.
    pose proof (sumTo_nonneg n) as Hn0.
    cbn [sumTo] in Hb1, Hb2 |- *.
    set (i := Z.of_nat (S n)) in *.
    assert (Hi : 1 <= i) by (unfold i; lia).
    assert (HTi : 0 <= T * i <= MaxInt64) by (unfold MaxInt64 in *; nia).
    unfold mul64, add64.
    rewrite (i64_small (T * i)) by (unfold MinInt64, MaxInt64 in *; lia).
    rewrite (i64_small (sws + T * i)) by (unfold MinInt64, MaxInt64 in *; nia).
    rewrite (i64_small (sw + i)) by (unfold MinInt64, MaxInt64 in *; lia).
    replace (i - 1) with (Z.of_nat n) by (unfold i; lia).
    rewrite IH; [f_equal; ring | exact Hs | lia | lia
                | unfold MaxInt64 in *; nia | lia].
Qed.

(** Over a steady window whose sums fit int64, LWMA v2 scales the
    reference target by [T * S] over [S * T], [S] being the sum of the
    weights. *)
Lemma lwmav2_steady_sums (lastNode windowStart : HeaderCtx) (c : ChainCtx)
  (n : nat) :
  let p := ChainParams c in
  let T := seconds (TargetTimePerBlock p) in
  lwmaBlocks lastNode p = Z.of_nat n ->
  3 <= Z.of_nat n ->
  steadyWindow T n lastNode = true ->
  walkBack n lastNode = Some windowStart ->
  1 <= T -> 6 * T <= MaxInt64 ->
  T * sumTo n <= MaxInt64 ->
  calcNextRequiredDifficultyLWMAv2 lastNode c =
  lwmaFinish p 3 T (CompactToBig (Bits windowStart)) (T * sumTo n, sumTo n).
Proof.
  intros p T Hn Hb Hs Hw HT H6 Hfit.
  unfold calcNextRequiredDifficultyLWMAv2. fold p T. rewrite Hn.
  destruct (Z.ltb_spec (Z.of_nat n) 3); [lia|].
  pose proof (windowStartLoop_walkBack n lastNode 0 windowStart Hw) as Hws.
  rewrite Z.add_0_l in Hws. rewrite Hws.
  pose proof (sumTo_nonneg n) as Hn0.
  assert (H1 : 1 <= sumTo n) by (pose proof (sumTo_closed n); nia).
  rewrite (lwmaLoop_steady T n HT H6) by
    (try exact Hs; unfold MaxInt64 in *; nia).
  rewrite !Z.add_0_l. reflexivity.
Qed.

(** Claim C8, amended: for every LWMA v2 invocation on a window of at
    least 3 blocks whose ancestors are all present and whose sampled
    solvetimes all equal [T = TargetTimePerBlock], the target of the
    window-start block being at most [PowLimit], the result is the compact
    encoding of that reference target, provided [T] is at least one second
    and the weighted sums fit int64
    ([3 * T * blocks * (blocks + 1) / 2 <= 2^63 - 1]). *)
Theorem lwmav2_steady_state (lastNode windowStart : HeaderCtx)
  (c : ChainCtx) :
  let p := ChainParams c in
  let T := seconds (TargetTimePerBlock p) in
  let blocks := lwmaBlocks lastNode p in
  let referenceTarget := CompactToBig (Bits windowStart) in
  3 <= blocks ->
  steadyWindow T (Z.to_nat blocks) lastNode = true ->
  walkBack (Z.to_nat blocks) lastNode = Some windowStart ->
  referenceTarget <= PowLimit p ->
  1 <= T ->
  3 * T * (blocks * (blocks + 1) / 2) <= MaxInt64 ->
  calcNextRequiredDifficultyLWMAv2 lastNode c =
  Ok (BigToCompact referenceTarget).
Proof.
  intros p T blocks referenceTarget Hb Hs Hw Hle HT Hfit.
  set (n := Z.to_nat blocks) in *.
  assert (Hn : blocks = Z.of_nat n) by (unfold n; lia).
  assert (Hsum : blocks * (blocks + 1) / 2 = sumTo n)
    by (rewrite Hn; symmetry; apply sumTo_div).
  rewrite Hsum in Hfit.
  assert (H6 : 6 <= sumTo n) by (pose proof (sumTo_closed n); nia).
  rewrite (lwmav2_steady_sums lastNode windowStart c n)
    by (try assumption; fold p T; unfold MaxInt64 in *; nia).
  fold p T referenceTarget.
  unfold lwmaFinish.
  set (S := sumTo n) in *.
  unfold mul64, quot64.
  rewrite (i64_small (S * T)) by (unfold MinInt64, MaxInt64 in *; nia).
  rewrite (i64_small (S * T * 3)) by (unfold MinInt64, MaxInt64 in *; nia).
  assert (Hq : 0 <= Z.quot (S * T) 3 <= S * T).
  { rewrite Z.quot_div_nonneg by nia.
    split; [apply Z.div_pos; nia | apply Z.div_le_upper_bound; nia]. }
  rewrite (i64_small (Z.quot (S * T) 3))
    by (unfold MinInt64, MaxInt64 in *; nia).
  destruct (Z.ltb_spec (T * S) (Z.quot (S * T) 3)); [nia|].
  destruct (Z.gtb_spec (T * S) (S * T * 3)); [nia|].
  destruct (Z.eqb_spec (S * T) 0); [nia|].
  unfold Big.Div.
  destruct (Z.ltb_spec 0 (S * T)); [|nia].
  replace (referenceTarget * (T * S)) with (referenceTarget * (S * T)) by ring.
  rewrite Z.div_mul by lia.
  destruct (Z.gtb_spec referenceTarget (PowLimit p)); [lia | reflexivity].
Qed.

Lemma lwmav2_steady_state_witness :
  (3 <= lwmaBlocks (windowTip 45 150) TestNet4Params /\
   steadyWindow (seconds (TargetTimePerBlock TestNet4Params))
     (Z.to_nat (lwmaBlocks (windowTip 45 150) TestNet4Params))
     (windowTip 45 150) = true /\
   walkBack (Z.to_nat (lwmaBlocks (windowTip 45 150) TestNet4Params))
     (windowTip 45 150) = Some windowStartHeader /\
   CompactToBig (Bits windowStartHeader) <= PowLimit TestNet4Params /\
   1 <= seconds (TargetTimePerBlock TestNet4Params) /\
   3 * seconds (TargetTimePerBlock TestNet4Params)
     * (lwmaBlocks (windowTip 45 150) TestNet4Params
        * (lwmaBlocks (windowTip 45 150) TestNet4Params + 1) / 2)
   <= MaxInt64) /\
  calcNextRequiredDifficultyLWMAv2 (windowTip 45 150) (ctxOf TestNet4Params) =
  Ok (BigToCompact (CompactToBig (Bits windowStartHeader))).
Proof.
  assert (H1 : 3 <= lwmaBlocks (windowTip 45 150) TestNet4Params)
    by (vm_compute; discriminate).
  assert (H2 : steadyWindow (seconds (TargetTimePerBlock TestNet4Params))
                 (Z.to_nat (lwmaBlocks (windowTip 45 150) TestNet4Params))
                 (windowTip 45 150) = true) by (vm_compute; reflexivity).
  assert (H3 : walkBack
                 (Z.to_nat (lwmaBlocks (windowTip 45 150) TestNet4Params))
                 (windowTip 45 150) = Some windowStartHeader)
    by (vm_compute; reflexivity).
  assert (H4 : CompactToBig (Bits windowStartHeader)
               <= PowLimit TestNet4Params) by (vm_compute; discriminate).
  assert (H5 : 1 <= seconds (TargetTimePerBlock TestNet4Params))
    by (vm_compute; discriminate).
  assert (H6 : 3 * seconds (TargetTimePerBlock TestNet4Params)
               * (lwmaBlocks (windowTip 45 150) TestNet4Params
                  * (lwmaBlocks (windowTip 45 150) TestNet4Params + 1) / 2)
               <= MaxInt64) by (vm_compute; discriminate).
  split; [exact (conj H1 (conj H2 (conj H3 (conj H4 (conj H5 H6)))))|].
  exact (lwmav2_steady_state (windowTip 45 150) windowStartHeader
           (ctxOf TestNet4Params) H1 H2 H3 H4 H5 H6).
Defined.

(** Chains built block by block. *)
Lemma extendChain_Height (n : nat) :
  forall tip spacing bits,
    Height (extendChain n tip spacing bits) = Height tip + Z.of_nat n.
Proof.
  induction n as [|n IH]; intros tip spacing bits; cbn [extendChain].
  - lia.
  - rewrite IH. cbn [Height]. lia.
Qed.

Lemma extendChain_walkBack (n : nat) :
  forall m tip spacing bits,
    walkBack (n + m) (extendChain n tip spacing bits) = walkBack m tip.
Proof.
  induction n as [|n IH]; intros m tip spacing bits; cbn [extendChain].
  - reflexivity.
  - replace (S n + m)%nat with (n + S m)%nat by lia.
    rewrite IH. reflexivity.
Qed.

Lemma extendChain_steady (T : Z) (n : nat) :
  MinInt64 <= T <= MaxInt64 ->
  forall m tip bits,
    steadyWindow T m tip = true ->
    steadyWindow T (n + m) (extendChain n tip T bits) = true.
Proof.
  intros HT. induction n as [|n IH]; intros m tip bits Hs; cbn [extendChain].
  - exact Hs.
  - replace (S n + m)%nat with (n + S m)%nat by lia.
    apply IH. cbn [steadyWindow Parent Timestamp].
    apply andb_true_iff. split; [|exact Hs].
    apply Z.eqb_eq. unfold sub64.
    replace (Timestamp tip + T - Timestamp tip) with T by ring.
    apply i64_small. exact HT.
Qed.

Lemma windowTip_facts (n : nat) (T : Z) :
  MinInt64 <= T <= MaxInt64 ->
  Height (windowTip n T) = 200 + Z.of_nat n /\
  steadyWindow T n (windowTip n T) = true /\
  walkBack n (windowTip n T) = Some windowStartHeader.
Proof.
  intros HT. unfold windowTip. split; [|split].
  - rewrite extendChain_Height. reflexivity.
  - replace n with (n + 0)%nat at 1 by lia.
    apply extendChain_steady; [exact HT | reflexivity].
  - replace n with (n + 0)%nat at 1 by lia.
    rewrite extendChain_walkBack. reflexivity.
Qed.

(** Claim C8 as stated fails outside these provisos.  With a block
    spacing below one second ([T = 0]) and all solvetimes 0, the expected
    sum is 0 and the division panics.  With a window of 2 blocks the
    early return gives the bits of [lastNode], not the reference target.
    With a spacing of 9223372036 seconds and a window of 30000 blocks
    three times the expected sum wraps around int64, the upper clamp makes
    the weighted sum negative and the result has the sign bit set. *)
Lemma lwmav2_steady_state_counterexample :
  (let c := ctxOf (lwmaTestParams 0 45) in
   let tip := windowTip 45 0 in
   selectAlgorithm c (Some tip) = LWMAv2 /\
   lwmaBlocks tip (ChainParams c) = LWMAWindow (ChainParams c) /\
   steadyWindow (seconds (TargetTimePerBlock (ChainParams c))) 45 tip = true /\
   walkBack 45 tip = Some windowStartHeader /\
   0 < CompactToBig (Bits windowStartHeader) <= PowLimit (ChainParams c) /\
   calcNextRequiredDifficultyLWMAv2 tip c = Panic DivideByZero) /\
  (let c := ctxOf (lwmaTestParams (150 * Second) 2) in
   let tip := windowTip 2 150 in
   selectAlgorithm c (Some tip) = LWMAv2 /\
   lwmaBlocks tip (ChainParams c) = LWMAWindow (ChainParams c) /\
   steadyWindow (seconds (TargetTimePerBlock (ChainParams c))) 2 tip = true /\
   walkBack 2 tip = Some windowStartHeader /\
   0 < CompactToBig (Bits windowStartHeader) <= PowLimit (ChainParams c) /\
   BigToCompact (CompactToBig (Bits windowStartHeader)) = 0x1d18ffe7 /\
   calcNextRequiredDifficultyLWMAv2 tip c = Ok 0x1c7fffff) /\
  (let c := ctxOf (lwmaTestParams (9223372036 * Second) 30000) in
   let tip := windowTip (Z.to_nat 30000) 9223372036 in
   selectAlgorithm c (Some tip) = LWMAv2 /\
   lwmaBlocks tip (ChainParams c) = LWMAWindow (ChainParams c) /\
   steadyWindow (seconds (TargetTimePerBlock (ChainParams c)))
     (Z.to_nat 30000) tip = true /\
   walkBack (Z.to_nat 30000) tip = Some windowStartHeader /\
   0 < CompactToBig (Bits windowStartHeader) <= PowLimit (ChainParams c) /\
   BigToCompact (CompactToBig (Bits windowStartHeader)) = 0x1d18ffe7 /\
   calcNextRequiredDifficultyLWMAv2 tip c = Ok 0x1da41b5b).
Proof.
  split; [|split].
  - vm_compute. repeat split; (reflexivity || discriminate).
  - vm_compute. repeat split; (reflexivity || discriminate).
  - cbv zeta.
    assert (HT : MinInt64 <= 9223372036 <= MaxInt64)
      by (vm_compute; split; discriminate).
    destruct (windowTip_facts (Z.to_nat 30000) 9223372036 HT)
      as (Hh & Hs & Hw).
    set (tip := windowTip (Z.to_nat 30000) 9223372036) in *.
    clearbody tip.
    set (c := ctxOf (lwmaTestParams (9223372036 * Second) 30000)).
    assert (Hb : lwmaBlocks tip (ChainParams c) = Z.of_nat (Z.to_nat 30000)).
    { unfold lwmaBlocks. rewrite Hh. vm_compute. reflexivity. }
    split; [unfold selectAlgorithm; cbv zeta; rewrite Hh; vm_compute;
            reflexivity|].
    split; [rewrite Hb; vm_compute; reflexivity|].
    split; [exact Hs|].
    split; [exact Hw|].
    split; [vm_compute; split; [reflexivity | discriminate]|].
    split; [vm_compute; reflexivity|].
    rewrite (lwmav2_steady_sums tip windowStartHeader c (Z.to_nat 30000));
      [ | exact Hb | vm_compute; discriminate | exact Hs | exact Hw
        | vm_compute; discriminate | vm_compute; discriminate
        | rewrite sumTo_div; vm_compute; discriminate ].
    rewrite sumTo_div. vm_compute. reflexivity.
Qed.

End SteadyState.

(** ** Scenarios of the specification *)

Section Scenarios.

(** S4: without retargeting the result is [PowLimitBits] whatever the
    inputs. *)
Lemma no_retargeting_PowLimitBits (lastNode : option HeaderCtx)
  (newBlockTime : Z) (c : ChainCtx) :
  PoWNoRetargeting (ChainParams c) = true ->
  calcNextRequiredDifficulty lastNode newBlockTime c =
  Ok (PowLimitBits (ChainParams c)).
Proof.
  intros H. unfold calcNextRequiredDifficulty. rewrite H. reflexivity.
Qed.

(** S5: main network, a tip of height 100 off the retarget boundary. *)
Example legacy_off_boundary :
  calcNextRequiredDifficulty (Some (Header 100 1394340760 0x1d00ffff None))
    1394340910 (ctxOf MainNetParams) = Ok 0x1d00ffff.
Proof. reflexivity. Qed.

(** S7: ASERT exactly on schedule returns the anchor bits re-encoded. *)
Example asert_on_schedule :
  calcNextRequiredDifficulty (Some (anchorTip 150)) 1700000300
    (ctxOf MainNetParams) =
  Ok (BigToCompact (CompactToBig (ASERTAnchorBits MainNetParams))).
Proof. reflexivity. Qed.

(** The samples of the derived quantities are those of the parameters. *)
Example ctxOf_MainNetParams : ctxOf MainNetParams = chainCtxOf MainNetParams.
Proof. reflexivity. Qed.

Example ctxOf_TestNet4Params :
  ctxOf TestNet4Params = chainCtxOf TestNet4Params.
Proof. reflexivity. Qed.

End Scenarios.

(** ** More on the codec *)

Section CodecMore.

(** The fields of a packed compact value. *)
Lemma pack_fields (E M : Z) :
  0 <= E -> 0 <= M < 2 ^ 23 ->
  Z.shiftr (E * 2 ^ 24 + M) 24 = E /\
  Z.land (E * 2 ^ 24 + M) 0x007fffff = M /\
  Z.land (E * 2 ^ 24 + M) 0x00800000 = 0.
Proof.
  intros HE HM. split; [|split].
  - rewrite Z.shiftr_div_pow2 by lia.
    change (2 ^ 23) with 8388608 in *. change (2 ^ 24) with 16777216.
    Z.div_mod_to_equations; lia.
  - change 0x007fffff with (Z.ones 23). rewrite Z.land_ones by lia.
    change (2 ^ 24) with (2 * 2 ^ 23) in *.
    Z.div_mod_to_equations; lia.
  - apply Z.eqb_eq. change 0x00800000 with (2 ^ 23).
    rewrite land_pow2_testbit by lia.
    apply negb_true_iff. apply Z.testbit_false; [lia|].
    change (2 ^ 24) with (2 * 2 ^ 23) in *.
    Z.div_mod_to_equations; lia.
Qed.

(** What [BigToCompact] gives for a positive number below [2^256]: an
    exponent byte between 1 and 33 over a mantissa of 16 to 23 bits, none
    of whose bits decoding drops. *)
Lemma BigToCompact_fields (n : Z) :
  0 < n < 2 ^ 256 ->
  exists E M,
    BigToCompact n = E * 2 ^ 24 + M /\
    1 <= E <= 33 /\ 2 ^ 15 <= M < 2 ^ 23 /\
    (3 <= E \/ M mod 2 ^ (8 * (3 - E)) = 0).
Proof.
  intros Hr. pose proof Hr as [Hn _].
  pose proof (byteLen_le_32 n Hr) as He.
  pose proof (rawMantissa_bounds n Hn) as Hm.
  rewrite BigToCompact_pos by exact Hn.
  assert (Hraw : rawMantissa n =
                 if Big.byteLen n <=? 3
                 then n * 2 ^ (8 * (3 - Big.byteLen n))
                 else n / 2 ^ (8 * (Big.byteLen n - 3))) by reflexivity.
  set (e := Big.byteLen n) in *. set (m := rawMantissa n) in *.
  change (2 ^ 16) with 65536 in Hm. change (2 ^ 24) with 16777216 in Hm.
  destruct (Z.ltb_spec m (2 ^ 23)) as [Hlt | Hge].
  - exists e, m. rewrite (Z.mod_small e) by lia.
    split; [reflexivity|]. split; [lia|].
    split; [change (2 ^ 15) with 32768; lia|].
    destruct (Z_le_gt_dec 3 e) as [|Hlt3]; [left; assumption | right].
    revert Hraw. destruct (Z.leb_spec e 3); [|lia]. intros ->.
    apply Z.mod_mul. apply Z.pow_nonzero; lia.
  - exists (e + 1), (m / 256). rewrite (Z.mod_small (e + 1)) by lia.
    change (2 ^ 23) with 8388608 in *.
    split; [reflexivity|]. split; [lia|].
    split; [change (2 ^ 15) with 32768; Z.div_mod_to_equations; lia|].
    destruct (Z_le_gt_dec 3 (e + 1)) as [|Hlt3]; [left; assumption | right].
    assert (e = 1) by lia. subst e.
    replace (Big.byteLen n) with 1 in * by lia.
    revert Hraw. eval_leb. eval_pow2. intros Hraw.
    Z.div_mod_to_equations; lia.
Qed.

(** The encoder only produces normalised values: for every positive
    [n < 2^256] the result fits 32 bits, has the sign bit clear, a mantissa
    of at least [0x008000], is [normalized], and is a fixed point of
    decoding and encoding again. *)
Theorem BigToCompact_normal_form (n : Z) :
  0 < n < 2 ^ 256 ->
  0 <= BigToCompact n < 2 ^ 32 /\
  Z.land (BigToCompact n) 0x00800000 = 0 /\
  0x008000 <= Z.land (BigToCompact n) 0x007fffff /\
  normalized (BigToCompact n) = true /\
  BigToCompact (CompactToBig (BigToCompact n)) = BigToCompact n.
Proof.
  intros Hr.
  destruct (BigToCompact_fields n Hr) as (E & M & -> & HE & HM & Hlow).
  destruct (pack_fields E M ltac:(lia) ltac:(lia)) as (Hexp & Hmant & Hsign).
  assert (H15 : 2 ^ 15 <= M) by lia.
  split; [|split; [|split; [|split]]].
  - change (2 ^ 23) with 8388608 in *. change (2 ^ 24) with 16777216.
    change (2 ^ 32) with 4294967296. lia.
  - exact Hsign.
  - rewrite Hmant. change 0x008000 with (2 ^ 15). exact H15.
  - unfold normalized. rewrite Hsign, Hmant, Hexp.
    change (0 =? 0) with true. change 0x008000 with (2 ^ 15).
    apply andb_true_iff. split; [apply Z.leb_le; exact H15|].
    apply orb_true_iff. destruct Hlow as [H3 | H0].
    + left. apply Z.leb_le. exact H3.
    + right. apply Z.eqb_eq. exact H0.
  - apply encode_decode_fields; [lia | lia | exact Hlow].
Qed.

Lemma BigToCompact_normal_form_witness :
  0 < mainPowLimit < 2 ^ 256 /\
  0 <= BigToCompact mainPowLimit < 2 ^ 32 /\
  Z.land (BigToCompact mainPowLimit) 0x00800000 = 0 /\
  0x008000 <= Z.land (BigToCompact mainPowLimit) 0x007fffff /\
  normalized (BigToCompact mainPowLimit) = true /\
  BigToCompact (CompactToBig (BigToCompact mainPowLimit))
  = BigToCompact mainPowLimit.
Proof.
  assert (H : 0 < mainPowLimit < 2 ^ 256)
    by (vm_compute; split; reflexivity).
  split; [exact H|]. exact (BigToCompact_normal_form mainPowLimit H).
Defined.

(** The encoder as arithmetic: the exponent byte [E] under which the
    scaled number has 16 to 23 bits, and that scaled number. *)
Lemma BigToCompact_scaled (n : Z) :
  0 < n < 2 ^ 256 ->
  exists E,
    1 <= E <= 33 /\
    BigToCompact n = E * 2 ^ 24 + scaledMantissa n E /\
    2 ^ 15 <= scaledMantissa n E < 2 ^ 23.
Proof.
  intros Hr. pose proof Hr as [Hn _].
  pose proof (byteLen_le_32 n Hr) as He.
  pose proof (rawMantissa_bounds n Hn) as Hm.
  rewrite BigToCompact_pos by exact Hn.
  assert (Hraw : rawMantissa n =
                 if Big.byteLen n <=? 3
                 then n * 2 ^ (8 * (3 - Big.byteLen n))
                 else n / 2 ^ (8 * (Big.byteLen n - 3))) by reflexivity.
  set (e := Big.byteLen n) in *. set (m := rawMantissa n) in *.
  change (2 ^ 16) with 65536 in Hm. change (2 ^ 24) with 16777216 in Hm.
  unfold scaledMantissa.
  destruct (Z.ltb_spec m (2 ^ 23)) as [Hlt | Hge];
    change (2 ^ 23) with 8388608 in *; change (2 ^ 15) with 32768.
  - exists e. rewrite (Z.mod_small e) by lia. split; [lia|].
    assert (Hs : (if 3 <=? e then n / 2 ^ (8 * (e - 3))
                  else n * 2 ^ (8 * (3 - e))) = m).
    { rewrite Hraw.
      destruct (Z.leb_spec 3 e), (Z.leb_spec e 3); try lia; try reflexivity.
      assert (e = 3) by lia. subst e.
      replace (Big.byteLen n) with 3 by lia. eval_pow2.
      rewrite Z.div_1_r. lia. }
    rewrite Hs. split; [reflexivity | lia].
  - exists (e + 1). rewrite (Z.mod_small (e + 1)) by lia. split; [lia|].
    assert (Hs : (if 3 <=? e + 1 then n / 2 ^ (8 * (e + 1 - 3))
                  else n * 2 ^ (8 * (3 - (e + 1)))) = m / 256).
    { rewrite Hraw.
      destruct (Z.leb_spec e 3) as [Hle3 | Hgt3].
      - assert (Hc : e = 1 \/ e = 2 \/ e = 3) by lia.
        destruct Hc as [Hc | [Hc | Hc]]; rewrite Hc; eval_leb; eval_pow2.
        + replace (n * 65536) with (n * 256 * 256) by ring.
          rewrite Z.div_mul by lia. reflexivity.
        + rewrite Z.div_mul by lia. apply Z.div_1_r.
        + rewrite Z.mul_1_r. reflexivity.
      - destruct (Z.leb_spec 3 (e + 1)); [|lia].
        replace (8 * (e + 1 - 3)) with (8 * (e - 3) + 8) by lia.
        rewrite pow2_split by lia. change (2 ^ 8) with 256.
        rewrite Z.div_div;
          [reflexivity | apply Z.pow_nonzero; lia | lia]. }
    rewrite Hs. split; [reflexivity|]. Z.div_mod_to_equations; lia.
Qed.

(** The exponent byte confines the number to one octave of bytes. *)
Lemma scaledMantissa_range (n E : Z) :
  1 <= E -> 0 < n ->
  2 ^ 15 <= scaledMantissa n E < 2 ^ 23 ->
  2 ^ (8 * E - 9) <= n < 2 ^ (8 * E - 1).
Proof.
  intros HE Hn. unfold scaledMantissa.
  destruct (Z.leb_spec 3 E) as [H3 | H3]; intros [Hlo Hhi].
  - set (P := 2 ^ (8 * (E - 3))) in *.
    assert (HP : 0 < P) by (apply pow2_pos; lia).
    replace (8 * E - 9) with (8 * (E - 3) + 15) by lia.
    replace (8 * E - 1) with (8 * (E - 3) + 23) by lia.
    rewrite !pow2_split by lia. fold P.
    pose proof (Z.div_mod n P ltac:(lia)) as Hdm.
    pose proof (Z.mod_pos_bound n P HP) as Hrb.
    change (2 ^ 15) with 32768 in *. change (2 ^ 23) with 8388608 in *.
    nia.
  - assert (Hc : E = 1 \/ E = 2) by lia.
    destruct Hc as [-> | ->]; revert Hlo Hhi; eval_pow2;
      change (2 ^ (8 * 1 - 9)) with 0; lia.
Qed.

(** Encoding preserves the order of targets: for
    [0 <= n <= m < 2^256], [BigToCompact n <= BigToCompact m] as 32-bit
    numbers. *)
Theorem BigToCompact_monotone (n m : Z) :
  0 <= n <= m -> m < 2 ^ 256 ->
  BigToCompact n <= BigToCompact m.
Proof.
  intros [Hn Hnm] Hm.
  destruct (Z.eq_dec n 0) as [-> | Hnz].
  - change (BigToCompact 0) with 0.
    destruct (Z.eq_dec m 0) as [-> | Hmz]; [reflexivity|].
    destruct (BigToCompact_scaled m ltac:(lia)) as (E & HE & -> & HM).
    change (2 ^ 15) with 32768 in HM. change (2 ^ 24) with 16777216. lia.
  - destruct (BigToCompact_scaled n ltac:(lia)) as (En & HEn & -> & HMn).
    destruct (BigToCompact_scaled m ltac:(lia)) as (Em & HEm & -> & HMm).
    pose proof (scaledMantissa_range n En ltac:(lia) ltac:(lia) HMn) as Rn.
    pose proof (scaledMantissa_range m Em ltac:(lia) ltac:(lia) HMm) as Rm.
    assert (HE : En <= Em).
    { destruct (Z_le_gt_dec En Em) as [|Hgt]; [assumption|].
      exfalso.
      assert (2 ^ (8 * Em - 1) <= 2 ^ (8 * En - 9)) by (apply pow2_le; lia).
      lia. }
    change (2 ^ 15) with 32768 in *. change (2 ^ 23) with 8388608 in *.
    change (2 ^ 24) with 16777216.
    destruct (Z.eq_dec En Em) as [-> | Hne]; [|nia].
    assert (scaledMantissa n Em <= scaledMantissa m Em); [|lia].
    unfold scaledMantissa. destruct (Z.leb_spec 3 Em).
    + apply Z.div_le_mono; [apply pow2_pos; lia | exact Hnm].
    + apply Z.mul_le_mono_nonneg_r;
        [apply Z.lt_le_incl, pow2_pos; lia | exact Hnm].
Qed.

Lemma BigToCompact_monotone_witness :
  (0 <= CompactToBig 0x1d18ffe7 <= mainPowLimit /\ mainPowLimit < 2 ^ 256) /\
  BigToCompact (CompactToBig 0x1d18ffe7) <= BigToCompact mainPowLimit.
Proof.
  assert (H1 : 0 <= CompactToBig 0x1d18ffe7 <= mainPowLimit)
    by (vm_compute; split; discriminate).
  assert (H2 : mainPowLimit < 2 ^ 256) by (vm_compute; reflexivity).
  split; [exact (conj H1 H2)|].
  exact (BigToCompact_monotone (CompactToBig 0x1d18ffe7) mainPowLimit H1 H2).
Defined.

(** Numbers below [2^23] are encoded without loss. *)
Theorem decode_encode_exact_small (n : Z) :
  0 <= n < 2 ^ 23 -> CompactToBig (BigToCompact n) = n.
Proof.
  intros [Hn Hlt].
  destruct (Z.eq_dec n 0) as [-> | Hnz]; [reflexivity|].
  assert (Hr : 0 < n < 2 ^ 256).
  { split; [lia|]. apply Z.lt_le_trans with (2 ^ 23); [lia|].
    apply pow2_le; lia. }
  destruct (BigToCompact_scaled n Hr) as (E & HE & -> & HM).
  pose proof (scaledMantissa_range n E ltac:(lia) ltac:(lia) HM) as Rn.
  assert (HE3 : E <= 3).
  { assert (8 * E - 9 < 23) by (apply (Z.pow_lt_mono_r_iff 2); lia). lia. }
  rewrite CompactToBig_pack by lia.
  destruct (Z.leb_spec E 3); [|lia].
  unfold scaledMantissa.
  destruct (Z.leb_spec 3 E).
  - assert (E = 3) by lia. subst E. eval_pow2. rewrite !Z.div_1_r.
    reflexivity.
  - apply Z.div_mul. apply Z.pow_nonzero; lia.
Qed.

Lemma decode_encode_exact_small_witness :
  0 <= 0x7fffff < 2 ^ 23 /\ CompactToBig (BigToCompact 0x7fffff) = 0x7fffff.
Proof.
  assert (H : 0 <= 0x7fffff < 2 ^ 23)
    by (vm_compute; split; [discriminate | reflexivity]).
  split; [exact H|]. exact (decode_encode_exact_small 0x7fffff H).
Defined.

(** Setting the sign bit of a compact value negates the decoded number. *)
Theorem CompactToBig_sign_bit (x : Z) :
  Z.land x 0x00800000 = 0 ->
  CompactToBig (Z.lor x 0x00800000) = - CompactToBig x.
Proof.
  intros Hs. unfold CompactToBig.
  rewrite !Z.land_lor_distr_l, Z.shiftr_lor, Hs.
  change (Z.land 0x00800000 0x007fffff) with 0.
  change (Z.land 0x00800000 0x00800000) with 0x00800000.
  change (Z.shiftr 0x00800000 24) with 0.
  rewrite !Z.lor_0_r, Z.lor_0_l.
  reflexivity.
Qed.

Lemma CompactToBig_sign_bit_witness :
  Z.land 0x1d00ffff 0x00800000 = 0 /\
  CompactToBig (Z.lor 0x1d00ffff 0x00800000) = - CompactToBig 0x1d00ffff.
Proof.
  assert (H : Z.land 0x1d00ffff 0x00800000 = 0) by reflexivity.
  split; [exact H|]. exact (CompactToBig_sign_bit 0x1d00ffff H).
Defined.

(** The decoded number is negative only under a set sign bit. *)
Lemma CompactToBig_sign (x : Z) :
  if Z.land x 0x00800000 =? 0
  then 0 <= CompactToBig x else CompactToBig x <= 0.
Proof.
  unfold CompactToBig.
  assert (Hm : 0 <= Z.land x 0x007fffff) by (apply Z.land_nonneg; right; lia).
  assert (Hb : 0 <= (if Z.shiftr x 24 <=? 3
                     then Z.shiftr (Z.land x 0x007fffff)
                            (8 * (3 - Z.shiftr x 24))
                     else Z.shiftl (Z.land x 0x007fffff)
                            (8 * (Z.shiftr x 24 - 3)))).
  { destruct (Z.shiftr x 24 <=? 3);
      [apply Z.shiftr_nonneg | apply Z.shiftl_nonneg]; exact Hm. }
  destruct (Z.land x 0x00800000 =? 0); cbn [negb]; cbv iota; lia.
Qed.

End CodecMore.

(** ** Work *)

Section Work.

Lemma CalcWork_pos (bits : Z) :
  0 < CompactToBig bits ->
  CalcWork bits = 2 ^ 256 / (CompactToBig bits + 1).
Proof.
  intros Hd. unfold CalcWork, Big.Div, bigOne, oneLsh256.
  destruct (Z.leb_spec (CompactToBig bits) 0); [lia|].
  destruct (Z.ltb_spec 0 (CompactToBig bits + 1)); [|lia].
  rewrite Z.shiftl_mul_pow2 by lia. rewrite Z.mul_1_l. reflexivity.
Qed.

Lemma CalcWork_nonpos (bits : Z) :
  CompactToBig bits <= 0 -> CalcWork bits = 0.
Proof.
  intros Hd. unfold CalcWork.
  destruct (Z.leb_spec (CompactToBig bits) 0); [reflexivity | lia].
Qed.

(** An easier (larger) positive target never carries more work. *)
Theorem CalcWork_antitone (bits1 bits2 : Z) :
  0 < CompactToBig bits1 <= CompactToBig bits2 ->
  CalcWork bits2 <= CalcWork bits1.
Proof.
  intros [H1 H12].
  rewrite !CalcWork_pos by lia.
  apply Z.div_le_compat_l; [apply Z.lt_le_incl, pow2_pos; lia | lia].
Qed.

Lemma CalcWork_antitone_witness :
  0 < CompactToBig 0x1d00ffff <= CompactToBig 0x1e0ffff0 /\
  CalcWork 0x1e0ffff0 <= CalcWork 0x1d00ffff.
Proof.
  assert (H : 0 < CompactToBig 0x1d00ffff <= CompactToBig 0x1e0ffff0)
    by (vm_compute; split; [reflexivity | discriminate]).
  split; [exact H|]. exact (CalcWork_antitone 0x1d00ffff 0x1e0ffff0 H).
Defined.

(** Work lies between 0 and [2^255] and is positive exactly for a
    positive target below [2^256]. *)
Theorem CalcWork_range (bits : Z) :
  0 <= CalcWork bits <= 2 ^ 255 /\
  (0 < CalcWork bits <-> 0 < CompactToBig bits < 2 ^ 256).
Proof.
  destruct (Z_le_gt_dec (CompactToBig bits) 0) as [Hle | Hgt].
  - rewrite CalcWork_nonpos by exact Hle.
    split; [split; [lia | apply Z.lt_le_incl, pow2_pos; lia]|].
    split; lia.
  - rewrite CalcWork_pos by lia.
    set (d := CompactToBig bits) in *.
    assert (Hp : 0 < 2 ^ 256) by (apply pow2_pos; lia).
    split; [split|].
    + apply Z.div_pos; lia.
    + change (2 ^ 256) with (2 ^ 255 * 2).
      apply Z.div_le_upper_bound; [lia|].
      assert (0 < 2 ^ 255) by (apply pow2_pos; lia). nia.
    + split.
      * intros Hw. split; [lia|].
        destruct (Z_lt_le_dec d (2 ^ 256)) as [|Hbig]; [assumption|].
        rewrite Z.div_small in Hw by lia. lia.
      * intros [_ Hlt]. apply Z.div_str_pos. lia.
Qed.

End Work.

(** ** Hashes as numbers *)

Section Hashes.

Lemma byteVal_range (b : byte) : 0 <= byteVal b < 256.
Proof.
  unfold byteVal. pose proof (Byte.to_N_bounded b). lia.
Qed.

Lemma byteVal_inj (a b : byte) : byteVal a = byteVal b -> a = b.
Proof.
  unfold byteVal. intros H. apply N2Z.inj in H.
  pose proof (Byte.of_to_N a) as Ha. pose proof (Byte.of_to_N b) as Hb.
  rewrite H in Ha. congruence.
Qed.

Lemma length_setByte (buf : list byte) :
  forall i b, List.length (setByte buf i b) = List.length buf.
Proof.
  induction buf as [|x rest IH]; intros [|i] b; simpl; auto.
Qed.

Lemma nth_setByte (buf : list byte) :
  forall i j b d,
    (i < List.length buf)%nat ->
    nth j (setByte buf i b) d = if Nat.eqb j i then b else nth j buf d.
Proof.
  induction buf as [|x rest IH]; intros [|i] [|j] b d Hi; simpl in *;
    try lia; try reflexivity.
  apply IH. lia.
Qed.

Lemma length_swapBytes (buf : list byte) (i j : nat) :
  List.length (swapBytes buf i j) = List.length buf.
Proof. unfold swapBytes. rewrite !length_setByte. reflexivity. Qed.

Lemma nth_swapBytes (buf : list byte) (i j k : nat) (d : byte) :
  (i < List.length buf)%nat -> (j < List.length buf)%nat ->
  nth k (swapBytes buf i j) d =
  if Nat.eqb k j then nth i buf d
  else if Nat.eqb k i then nth j buf d else nth k buf d.
Proof.
  intros Hi Hj. unfold swapBytes.
  rewrite nth_setByte by (rewrite length_setByte; exact Hj).
  rewrite nth_setByte by exact Hi.
  rewrite (nth_indep buf x00 d Hi), (nth_indep buf x00 d Hj).
  reflexivity.
Qed.

Lemma reverseLoop_reversedTo (orig : list byte) (count : nat) :
  forall i buf,
    (2 * (i + count) <= List.length orig)%nat ->
    reversedTo orig buf i ->
    reversedTo orig (reverseLoop count i buf) (i + count).
Proof.
  induction count as [|count IH]; intros i buf Hc Hinv.
  - rewrite Nat.add_0_r. exact Hinv.
  - cbn [reverseLoop]. replace (i + S count)%nat with (S i + count)%nat by lia.
    apply IH; [lia|].
    destruct Hinv as [Hlen Hnth]. rewrite Hlen.
    split; [rewrite length_swapBytes; exact Hlen|].
    intros k Hk.
    rewrite nth_swapBytes by lia.
    destruct (Nat.eqb_spec k (List.length orig - 1 - i)) as [-> | Hk1].
    + rewrite Hnth by lia.
      destruct (Nat.ltb_spec i i); [lia|].
      destruct (Nat.leb_spec (List.length orig - i) i); [lia|]. cbn [orb].
      destruct (Nat.ltb_spec (List.length orig - 1 - i) (S i)); [lia|].
      destruct (Nat.leb_spec (List.length orig - S i) (List.length orig - 1 - i));
        [|lia].
      cbn [orb]. f_equal. lia.
    + destruct (Nat.eqb_spec k i) as [-> | Hk2].
      * rewrite Hnth by lia.
        destruct (Nat.ltb_spec (List.length orig - 1 - i) i); [lia|].
        destruct (Nat.leb_spec (List.length orig - i) (List.length orig - 1 - i));
          [lia|].
        cbn [orb].
        destruct (Nat.ltb_spec i (S i)); [|lia]. reflexivity.
      * rewrite Hnth by lia.
        destruct (Nat.ltb_spec k i), (Nat.ltb_spec k (S i)),
          (Nat.leb_spec (List.length orig - i) k),
          (Nat.leb_spec (List.length orig - S i) k); try lia; reflexivity.
Qed.

(** The loop of [HashToBig] reverses the array. *)
Lemma reverseLoop_rev (buf : list byte) :
  reverseLoop (List.length buf / 2)%nat 0 buf = rev buf.
Proof.
  assert (Hhalf : (2 * (List.length buf / 2) <= List.length buf)%nat).
  { pose proof (Nat.div_mod_eq (List.length buf) 2). lia. }
  assert (Hodd : (List.length buf - 2 * (List.length buf / 2) <= 1)%nat).
  { pose proof (Nat.div_mod_eq (List.length buf) 2).
    pose proof (Nat.mod_upper_bound (List.length buf) 2). lia. }
  destruct (reverseLoop_reversedTo buf (List.length buf / 2)%nat 0 buf) as [Hlen Hnth].
  - lia.
  - split; [reflexivity|]. intros k Hk.
    destruct (Nat.leb_spec (List.length buf - 0) k); [lia|]. reflexivity.
  - apply (nth_ext _ _ x00 x00); [rewrite length_rev; exact Hlen|].
    intros k Hk. rewrite Hlen in Hk. cbn [Nat.add] in Hnth.
    rewrite Hnth by exact Hk.
    rewrite rev_nth by exact Hk.
    replace (List.length buf - S k)%nat with (List.length buf - 1 - k)%nat by lia.
    destruct (Nat.ltb_spec k (List.length buf / 2)%nat),
      (Nat.leb_spec (List.length buf - List.length buf / 2)%nat k);
      cbn [orb]; try reflexivity.
    f_equal. lia.
Qed.

Lemma SetBytes_rev (bytes : list byte) :
  SetBytes (rev bytes) = littleEndian bytes.
Proof.
  unfold SetBytes. induction bytes as [|b rest IH]; [reflexivity|].
  cbn [rev littleEndian]. rewrite fold_left_app. cbn [fold_left].
  rewrite IH. ring.
Qed.

Lemma littleEndian_range (bytes : list byte) :
  0 <= littleEndian bytes < 2 ^ (8 * Z.of_nat (List.length bytes)).
Proof.
  induction bytes as [|b rest IH]; [simpl; lia|].
  cbn [littleEndian List.length].
  replace (8 * Z.of_nat (S (List.length rest)))
    with (8 + 8 * Z.of_nat (List.length rest)) by lia.
  rewrite pow2_split by lia. change (2 ^ 8) with 256.
  pose proof (byteVal_range b). lia.
Qed.

Lemma littleEndian_inj (a : list byte) :
  forall b, List.length a = List.length b ->
            littleEndian a = littleEndian b -> a = b.
Proof.
  induction a as [|x a IH]; intros [|y b] Hlen Heq; simpl in Hlen;
    try discriminate; [reflexivity|].
  cbn [littleEndian] in Heq.
  pose proof (byteVal_range x). pose proof (byteVal_range y).
  assert (Hxy : byteVal x = byteVal y) by lia.
  f_equal; [apply byteVal_inj; exact Hxy|].
  apply IH; [lia | lia].
Qed.

(** [HashToBig] reads the hash as a little-endian number: byte [i]
    weighs [256^i]; the number is below [2^(8 * len)], that is below
    [2^256] for the 32 bytes of a hash. *)
Theorem HashToBig_little_endian (hash : list byte) :
  HashToBig hash = littleEndian hash /\
  0 <= HashToBig hash < 2 ^ (8 * Z.of_nat (List.length hash)).
Proof.
  assert (H : HashToBig hash = littleEndian hash).
  { unfold HashToBig. cbv zeta. rewrite reverseLoop_rev. apply SetBytes_rev. }
  split; [exact H|]. rewrite H. apply littleEndian_range.
Qed.

(** Two hashes of the same length with the same number are the same
    hash. *)
Theorem HashToBig_injective (h1 h2 : list byte) :
  List.length h1 = List.length h2 -> HashToBig h1 = HashToBig h2 -> h1 = h2.
Proof.
  intros Hlen Heq. unfold HashToBig in Heq. cbv zeta in Heq.
  rewrite !reverseLoop_rev, !SetBytes_rev in Heq.
  apply littleEndian_inj; assumption.
Qed.

Lemma HashToBig_injective_witness :
  (List.length [x01; x02; x03; x04] = List.length [x01; x02; x03; x04] /\
   HashToBig [x01; x02; x03; x04] = HashToBig [x01; x02; x03; x04]) /\
  [x01; x02; x03; x04] = [x01; x02; x03; x04].
Proof.
  assert (H1 : List.length [x01; x02; x03; x04] = List.length [x01; x02; x03; x04])
    by reflexivity.
  assert (H2 : HashToBig [x01; x02; x03; x04] = HashToBig [x01; x02; x03; x04])
    by reflexivity.
  split; [exact (conj H1 H2)|].
  exact (HashToBig_injective _ _ H1 H2).
Defined.

Example HashToBig_bytes : HashToBig [x01; x02; x03; x04] = 0x04030201.
Proof. reflexivity. Qed.

End Hashes.

(** ** The fixed-point arithmetic of ASERT *)

Section AsertArith.

Lemma i32_small (z : Z) : MinInt32 <= z <= MaxInt32 -> i32 z = z.
Proof.
  unfold i32, wraps, MinInt32, MaxInt32. intros H.
  change (2 ^ (32 - 1)) with 2147483648 in *.
  change (2 ^ 31) with 2147483648 in *.
  change (2 ^ 32) with 4294967296.
  rewrite Z.mod_small by lia. lia.
Qed.

Lemma wrapu_small (w z : Z) : 0 <= z < 2 ^ w -> wrapu w z = z.
Proof. intros H. unfold wrapu. apply Z.mod_small. exact H. Qed.

Lemma asertSplit_floor (exponent : Z) :
  - 2 ^ 47 <= exponent < 2 ^ 47 ->
  let '(shifts, frac) := asertSplit exponent in
  0 <= frac < 65536 /\
  exponent = shifts * 65536 + frac /\
  shifts = exponent / 65536 /\ frac = exponent mod 65536.
Proof.
  intros Hr. change (2 ^ 47) with 140737488355328 in Hr.
  assert (Hsplit : forall s f, 0 <= f < 65536 -> exponent = s * 65536 + f ->
            0 <= f < 65536 /\ exponent = s * 65536 + f /\
            s = exponent / 65536 /\ f = exponent mod 65536).
  { intros s f Hf He. repeat split; try lia.
    - apply (Z.div_unique exponent 65536 s f); lia.
    - apply (Z.mod_unique exponent 65536 s f); lia. }
  unfold asertSplit.
  destruct (Z.geb_spec exponent 0) as [Hpos | Hneg].
  - rewrite Z.shiftr_div_pow2 by lia.
    change 0xFFFF with (Z.ones 16). rewrite Z.land_ones by lia.
    change (2 ^ 16) with 65536.
    rewrite i32_small
      by (unfold MinInt32, MaxInt32; change (2 ^ 31) with 2147483648;
          Z.div_mod_to_equations; lia).
    unfold u16. rewrite wrapu_small
      by (change (2 ^ 16) with 65536; Z.div_mod_to_equations; lia).
    apply Hsplit; Z.div_mod_to_equations; lia.
  - unfold neg64.
    rewrite i64_small
      by (unfold MinInt64, MaxInt64; change (2 ^ 63) with 9223372036854775808;
          lia).
    rewrite Z.shiftr_div_pow2 by lia.
    change 0xFFFF with (Z.ones 16). rewrite Z.land_ones by lia.
    change (2 ^ 16) with 65536.
    set (q := - exponent / 65536). set (r := (- exponent) mod 65536).
    assert (Hqr : - exponent = 65536 * q + r /\ 0 <= r < 65536).
    { unfold q, r. split; [apply Z.div_mod; lia|].
      apply Z.mod_pos_bound. lia. }
    destruct Hqr as [Hqr Hrb].
    assert (Hq : 0 <= q <= 2147483648) by lia.
    unfold u32. rewrite !(wrapu_small 32 r)
      by (change (2 ^ 32) with 4294967296; lia).
    destruct (Z.eqb_spec r 0) as [Hr0 | Hr0]; cbn [negb].
    + (* no remainder *)
      destruct (Z.eq_dec q 2147483648) as [Hq31 | Hq31].
      * rewrite Hq31. change (neg32 (i32 2147483648)) with (-2147483648).
        apply Hsplit; lia.
      * rewrite i32_small
          by (unfold MinInt32, MaxInt32; change (2 ^ 31) with 2147483648; lia).
        unfold neg32. rewrite i32_small
          by (unfold MinInt32, MaxInt32; change (2 ^ 31) with 2147483648; lia).
        apply Hsplit; lia.
    + assert (Hq31 : q < 2147483648) by lia.
      rewrite i32_small
        by (unfold MinInt32, MaxInt32; change (2 ^ 31) with 2147483648; lia).
      unfold neg32. rewrite i32_small
        by (unfold MinInt32, MaxInt32; change (2 ^ 31) with 2147483648; lia).
      unfold sub32. rewrite i32_small
        by (unfold MinInt32, MaxInt32; change (2 ^ 31) with 2147483648; lia).
      unfold u16. rewrite (wrapu_small 32)
        by (change (2 ^ 32) with 4294967296; lia).
      rewrite wrapu_small by (change (2 ^ 16) with 65536; lia).
      apply Hsplit; lia.
Qed.

(** The exponent is split into its floor and its fraction: for every
    fixed-point exponent whose integer part fits 32 bits the shifts and
    the fraction add up to the exponent, and the fraction is a proper
    one, also for negative exponents. *)
Theorem asertSplit_exact (exponent : Z) :
  - 2 ^ 47 <= exponent < 2 ^ 47 ->
  let '(shifts, frac) := asertSplit exponent in
  0 <= frac < 65536 /\
  exponent = shifts * 65536 + frac /\
  shifts = exponent / 65536 /\ frac = exponent mod 65536.
Proof. exact (asertSplit_floor exponent). Qed.

Lemma asertSplit_exact_witness :
  - 2 ^ 47 <= -98305 < 2 ^ 47 /\
  (let '(shifts, frac) := asertSplit (-98305) in
   0 <= frac < 65536 /\
   -98305 = shifts * 65536 + frac /\
   shifts = -98305 / 65536 /\ frac = (-98305) mod 65536).
Proof.
  assert (H : - 2 ^ 47 <= -98305 < 2 ^ 47)
    by (vm_compute; split; [discriminate | reflexivity]).
  split; [exact H|]. exact (asertSplit_exact (-98305) H).
Defined.

(** The cubic polynomial of the factor. *)
Lemma asert_poly_bound (f : Z) :
  0 <= f < 65536 ->
  0 <= 195766423245049 * f + 971821376 * f * f + 5127 * f * f * f
       + Z.shiftl 1 47 < 2 ^ 64.
Proof.
  intros Hf. change (Z.shiftl 1 47) with 140737488355328.
  change (2 ^ 64) with 18446744073709551616.
  assert (H2 : 0 <= f * f <= 65535 * 65535) by nia.
  assert (H3 : 0 <= f * f * f <= 65535 * 65535 * 65535) by nia.
  lia.
Qed.

Lemma asertFactor_value (frac : Z) :
  0 <= frac < 65536 ->
  asertFactor frac =
  65536 + (195766423245049 * frac + 971821376 * frac * frac
           + 5127 * frac * frac * frac + 2 ^ 47) / 2 ^ 48
  /\ 65536 <= asertFactor frac <= 131071.
Proof.
  intros Hf.
  pose proof (asert_poly_bound frac Hf) as HP.
  assert (Heq : asertFactor frac =
    65536 + (195766423245049 * frac + 971821376 * frac * frac
             + 5127 * frac * frac * frac + 2 ^ 47) / 2 ^ 48).
  { unfold asertFactor.
    destruct (Z.gtb_spec frac 0) as [Hpos | Hz].
    - assert (Hu : u64 frac = frac).
      { apply wrapu_small. change (2 ^ 64) with 18446744073709551616. lia. }
      cbv zeta. rewrite !Hu.
      unfold u64. rewrite wrapu_small by exact HP.
      rewrite Z.shiftr_div_pow2 by lia.
      change (Z.shiftl 1 47) with (2 ^ 47) in *.
      set (P := 195766423245049 * frac + 971821376 * frac * frac
                + 5127 * frac * frac * frac + 2 ^ 47) in *.
      assert (Hq : 0 <= P / 2 ^ 48 < 65536).
      { change (2 ^ 64) with (2 ^ 48 * 65536) in HP.
        split; [apply Z.div_pos; lia | apply Z.div_lt_upper_bound; lia]. }
      unfold u32. rewrite (wrapu_small 32 (P / 2 ^ 48))
        by (change (2 ^ 32) with 4294967296; lia).
      apply wrapu_small. change (2 ^ 32) with 4294967296. lia.
    - assert (frac = 0) by lia. subst frac. reflexivity. }
  split; [exact Heq|]. rewrite Heq.
  change (Z.shiftl 1 47) with (2 ^ 47) in HP.
  set (P := 195766423245049 * frac + 971821376 * frac * frac
            + 5127 * frac * frac * frac + 2 ^ 47) in *.
  change (2 ^ 64) with (2 ^ 48 * 65536) in HP.
  assert (0 <= P / 2 ^ 48 < 65536).
  { split; [apply Z.div_pos; lia | apply Z.div_lt_upper_bound; lia]. }
  lia.
Qed.

(** The factor is computed without overflow and stays in [1.0, 2.0):
    for every fraction below 65536 the polynomial fits uint64 and the
    factor lies between 65536 and 131071. *)
Theorem asertFactor_range (frac : Z) :
  0 <= frac < 65536 ->
  asertFactor frac =
  65536 + (195766423245049 * frac + 971821376 * frac * frac
           + 5127 * frac * frac * frac + 2 ^ 47) / 2 ^ 48
  /\ 65536 <= asertFactor frac <= 131071.
Proof. exact (asertFactor_value frac). Qed.

Lemma asertFactor_range_witness :
  0 <= 32768 < 65536 /\
  asertFactor 32768 =
  65536 + (195766423245049 * 32768 + 971821376 * 32768 * 32768
           + 5127 * 32768 * 32768 * 32768 + 2 ^ 47) / 2 ^ 48
  /\ 65536 <= asertFactor 32768 <= 131071.
Proof.
  assert (H : 0 <= 32768 < 65536)
    by (vm_compute; split; [discriminate | reflexivity]).
  split; [exact H|]. exact (asertFactor_range 32768 H).
Defined.

(** A larger fraction never gives a smaller factor. *)
Theorem asertFactor_monotone (f1 f2 : Z) :
  0 <= f1 <= f2 -> f2 < 65536 ->
  asertFactor f1 <= asertFactor f2.
Proof.
  intros [H1 H12] H2.
  destruct (asertFactor_value f1 ltac:(lia)) as [-> _].
  destruct (asertFactor_value f2 ltac:(lia)) as [-> _].
  apply Z.add_le_mono_l. apply Z.div_le_mono; [reflexivity|].
  assert (f1 * f1 <= f2 * f2) by nia.
  assert (f1 * f1 * f1 <= f2 * f2 * f2) by nia.
  lia.
Qed.

Lemma asertFactor_monotone_witness :
  (0 <= 1 <= 65535 /\ 65535 < 65536) /\
  asertFactor 1 <= asertFactor 65535.
Proof.
  assert (H1 : 0 <= 1 <= 65535) by (vm_compute; split; discriminate).
  assert (H2 : 65535 < 65536) by reflexivity.
  split; [exact (conj H1 H2)|]. exact (asertFactor_monotone 1 65535 H1 H2).
Defined.

Lemma asertFactor_nonneg (frac : Z) : 0 <= asertFactor frac.
Proof.
  unfold asertFactor. destruct (frac >? 0); [|lia].
  unfold u32 at 1, wrapu. apply Z.mod_pos_bound. reflexivity.
Qed.

End AsertArith.

(** ** What ASERT returns *)

Section AsertResult.

(** Encoding and decoding a positive target below [2^256] gives a
    positive target that is not larger. *)
Lemma decode_encode_pos (n : Z) :
  0 < n < 2 ^ 256 -> 0 < CompactToBig (BigToCompact n) <= n.
Proof.
  intros Hr.
  destruct (BigToCompact_scaled n Hr) as (E & HE & -> & HM).
  rewrite CompactToBig_pack by lia.
  unfold scaledMantissa in *.
  change (2 ^ 15) with 32768 in HM.
  destruct (Z.leb_spec 3 E) as [H3 | H3], (Z.leb_spec E 3) as [H3' | H3'];
    try lia.
  - assert (E = 3) by lia. subst E. revert HM. eval_pow2.
    rewrite !Z.div_1_r. lia.
  - set (P := 2 ^ (8 * (E - 3))) in *.
    assert (HP : 0 < P) by (apply pow2_pos; lia).
    pose proof (Z.div_mod n P ltac:(lia)) as Hdm.
    pose proof (Z.mod_pos_bound n P HP) as Hrb. nia.
  - rewrite Z.div_mul by (apply Z.pow_nonzero; lia). lia.
Qed.

Lemma asertFinish_nonneg (p : Params) (x : Z) :
  0 <= x ->
  asertFinish p x = Ok (BigToCompact (Z.min (Z.max 1 x) (PowLimit p))).
Proof.
  intros Hx. unfold asertFinish.
  destruct (Z.eqb_spec x 0) as [-> | Hnz].
  - change (Z.max 1 0) with 1. rewrite gtb_min. reflexivity.
  - rewrite gtb_min. rewrite (Z.max_r 1 x) by lia. reflexivity.
Qed.

Lemma asertFinish_range (p : Params) (x : Z) :
  0 <= x -> 1 <= PowLimit p < 2 ^ 256 ->
  exists bits, asertFinish p x = Ok bits /\
               1 <= CompactToBig bits <= PowLimit p.
Proof.
  intros Hx Hp. rewrite asertFinish_nonneg by exact Hx.
  eexists. split; [reflexivity|].
  pose proof (decode_encode_pos (Z.min (Z.max 1 x) (PowLimit p))
                ltac:(lia)). lia.
Qed.

(** ASERT always answers with a target between 1 and [PowLimit]: when
    the anchor and its parent are present, the half-life is not zero, the
    anchor target is not negative and [1 <= PowLimit < 2^256], the call
    returns compact bits that decode into that range, whatever the
    timestamps and heights. *)
Theorem asert_result_range (lastNode anchor anchorParent : HeaderCtx)
  (c : ChainCtx) :
  let p := ChainParams c in
  asertAnchor (ASERTHeight p) lastNode = Some anchor ->
  Parent anchor = Some anchorParent ->
  ASERTHalfLife p <> 0 ->
  0 <= CompactToBig (ASERTAnchorBits p) ->
  1 <= PowLimit p < 2 ^ 256 ->
  exists bits,
    calcNextRequiredDifficultyASERT lastNode c = Ok bits /\
    1 <= CompactToBig bits <= PowLimit p.
Proof.
  intros p Ha Hp Hnz Hpos HPL.
  unfold calcNextRequiredDifficultyASERT. fold p. rewrite Ha, Hp. cbv zeta.
  destruct (Z.eqb_spec (ASERTHalfLife p) 0) as [|_]; [contradiction|].
  destruct (asertSplit _) as [shifts frac].
  pose proof (asertFactor_nonneg frac) as Hf.
  set (nextTarget := Z.shiftr (CompactToBig (ASERTAnchorBits p)
                               * asertFactor frac) 16).
  assert (Hn : 0 <= nextTarget).
  { unfold nextTarget. apply Z.shiftr_nonneg. nia. }
  destruct (shifts >? 0).
  - destruct (shifts >=? 256).
    + eexists. split; [reflexivity|].
      pose proof (decode_encode_pos (PowLimit p) ltac:(lia)). lia.
    + apply asertFinish_range; [|exact HPL].
      apply Z.shiftl_nonneg. exact Hn.
  - destruct (shifts <? 0).
    + destruct (neg32 shifts >=? 256).
      * exists (BigToCompact 1). split; [reflexivity|].
        change (CompactToBig (BigToCompact 1)) with 1. lia.
      * apply asertFinish_range; [|exact HPL].
        apply Z.shiftr_nonneg. exact Hn.
    + apply asertFinish_range; assumption.
Qed.

Lemma asert_result_range_witness :
  (asertAnchor (ASERTHeight MainNetParams) (anchorTip 3750)
   = Some (anchorTip 3750) /\
   Parent (anchorTip 3750) = Some (Header 1245999 1700000000 0x1d18ffe7 None) /\
   ASERTHalfLife MainNetParams <> 0 /\
   0 <= CompactToBig (ASERTAnchorBits MainNetParams) /\
   1 <= PowLimit MainNetParams < 2 ^ 256) /\
  exists bits,
    calcNextRequiredDifficultyASERT (anchorTip 3750) (ctxOf MainNetParams)
    = Ok bits /\
    1 <= CompactToBig bits <= PowLimit MainNetParams.
Proof.
  assert (H1 : asertAnchor (ASERTHeight MainNetParams) (anchorTip 3750)
               = Some (anchorTip 3750)) by reflexivity.
  assert (H2 : Parent (anchorTip 3750)
               = Some (Header 1245999 1700000000 0x1d18ffe7 None))
    by reflexivity.
  assert (H3 : ASERTHalfLife MainNetParams <> 0) by discriminate.
  assert (H4 : 0 <= CompactToBig (ASERTAnchorBits MainNetParams))
    by (vm_compute; discriminate).
  assert (H5 : 1 <= PowLimit MainNetParams < 2 ^ 256)
    by (vm_compute; split; [discriminate | reflexivity]).
  split; [exact (conj H1 (conj H2 (conj H3 (conj H4 H5))))|].
  exact (asert_result_range (anchorTip 3750) (anchorTip 3750)
           (Header 1245999 1700000000 0x1d18ffe7 None) (ctxOf MainNetParams)
           H1 H2 H3 H4 H5).
Defined.

(** Every whole half-life of deviation doubles or halves the target:
    when the tip is exactly [k] half-lives behind ([k > 0]) or ahead
    ([k < 0]) of schedule, with [-256 < k < 256] and the scaled deviation
    within int64, ASERT returns the encoding of [anchorTarget * 2^k]
    rounded down, raised to 1 and clamped to [PowLimit]. *)
Theorem asert_whole_half_lives (lastNode anchor anchorParent : HeaderCtx)
  (c : ChainCtx) (k : Z) :
  let p := ChainParams c in
  let T := seconds (TargetTimePerBlock p) in
  let anchorTarget := CompactToBig (ASERTAnchorBits p) in
  asertAnchor (ASERTHeight p) lastNode = Some anchor ->
  Parent anchor = Some anchorParent ->
  0 < anchorTarget ->
  ASERTHalfLife p <> 0 ->
  -256 < k < 256 ->
  Timestamp lastNode - Timestamp anchorParent
    - T * (Height lastNode + 1 - ASERTHeight p) = k * ASERTHalfLife p ->
  MinInt64 <= k * ASERTHalfLife p * 65536 <= MaxInt64 ->
  calcNextRequiredDifficultyASERT lastNode c =
  Ok (BigToCompact
        (Z.min (Z.max 1 (if 0 <=? k then anchorTarget * 2 ^ k
                         else anchorTarget / 2 ^ (- k)))
               (PowLimit p))).
Proof.
  intros p T anchorTarget Ha Hp Hpos Hnz Hk Hdev Hfit.
  unfold calcNextRequiredDifficultyASERT. fold p. rewrite Ha, Hp.
  cbv zeta. fold T anchorTarget.
  rewrite asert_deviation_exact, Hdev.
  destruct (Z.eqb_spec (ASERTHalfLife p) 0) as [|_]; [contradiction|].
  set (h := ASERTHalfLife p) in *.
  unfold MinInt64, MaxInt64 in Hfit.
  change (2 ^ 63) with 9223372036854775808 in Hfit.
  assert (Hexp : quot64 (mul64 (i64 (k * h)) 65536) h = k * 65536).
  { unfold quot64, mul64.
    rewrite (i64_small (k * h))
      by (unfold MinInt64, MaxInt64;
          change (2 ^ 63) with 9223372036854775808; lia).
    rewrite (i64_small (k * h * 65536))
      by (unfold MinInt64, MaxInt64;
          change (2 ^ 63) with 9223372036854775808; lia).
    replace (k * h * 65536) with (k * 65536 * h) by ring.
    rewrite Z.quot_mul by exact Hnz.
    apply i64_small. unfold MinInt64, MaxInt64.
    change (2 ^ 63) with 9223372036854775808. lia. }
  rewrite Hexp.
  pose proof (asertSplit_floor (k * 65536)
                ltac:(change (2 ^ 47) with 140737488355328; lia)) as Hsp.
  destruct (asertSplit (k * 65536)) as [shifts frac].
  destruct Hsp as (Hfr & Hsum & _ & _).
  assert (shifts = k) by lia. assert (frac = 0) by lia. subst shifts frac.
  change (asertFactor 0) with 65536.
  rewrite Z.shiftr_div_pow2 by lia. change (2 ^ 16) with 65536.
  rewrite Z.div_mul by lia.
  destruct (Z.gtb_spec k 0) as [Hkp | Hkp].
  - destruct (Z.geb_spec k 256); [lia|].
    destruct (Z.leb_spec 0 k); [|lia].
    unfold u64. rewrite wrapu_small
      by (change (2 ^ 64) with 18446744073709551616; lia).
    rewrite Z.shiftl_mul_pow2 by lia.
    apply asertFinish_nonneg.
    apply Z.mul_nonneg_nonneg; [lia | apply Z.lt_le_incl, pow2_pos; lia].
  - destruct (Z.ltb_spec k 0) as [Hkn | Hkn].
    + destruct (Z.leb_spec 0 k); [lia|].
      assert (Hneg : neg32 k = - k).
      { unfold neg32. apply i32_small. unfold MinInt32, MaxInt32.
        change (2 ^ 31) with 2147483648. lia. }
      rewrite Hneg.
      destruct (Z.geb_spec (- k) 256); [lia|].
      unfold u64. rewrite wrapu_small
        by (change (2 ^ 64) with 18446744073709551616; lia).
      rewrite Z.shiftr_div_pow2 by lia.
      apply asertFinish_nonneg.
      apply Z.div_pos; [lia | apply pow2_pos; lia].
    + assert (k = 0) by lia. subst k.
      change (0 <=? 0) with true. cbv iota. change (2 ^ 0) with 1.
      rewrite Z.mul_1_r. apply asertFinish_nonneg. lia.
Qed.

Lemma asert_whole_half_lives_witness :
  (asertAnchor (ASERTHeight MainNetParams) (anchorTip (150 - 7200))
   = Some (anchorTip (150 - 7200)) /\
   Parent (anchorTip (150 - 7200))
   = Some (Header 1245999 1700000000 0x1d18ffe7 None) /\
   0 < CompactToBig (ASERTAnchorBits MainNetParams) /\
   ASERTHalfLife MainNetParams <> 0 /\
   -256 < -2 < 256 /\
   Timestamp (anchorTip (150 - 7200)) - 1700000000
     - seconds (TargetTimePerBlock MainNetParams)
       * (Height (anchorTip (150 - 7200)) + 1 - ASERTHeight MainNetParams)
   = -2 * ASERTHalfLife MainNetParams /\
   MinInt64 <= -2 * ASERTHalfLife MainNetParams * 65536 <= MaxInt64) /\
  calcNextRequiredDifficultyASERT (anchorTip (150 - 7200))
    (ctxOf MainNetParams) =
  Ok (BigToCompact
        (Z.min (Z.max 1 (if 0 <=? -2
                         then CompactToBig (ASERTAnchorBits MainNetParams)
                              * 2 ^ (-2)
                         else CompactToBig (ASERTAnchorBits MainNetParams)
                              / 2 ^ (- -2)))
               (PowLimit MainNetParams))).
Proof.
  assert (H1 : asertAnchor (ASERTHeight MainNetParams)
                 (anchorTip (150 - 7200)) = Some (anchorTip (150 - 7200)))
    by reflexivity.
  assert (H2 : Parent (anchorTip (150 - 7200))
               = Some (Header 1245999 1700000000 0x1d18ffe7 None))
    by reflexivity.
  assert (H3 : 0 < CompactToBig (ASERTAnchorBits MainNetParams))
    by reflexivity.
  assert (H4 : ASERTHalfLife MainNetParams <> 0) by discriminate.
  assert (H5 : -256 < -2 < 256) by (split; reflexivity).
  assert (H6 : Timestamp (anchorTip (150 - 7200)) - 1700000000
               - seconds (TargetTimePerBlock MainNetParams)
                 * (Height (anchorTip (150 - 7200)) + 1
                    - ASERTHeight MainNetParams)
               = -2 * ASERTHalfLife MainNetParams) by reflexivity.
  assert (H7 : MinInt64 <= -2 * ASERTHalfLife MainNetParams * 65536
               <= MaxInt64) by (vm_compute; split; discriminate).
  split; [exact (conj H1 (conj H2 (conj H3 (conj H4 (conj H5 (conj H6 H7))))))|].
  exact (asert_whole_half_lives (anchorTip (150 - 7200))
           (anchorTip (150 - 7200))
           (Header 1245999 1700000000 0x1d18ffe7 None) (ctxOf MainNetParams)
           (-2) H1 H2 H3 H4 H5 H6 H7).
Defined.

(** ASERT looks at the schedule only: two tips of the same height whose
    timestamps are equally far from the timestamps of their anchor
    parents get the same result, whatever blocks lie between, and
    whatever bits any block carries. *)
Theorem asert_schedule_only
  (tip1 tip2 anchor1 anchor2 parent1 parent2 : HeaderCtx) (c : ChainCtx) :
  let A := ASERTHeight (ChainParams c) in
  asertAnchor A tip1 = Some anchor1 -> Parent anchor1 = Some parent1 ->
  asertAnchor A tip2 = Some anchor2 -> Parent anchor2 = Some parent2 ->
  Height tip1 = Height tip2 ->
  Timestamp tip1 - Timestamp parent1 = Timestamp tip2 - Timestamp parent2 ->
  calcNextRequiredDifficultyASERT tip1 c =
  calcNextRequiredDifficultyASERT tip2 c.
Proof.
  intros A Ha1 Hp1 Ha2 Hp2 Hh Ht.
  unfold calcNextRequiredDifficultyASERT. fold A.
  rewrite Ha1, Hp1, Ha2, Hp2. cbv zeta.
  unfold sub64 at 1 2 5 6. rewrite Hh, Ht. reflexivity.
Qed.

Lemma asert_schedule_only_witness :
  (asertAnchor (ASERTHeight (ChainParams (ctxOf MainNetParams))) scheduleTipA
   = Some (anchorTip 150) /\
   Parent (anchorTip 150) = Some (Header 1245999 1700000000 0x1d18ffe7 None) /\
   asertAnchor (ASERTHeight (ChainParams (ctxOf MainNetParams))) scheduleTipB
   = Some (Header 1246000 1700100100 0x1b0404cb
             (Some (Header 1245999 1700100000 0x1d18ffe7 None))) /\
   Parent (Header 1246000 1700100100 0x1b0404cb
             (Some (Header 1245999 1700100000 0x1d18ffe7 None)))
   = Some (Header 1245999 1700100000 0x1d18ffe7 None) /\
   Height scheduleTipA = Height scheduleTipB /\
   Timestamp scheduleTipA
   - Timestamp (Header 1245999 1700000000 0x1d18ffe7 None)
   = Timestamp scheduleTipB
     - Timestamp (Header 1245999 1700100000 0x1d18ffe7 None)) /\
  calcNextRequiredDifficultyASERT scheduleTipA (ctxOf MainNetParams) =
  calcNextRequiredDifficultyASERT scheduleTipB (ctxOf MainNetParams).
Proof.
  split; [repeat split|].
  exact (asert_schedule_only scheduleTipA scheduleTipB
           (anchorTip 150)
           (Header 1246000 1700100100 0x1b0404cb
              (Some (Header 1245999 1700100000 0x1d18ffe7 None)))
           (Header 1245999 1700000000 0x1d18ffe7 None)
           (Header 1245999 1700100000 0x1d18ffe7 None)
           (ctxOf MainNetParams)
           eq_refl eq_refl eq_refl eq_refl eq_refl eq_refl).
Defined.

End AsertResult.

(** ** The weighted sums of LWMA *)

Section LwmaSums.

Lemma solvetimeOf_range (T : Z) (block prev : HeaderCtx) :
  1 <= T -> 6 * T <= MaxInt64 -> 1 <= solvetimeOf T block prev <= 6 * T.
Proof.
  intros HT H6. unfold solvetimeOf, mul64.
  rewrite i64_small by (unfold MinInt64, MaxInt64 in *; lia).
  destruct (Z.ltb_spec (sub64 (Timestamp block) (Timestamp prev)) 1).
  - destruct (Z.gtb_spec 1 (6 * T)); lia.
  - destruct (Z.gtb_spec (sub64 (Timestamp block) (Timestamp prev)) (6 * T));
      lia.
Qed.

(** The loop keeps the weighted solvetimes between one and [6 T] times
    the weights, as long as nothing overflows. *)
Lemma lwmaLoop_sums (T B2 : Z) (block : HeaderCtx) :
  1 <= T -> 6 * T * B2 <= 2 * MaxInt64 ->
  forall i sws sw,
    0 <= sw -> sw <= sws <= 6 * T * sw ->
    2 * sw + i * (i + 1) <= B2 ->
    let r := lwmaLoop T block i sws sw in
    sw <= snd r /\ 2 * snd r <= B2 /\
    snd r <= fst r <= 6 * T * snd r /\
    (1 <= i -> Parent block <> None -> sw + i <= snd r).
Proof.
  intros HT HB.
  induction block as [h t b | h t b p IH] using HeaderCtx_chain_ind;
    intros i sws sw Hsw Hsws Hfit; cbn [lwmaLoop].
  - destruct (Z.geb_spec i 1); cbn [fst snd Parent];
      (split; [lia|]); (split; [nia|]); (split; [lia|]);
      intros _ Hp; contradiction.
  - destruct (Z.geb_spec i 1) as [Hi | Hi]; cbn [fst snd Parent].
    + pose proof (solvetimeOf_range T (Header h t b (Some p)) p HT
                    ltac:(unfold MaxInt64 in *; nia)) as Hst.
      set (st := solvetimeOf T (Header h t b (Some p)) p) in *.
      assert (Hmul : mul64 st i = st * i).
      { unfold mul64. apply i64_small. unfold MinInt64, MaxInt64 in *. nia. }
      assert (Hadd1 : add64 sws (st * i) = sws + st * i).
      { unfold add64. apply i64_small. unfold MinInt64, MaxInt64 in *. nia. }
      assert (Hadd2 : add64 sw i = sw + i).
      { unfold add64. apply i64_small. unfold MinInt64, MaxInt64 in *. nia. }
      rewrite Hmul, Hadd1, Hadd2.
      specialize (IH (i - 1) (sws + st * i) (sw + i) ltac:(lia)
                    ltac:(nia) ltac:(nia)).
      cbv zeta in IH. destruct IH as (Hlo & Hhi & Hrat & _).
      split; [lia|]. split; [exact Hhi|]. split; [exact Hrat|].
      intros _ _. exact Hlo.
    + split; [lia|]. split; [nia|]. split; [lia|]. intros Hi'. lia.
Qed.

(** What both variants do with the sums: the weighted sum is clamped
    between the expected sum divided by the cap and multiplied by it. *)
Lemma lwmaFinish_clamped (p : Params) (cap T target sws sw : Z) :
  1 <= cap -> 1 <= T -> 1 <= sw -> sw * T * cap <= MaxInt64 ->
  lwmaFinish p cap T target (sws, sw) =
  Ok (BigToCompact
        (Z.min (target
                * Z.min (Z.max sws (sw * T / cap)) (sw * T * cap)
                / (sw * T))
               (PowLimit p))).
Proof.
  intros Hcap HT Hsw Hfit.
  assert (HE : 0 < sw * T) by nia.
  assert (Hqd : Z.quot (sw * T) cap = sw * T / cap)
    by (apply Z.quot_div_nonneg; lia).
  assert (Hq : 0 <= sw * T / cap <= sw * T).
  { split; [apply Z.div_pos; lia | apply Z.div_le_upper_bound; nia]. }
  unfold lwmaFinish, mul64, quot64.
  rewrite (i64_small (sw * T)) by (unfold MinInt64, MaxInt64 in *; nia).
  rewrite (i64_small (sw * T * cap)) by (unfold MinInt64, MaxInt64 in *; nia).
  rewrite Hqd.
  rewrite (i64_small (sw * T / cap))
    by (unfold MinInt64, MaxInt64 in *; nia).
  destruct (Z.eqb_spec (sw * T) 0); [lia|].
  unfold Big.Div. destruct (Z.ltb_spec 0 (sw * T)); [|lia].
  rewrite gtb_min. f_equal. f_equal. f_equal. f_equal. f_equal.
  destruct (Z.ltb_spec sws (sw * T / cap)).
  - rewrite gtb_min. rewrite (Z.max_r sws) by lia. reflexivity.
  - rewrite gtb_min. rewrite (Z.max_l sws) by lia. reflexivity.
Qed.

(** The adjustment of LWMA v1 is bounded: when [lastNode] has a parent,
    the window has at least 3 blocks, [T >= 1] and the sums fit int64, the
    result encodes [prevTarget * s / E] (clamped to [PowLimit]) for an
    expected sum [E > 0] and a weighted sum [s] with
    [E / 10 <= s <= 6 * E]: the solvetime clamp of [6 T] keeps the sum
    below the upper cap of [10 E], which never applies. *)
Theorem lwma_adjustment_bounds (lastNode : HeaderCtx) (c : ChainCtx) :
  let p := ChainParams c in
  let T := seconds (TargetTimePerBlock p) in
  let blocks := lwmaBlocks lastNode p in
  let prevTarget := CompactToBig (Bits lastNode) in
  Parent lastNode <> None ->
  3 <= blocks ->
  1 <= T ->
  10 * T * (blocks * (blocks + 1)) <= 2 * MaxInt64 ->
  exists s E,
    0 < E /\ E / 10 <= s <= 6 * E /\
    calcNextRequiredDifficultyLWMA lastNode c =
    Ok (BigToCompact (Z.min (prevTarget * s / E) (PowLimit p))).
Proof.
  intros p T blocks prevTarget Hp Hb HT Hfit.
  unfold calcNextRequiredDifficultyLWMA. fold p T blocks prevTarget.
  destruct (Z.ltb_spec blocks 3); [lia|].
  destruct (lwmaLoop_sums T (blocks * (blocks + 1)) lastNode HT
              ltac:(unfold MaxInt64 in *; nia) blocks 0 0
              ltac:(lia) ltac:(lia) ltac:(lia))
    as (_ & Hhi & Hrat & Hstep).
  specialize (Hstep ltac:(lia) Hp).
  destruct (lwmaLoop T lastNode blocks 0 0) as [sws sw].
  cbn [fst snd] in *.
  rewrite lwmaFinish_clamped by (unfold MaxInt64 in *; nia).
  assert (HE : 0 < sw * T) by nia.
  assert (Hq : 0 <= sw * T / 10 <= sw * T).
  { split; [apply Z.div_pos; lia | apply Z.div_le_upper_bound; nia]. }
  exists (Z.min (Z.max sws (sw * T / 10)) (sw * T * 10)), (sw * T).
  split; [exact HE|]. split; [lia | reflexivity].
Qed.

(** The adjustment of LWMA v2 is bounded by its caps: under the same
    provisos the result encodes [referenceTarget * s / E] (clamped to
    [PowLimit]) with [E / 3 <= s <= 3 * E], the reference being the
    target of the block the first loop stops on. *)
Theorem lwmav2_adjustment_bounds (lastNode : HeaderCtx) (c : ChainCtx) :
  let p := ChainParams c in
  let T := seconds (TargetTimePerBlock p) in
  let blocks := lwmaBlocks lastNode p in
  let referenceTarget :=
    CompactToBig (Bits (windowStartLoop lastNode 0 blocks)) in
  Parent lastNode <> None ->
  3 <= blocks ->
  1 <= T ->
  6 * T * (blocks * (blocks + 1)) <= 2 * MaxInt64 ->
  exists s E,
    0 < E /\ E / 3 <= s <= 3 * E /\
    calcNextRequiredDifficultyLWMAv2 lastNode c =
    Ok (BigToCompact (Z.min (referenceTarget * s / E) (PowLimit p))).
Proof.
  intros p T blocks referenceTarget Hp Hb HT Hfit.
  unfold calcNextRequiredDifficultyLWMAv2. fold p T blocks.
  destruct (Z.ltb_spec blocks 3); [lia|].
  fold referenceTarget.
  destruct (lwmaLoop_sums T (blocks * (blocks + 1)) lastNode HT
              Hfit blocks 0 0 ltac:(lia) ltac:(lia) ltac:(lia))
    as (_ & Hhi & Hrat & Hstep).
  specialize (Hstep ltac:(lia) Hp).
  destruct (lwmaLoop T lastNode blocks 0 0) as [sws sw].
  cbn [fst snd] in *.
  rewrite lwmaFinish_clamped by (unfold MaxInt64 in *; nia).
  assert (HE : 0 < sw * T) by nia.
  assert (Hq : 0 <= sw * T / 3 <= sw * T).
  { split; [apply Z.div_pos; lia | apply Z.div_le_upper_bound; nia]. }
  exists (Z.min (Z.max sws (sw * T / 3)) (sw * T * 3)), (sw * T).
  split; [exact HE|]. split; [lia | reflexivity].
Qed.

Lemma lwma_adjustment_bounds_witness :
  (Parent (windowTip 45 150) <> None /\
   3 <= lwmaBlocks (windowTip 45 150) TestNet4Params /\
   1 <= seconds (TargetTimePerBlock TestNet4Params) /\
   10 * seconds (TargetTimePerBlock TestNet4Params)
   * (lwmaBlocks (windowTip 45 150) TestNet4Params
      * (lwmaBlocks (windowTip 45 150) TestNet4Params + 1))
   <= 2 * MaxInt64) /\
  exists s E,
    0 < E /\ E / 10 <= s <= 6 * E /\
    calcNextRequiredDifficultyLWMA (windowTip 45 150) (ctxOf TestNet4Params) =
    Ok (BigToCompact
          (Z.min (CompactToBig (Bits (windowTip 45 150)) * s / E)
                 (PowLimit TestNet4Params))).
Proof.
  assert (H1 : Parent (windowTip 45 150) <> None) by (vm_compute; discriminate).
  assert (H2 : 3 <= lwmaBlocks (windowTip 45 150) TestNet4Params)
    by (vm_compute; discriminate).
  assert (H3 : 1 <= seconds (TargetTimePerBlock TestNet4Params))
    by (vm_compute; discriminate).
  assert (H4 : 10 * seconds (TargetTimePerBlock TestNet4Params)
               * (lwmaBlocks (windowTip 45 150) TestNet4Params
                  * (lwmaBlocks (windowTip 45 150) TestNet4Params + 1))
               <= 2 * MaxInt64) by (vm_compute; discriminate).
  split; [exact (conj H1 (conj H2 (conj H3 H4)))|].
  exact (lwma_adjustment_bounds (windowTip 45 150) (ctxOf TestNet4Params)
           H1 H2 H3 H4).
Defined.

Lemma lwmav2_adjustment_bounds_witness :
  (Parent (windowTip 45 150) <> None /\
   3 <= lwmaBlocks (windowTip 45 150) TestNet4Params /\
   1 <= seconds (TargetTimePerBlock TestNet4Params) /\
   6 * seconds (TargetTimePerBlock TestNet4Params)
   * (lwmaBlocks (windowTip 45 150) TestNet4Params
      * (lwmaBlocks (windowTip 45 150) TestNet4Params + 1))
   <= 2 * MaxInt64) /\
  exists s E,
    0 < E /\ E / 3 <= s <= 3 * E /\
    calcNextRequiredDifficultyLWMAv2 (windowTip 45 150)
      (ctxOf TestNet4Params) =
    Ok (BigToCompact
          (Z.min (CompactToBig
                    (Bits (windowStartLoop (windowTip 45 150) 0
                             (lwmaBlocks (windowTip 45 150) TestNet4Params)))
                  * s / E)
                 (PowLimit TestNet4Params))).
Proof.
  assert (H1 : Parent (windowTip 45 150) <> None) by (vm_compute; discriminate).
  assert (H2 : 3 <= lwmaBlocks (windowTip 45 150) TestNet4Params)
    by (vm_compute; discriminate).
  assert (H3 : 1 <= seconds (TargetTimePerBlock TestNet4Params))
    by (vm_compute; discriminate).
  assert (H4 : 6 * seconds (TargetTimePerBlock TestNet4Params)
               * (lwmaBlocks (windowTip 45 150) TestNet4Params
                  * (lwmaBlocks (windowTip 45 150) TestNet4Params + 1))
               <= 2 * MaxInt64) by (vm_compute; discriminate).
  split; [exact (conj H1 (conj H2 (conj H3 H4)))|].
  exact (lwmav2_adjustment_bounds (windowTip 45 150) (ctxOf TestNet4Params)
           H1 H2 H3 H4).
Defined.

(** LWMA v1 in the steady state: over a window of at least 3 blocks whose
    solvetimes all equal [T >= 1], with the sums within int64 and the
    target of [lastNode] at most [PowLimit], the previous target is
    returned re-encoded. *)
Theorem lwma_steady_state (lastNode : HeaderCtx) (c : ChainCtx) :
  let p := ChainParams c in
  let T := seconds (TargetTimePerBlock p) in
  let blocks := lwmaBlocks lastNode p in
  let prevTarget := CompactToBig (Bits lastNode) in
  3 <= blocks ->
  steadyWindow T (Z.to_nat blocks) lastNode = true ->
  prevTarget <= PowLimit p ->
  1 <= T ->
  10 * T * (blocks * (blocks + 1) / 2) <= MaxInt64 ->
  calcNextRequiredDifficultyLWMA lastNode c = Ok (BigToCompact prevTarget).
Proof.
  intros p T blocks prevTarget Hb Hs Hle HT Hfit.
  set (n := Z.to_nat blocks) in *.
  assert (Hn : blocks = Z.of_nat n) by (unfold n; lia).
  assert (Hsum : blocks * (blocks + 1) / 2 = sumTo n)
    by (rewrite Hn; symmetry; apply sumTo_div).
  rewrite Hsum in Hfit.
  assert (H6 : 6 <= sumTo n) by (pose proof (sumTo_closed n); nia).
  unfold calcNextRequiredDifficultyLWMA. fold p T blocks prevTarget.
  destruct (Z.ltb_spec blocks 3); [lia|].
  rewrite Hn.
  rewrite (lwmaLoop_steady T n HT) by
    (try exact Hs; unfold MaxInt64 in *; nia).
  rewrite !Z.add_0_l.
  rewrite lwmaFinish_clamped by (unfold MaxInt64 in *; nia).
  set (S := sumTo n) in *.
  assert (Hq : 0 <= S * T / 10 <= S * T).
  { split; [apply Z.div_pos; nia | apply Z.div_le_upper_bound; nia]. }
  rewrite (Z.max_l (T * S)) by nia.
  rewrite (Z.min_l (T * S)) by nia.
  replace (prevTarget * (T * S)) with (prevTarget * (S * T)) by ring.
  rewrite Z.div_mul by nia.
  rewrite Z.min_l by exact Hle. reflexivity.
Qed.

Lemma lwma_steady_state_witness :
  (3 <= lwmaBlocks (windowTip 45 150) TestNet4Params /\
   steadyWindow (seconds (TargetTimePerBlock TestNet4Params))
     (Z.to_nat (lwmaBlocks (windowTip 45 150) TestNet4Params))
     (windowTip 45 150) = true /\
   CompactToBig (Bits (windowTip 45 150)) <= PowLimit TestNet4Params /\
   1 <= seconds (TargetTimePerBlock TestNet4Params) /\
   10 * seconds (TargetTimePerBlock TestNet4Params)
     * (lwmaBlocks (windowTip 45 150) TestNet4Params
        * (lwmaBlocks (windowTip 45 150) TestNet4Params + 1) / 2)
   <= MaxInt64) /\
  calcNextRequiredDifficultyLWMA (windowTip 45 150) (ctxOf TestNet4Params) =
  Ok (BigToCompact (CompactToBig (Bits (windowTip 45 150)))).
Proof.
  assert (H1 : 3 <= lwmaBlocks (windowTip 45 150) TestNet4Params)
    by (vm_compute; discriminate).
  assert (H2 : steadyWindow (seconds (TargetTimePerBlock TestNet4Params))
                 (Z.to_nat (lwmaBlocks (windowTip 45 150) TestNet4Params))
                 (windowTip 45 150) = true) by (vm_compute; reflexivity).
  assert (H3 : CompactToBig (Bits (windowTip 45 150))
               <= PowLimit TestNet4Params) by (vm_compute; discriminate).
  assert (H4 : 1 <= seconds (TargetTimePerBlock TestNet4Params))
    by (vm_compute; discriminate).
  assert (H5 : 10 * seconds (TargetTimePerBlock TestNet4Params)
               * (lwmaBlocks (windowTip 45 150) TestNet4Params
                  * (lwmaBlocks (windowTip 45 150) TestNet4Params + 1) / 2)
               <= MaxInt64) by (vm_compute; discriminate).
  split; [exact (conj H1 (conj H2 (conj H3 (conj H4 H5))))|].
  exact (lwma_steady_state (windowTip 45 150) (ctxOf TestNet4Params)
           H1 H2 H3 H4 H5).
Defined.

End LwmaSums.

(** ** No target above the limit *)

Section PowLimitCeiling.

(** Encoding a negative number sets the sign bit. *)
Lemma BigToCompact_neg_sign (n : Z) :
  n < 0 -> Z.land (BigToCompact n) 0x00800000 <> 0.
Proof.
  intros Hn. unfold BigToCompact.
  destruct (Z.eqb_spec n 0); [lia|].
  destruct (Z.ltb_spec n 0); [|lia].
  destruct (if negb _ then _ else _) as [mantissa exponent].
  intros H0.
  assert (Hb : Z.testbit (Z.land (Z.lor (Z.lor (u32 (Z.shiftl exponent 24))
                                          mantissa) 0x00800000)
                            0x00800000) 23 = false)
    by (rewrite H0; apply Z.bits_0).
  rewrite Z.land_spec, Z.lor_spec in Hb.
  change (Z.testbit 0x00800000 23) with true in Hb.
  rewrite orb_true_r in Hb. discriminate.
Qed.

(** Decoding what was encoded never exceeds the number, nor zero for a
    number that is not positive. *)
Lemma decode_encode_le_max (n : Z) :
  n < 2 ^ 256 -> CompactToBig (BigToCompact n) <= Z.max 0 n.
Proof.
  intros Hn.
  destruct (Z.lt_trichotomy n 0) as [Hneg | [-> | Hpos]].
  - pose proof (CompactToBig_sign (BigToCompact n)) as Hs.
    pose proof (BigToCompact_neg_sign n Hneg) as Hb.
    destruct (Z.eqb_spec (Z.land (BigToCompact n) 0x00800000) 0);
      [contradiction | lia].
  - reflexivity.
  - pose proof (decode_encode_pos n ltac:(lia)). lia.
Qed.

Lemma lwmaFinish_le_PowLimit (p : Params) (cap T target : Z)
  (sums : Z * Z) (bits : Z) :
  0 <= PowLimit p < 2 ^ 256 ->
  lwmaFinish p cap T target sums = Ok bits ->
  CompactToBig bits <= PowLimit p.
Proof.
  intros HPL. unfold lwmaFinish. destruct sums as [sws sw].
  destruct (mul64 sw T =? 0); [discriminate|].
  rewrite gtb_min. intros [= <-].
  set (x := Z.min _ (PowLimit p)).
  pose proof (decode_encode_le_max x ltac:(unfold x; lia)).
  unfold x in *. lia.
Qed.

(** LWMA never answers above the limit: with [0 <= PowLimit < 2^256]
    and a window of at least 3 blocks, whatever LWMA v1 or LWMA v2
    returns decodes to at most [PowLimit], for any chain, timestamps and
    spacing. *)
Theorem lwma_le_PowLimit (lastNode : HeaderCtx) (c : ChainCtx) (bits : Z) :
  let p := ChainParams c in
  0 <= PowLimit p < 2 ^ 256 ->
  3 <= lwmaBlocks lastNode p ->
  calcNextRequiredDifficultyLWMA lastNode c = Ok bits
  \/ calcNextRequiredDifficultyLWMAv2 lastNode c = Ok bits ->
  CompactToBig bits <= PowLimit p.
Proof.
  intros p HPL Hb [H | H]; revert H;
    unfold calcNextRequiredDifficultyLWMA, calcNextRequiredDifficultyLWMAv2;
    fold p; destruct (Z.ltb_spec (lwmaBlocks lastNode p) 3); try lia;
    apply lwmaFinish_le_PowLimit; exact HPL.
Qed.

Lemma lwma_le_PowLimit_witness :
  (0 <= PowLimit TestNet4Params < 2 ^ 256 /\
   3 <= lwmaBlocks (windowTip 45 150) TestNet4Params /\
   (calcNextRequiredDifficultyLWMA (windowTip 45 150) (ctxOf TestNet4Params)
    = Ok 0x1c7fffff
    \/ calcNextRequiredDifficultyLWMAv2 (windowTip 45 150)
         (ctxOf TestNet4Params) = Ok 0x1c7fffff)) /\
  CompactToBig 0x1c7fffff <= PowLimit TestNet4Params.
Proof.
  assert (H1 : 0 <= PowLimit TestNet4Params < 2 ^ 256)
    by (vm_compute; split; [discriminate | reflexivity]).
  assert (H2 : 3 <= lwmaBlocks (windowTip 45 150) TestNet4Params)
    by (vm_compute; discriminate).
  assert (H3 : calcNextRequiredDifficultyLWMA (windowTip 45 150)
                 (ctxOf TestNet4Params) = Ok 0x1c7fffff
               \/ calcNextRequiredDifficultyLWMAv2 (windowTip 45 150)
                    (ctxOf TestNet4Params) = Ok 0x1c7fffff)
    by (left; vm_compute; reflexivity).
  split; [exact (conj H1 (conj H2 H3))|].
  exact (lwma_le_PowLimit (windowTip 45 150) (ctxOf TestNet4Params)
           0x1c7fffff H1 H2 H3).
Defined.

End PowLimitCeiling.

(** ** The legacy retarget *)

Section LegacyRetarget.

Lemma legacy_at_boundary (lastNode : HeaderCtx) (newBlockTime : Z)
  (c : ChainCtx) :
  selectAlgorithm c (Some lastNode) = Legacy ->
  BlocksPerRetarget c <> 0 ->
  Z.rem (add32 (Height lastNode) 1) (BlocksPerRetarget c) = 0 ->
  calcNextRequiredDifficulty (Some lastNode) newBlockTime c =
  retargetFrom lastNode c
    (RelativeAncestorCtx lastNode (retargetDistance lastNode c)).
Proof.
  intros Hsel Hbpr Hrem.
  rewrite dispatch_run_select, Hsel. simpl. unfold legacyRetarget.
  destruct (Z.eqb_spec (BlocksPerRetarget c) 0); [contradiction|].
  rewrite Hrem. reflexivity.
Qed.

(** The retarget with the first node at hand: the timespan is clamped
    into [MinRetargetTimespan, MaxRetargetTimespan] before it scales the
    old target. *)
Lemma retargetFrom_clamped (lastNode firstNode : HeaderCtx) (c : ChainCtx) :
  0 < seconds (TargetTimespan (ChainParams c)) ->
  MinRetargetTimespan c <= MaxRetargetTimespan c ->
  retargetFrom lastNode c (Some firstNode) =
  Ok (BigToCompact
        (Z.min (CompactToBig (Bits lastNode)
                * Z.max (MinRetargetTimespan c)
                    (Z.min (sub64 (Timestamp lastNode) (Timestamp firstNode))
                       (MaxRetargetTimespan c))
                / seconds (TargetTimespan (ChainParams c)))
               (PowLimit (ChainParams c)))).
Proof.
  intros HT Hmm. unfold retargetFrom.
  destruct (Z.eqb_spec (seconds (TargetTimespan (ChainParams c))) 0); [lia|].
  unfold Big.Div.
  destruct (Z.ltb_spec 0 (seconds (TargetTimespan (ChainParams c)))); [|lia].
  rewrite gtb_min. f_equal. f_equal. f_equal. f_equal. f_equal.
  set (actual := sub64 (Timestamp lastNode) (Timestamp firstNode)).
  destruct (Z.ltb_spec actual (MinRetargetTimespan c)).
  - rewrite Z.max_l by lia. reflexivity.
  - destruct (Z.gtb_spec actual (MaxRetargetTimespan c)).
    + rewrite (Z.min_r actual) by lia. rewrite Z.max_r by lia. reflexivity.
    + rewrite (Z.min_l actual) by lia. rewrite Z.max_r by lia. reflexivity.
Qed.

(** At a retarget boundary the legacy algorithm fails with the
    [AssertError] exactly when the first node of the window is missing. *)
Theorem legacy_error_iff_missing_ancestor (lastNode : HeaderCtx)
  (newBlockTime : Z) (c : ChainCtx) :
  selectAlgorithm c (Some lastNode) = Legacy ->
  BlocksPerRetarget c <> 0 ->
  Z.rem (add32 (Height lastNode) 1) (BlocksPerRetarget c) = 0 ->
  (RelativeAncestorCtx lastNode (retargetDistance lastNode c) = None <->
   calcNextRequiredDifficulty (Some lastNode) newBlockTime c =
   Error "unable to obtain previous retarget block"%string)
  /\ (forall e, calcNextRequiredDifficulty (Some lastNode) newBlockTime c
                = Error e ->
                RelativeAncestorCtx lastNode (retargetDistance lastNode c)
                = None).
Proof.
  intros Hsel Hbpr Hrem.
  rewrite (legacy_at_boundary lastNode newBlockTime c Hsel Hbpr Hrem).
  assert (Hsome : forall firstNode e,
             retargetFrom lastNode c (Some firstNode) <> Error e).
  { intros firstNode e. unfold retargetFrom.
    destruct (_ =? 0); discriminate. }
  destruct (RelativeAncestorCtx lastNode (retargetDistance lastNode c))
    as [firstNode|].
  - split; [split; [discriminate|]|].
    + intros H. exfalso. exact (Hsome _ _ H).
    + intros e H. exfalso. exact (Hsome _ _ H).
  - split; [split; reflexivity | reflexivity].
Qed.

Lemma legacy_error_iff_missing_ancestor_witness :
  (selectAlgorithm (ctxOf MainNetParams) (Some (orphanHeader 2015)) = Legacy /\
   BlocksPerRetarget (ctxOf MainNetParams) <> 0 /\
   Z.rem (add32 (Height (orphanHeader 2015)) 1)
         (BlocksPerRetarget (ctxOf MainNetParams)) = 0) /\
  (RelativeAncestorCtx (orphanHeader 2015)
     (retargetDistance (orphanHeader 2015) (ctxOf MainNetParams)) = None <->
   calcNextRequiredDifficulty (Some (orphanHeader 2015)) 1700000150
     (ctxOf MainNetParams) =
   Error "unable to obtain previous retarget block"%string)
  /\ (forall e, calcNextRequiredDifficulty (Some (orphanHeader 2015))
                  1700000150 (ctxOf MainNetParams) = Error e ->
                RelativeAncestorCtx (orphanHeader 2015)
                  (retargetDistance (orphanHeader 2015) (ctxOf MainNetParams))
                = None).
Proof.
  assert (H1 : selectAlgorithm (ctxOf MainNetParams)
                 (Some (orphanHeader 2015)) = Legacy) by reflexivity.
  assert (H2 : BlocksPerRetarget (ctxOf MainNetParams) <> 0) by discriminate.
  assert (H3 : Z.rem (add32 (Height (orphanHeader 2015)) 1)
                     (BlocksPerRetarget (ctxOf MainNetParams)) = 0)
    by reflexivity.
  split; [exact (conj H1 (conj H2 H3))|].
  exact (legacy_error_iff_missing_ancestor (orphanHeader 2015) 1700000150
           (ctxOf MainNetParams) H1 H2 H3).
Defined.

(** The legacy adjustment is limited to the retarget factor: at a
    boundary with the first node present, when the minimum and maximum
    timespans are the target timespan divided and multiplied by a factor
    [F >= 1] and the old target is not negative, the new target, before
    the clamp to [PowLimit] and the encoding, lies between [old / F] and
    [old * F]. *)
Theorem legacy_adjustment_bounds (lastNode firstNode : HeaderCtx)
  (newBlockTime F : Z) (c : ChainCtx) :
  let old := CompactToBig (Bits lastNode) in
  let timespan := seconds (TargetTimespan (ChainParams c)) in
  selectAlgorithm c (Some lastNode) = Legacy ->
  BlocksPerRetarget c <> 0 ->
  Z.rem (add32 (Height lastNode) 1) (BlocksPerRetarget c) = 0 ->
  RelativeAncestorCtx lastNode (retargetDistance lastNode c)
  = Some firstNode ->
  1 <= F -> 0 < timespan ->
  MinRetargetTimespan c * F = timespan ->
  MaxRetargetTimespan c = timespan * F ->
  0 <= old ->
  exists next,
    old / F <= next <= old * F /\
    calcNextRequiredDifficulty (Some lastNode) newBlockTime c =
    Ok (BigToCompact (Z.min next (PowLimit (ChainParams c)))).
Proof.
  intros old timespan Hsel Hbpr Hrem Hfirst HF HT Hmin Hmax Hold.
  rewrite (legacy_at_boundary lastNode newBlockTime c Hsel Hbpr Hrem), Hfirst.
  assert (Hminpos : 0 < MinRetargetTimespan c) by nia.
  rewrite retargetFrom_clamped by (fold timespan; nia).
  fold old timespan.
  set (adj := Z.max (MinRetargetTimespan c)
                (Z.min (sub64 (Timestamp lastNode) (Timestamp firstNode))
                   (MaxRetargetTimespan c))).
  assert (Hadj : MinRetargetTimespan c <= adj <= MaxRetargetTimespan c)
    by (unfold adj; nia).
  exists (old * adj / timespan). split; [|reflexivity]. split.
  - apply Z.le_trans with (old * MinRetargetTimespan c / timespan).
    + rewrite <- Hmin.
      rewrite (Z.mul_comm (MinRetargetTimespan c) F).
      rewrite Z.div_mul_cancel_r by lia. lia.
    + apply Z.div_le_mono; [lia | nia].
  - apply Z.div_le_upper_bound; [lia | nia].
Qed.

(** A window that took exactly the target timespan leaves the target as
    it is: the old target is returned re-encoded (clamped to
    [PowLimit]). *)
Theorem legacy_on_target (lastNode firstNode : HeaderCtx)
  (newBlockTime : Z) (c : ChainCtx) :
  let timespan := seconds (TargetTimespan (ChainParams c)) in
  selectAlgorithm c (Some lastNode) = Legacy ->
  BlocksPerRetarget c <> 0 ->
  Z.rem (add32 (Height lastNode) 1) (BlocksPerRetarget c) = 0 ->
  RelativeAncestorCtx lastNode (retargetDistance lastNode c)
  = Some firstNode ->
  0 < timespan ->
  MinRetargetTimespan c <= timespan <= MaxRetargetTimespan c ->
  sub64 (Timestamp lastNode) (Timestamp firstNode) = timespan ->
  calcNextRequiredDifficulty (Some lastNode) newBlockTime c =
  Ok (BigToCompact (Z.min (CompactToBig (Bits lastNode))
                          (PowLimit (ChainParams c)))).
Proof.
  intros timespan Hsel Hbpr Hrem Hfirst HT Hmm Hact.
  rewrite (legacy_at_boundary lastNode newBlockTime c Hsel Hbpr Hrem), Hfirst.
  rewrite retargetFrom_clamped by (fold timespan; lia).
  fold timespan. rewrite Hact.
  rewrite (Z.min_l timespan) by lia. rewrite Z.max_r by lia.
  rewrite Z.div_mul by lia. reflexivity.
Qed.

(** The legacy retarget never answers above the limit: with
    [0 <= PowLimit < 2^256], whatever it returns at a boundary decodes to
    at most [PowLimit]. *)
Theorem legacy_le_PowLimit (lastNode : HeaderCtx) (newBlockTime bits : Z)
  (c : ChainCtx) :
  selectAlgorithm c (Some lastNode) = Legacy ->
  BlocksPerRetarget c <> 0 ->
  Z.rem (add32 (Height lastNode) 1) (BlocksPerRetarget c) = 0 ->
  0 <= PowLimit (ChainParams c) < 2 ^ 256 ->
  calcNextRequiredDifficulty (Some lastNode) newBlockTime c = Ok bits ->
  CompactToBig bits <= PowLimit (ChainParams c).
Proof.
  intros Hsel Hbpr Hrem HPL.
  rewrite (legacy_at_boundary lastNode newBlockTime c Hsel Hbpr Hrem).
  unfold retargetFrom.
  destruct (RelativeAncestorCtx _ _); [|discriminate].
  destruct (_ =? 0); [discriminate|].
  rewrite gtb_min. intros [= <-].
  set (x := Z.min _ (PowLimit (ChainParams c))).
  pose proof (decode_encode_le_max x ltac:(unfold x; lia)).
  unfold x in *. lia.
Qed.

Lemma legacy_adjustment_bounds_witness :
  (selectAlgorithm (ctxOf MainNetParams) (Some firstRetargetTip) = Legacy /\
   BlocksPerRetarget (ctxOf MainNetParams) <> 0 /\
   Z.rem (add32 (Height firstRetargetTip) 1)
         (BlocksPerRetarget (ctxOf MainNetParams)) = 0 /\
   RelativeAncestorCtx firstRetargetTip
     (retargetDistance firstRetargetTip (ctxOf MainNetParams))
   = Some genesisHeader /\
   1 <= 4 /\ 0 < seconds (TargetTimespan MainNetParams) /\
   MinRetargetTimespan (ctxOf MainNetParams) * 4
   = seconds (TargetTimespan MainNetParams) /\
   MaxRetargetTimespan (ctxOf MainNetParams)
   = seconds (TargetTimespan MainNetParams) * 4 /\
   0 <= CompactToBig (Bits firstRetargetTip)) /\
  exists next,
    CompactToBig (Bits firstRetargetTip) / 4 <= next
    <= CompactToBig (Bits firstRetargetTip) * 4 /\
    calcNextRequiredDifficulty (Some firstRetargetTip) 1394628160
      (ctxOf MainNetParams) =
    Ok (BigToCompact (Z.min next (PowLimit MainNetParams))).
Proof.
  assert (H1 : selectAlgorithm (ctxOf MainNetParams) (Some firstRetargetTip)
               = Legacy) by (vm_compute; reflexivity).
  assert (H2 : BlocksPerRetarget (ctxOf MainNetParams) <> 0) by discriminate.
  assert (H3 : Z.rem (add32 (Height firstRetargetTip) 1)
                     (BlocksPerRetarget (ctxOf MainNetParams)) = 0)
    by (vm_compute; reflexivity).
  assert (H4 : RelativeAncestorCtx firstRetargetTip
                 (retargetDistance firstRetargetTip (ctxOf MainNetParams))
               = Some genesisHeader) by (vm_compute; reflexivity).
  assert (H5 : 1 <= 4) by discriminate.
  assert (H6 : 0 < seconds (TargetTimespan MainNetParams)) by reflexivity.
  assert (H7 : MinRetargetTimespan (ctxOf MainNetParams) * 4
               = seconds (TargetTimespan MainNetParams)) by reflexivity.
  assert (H8 : MaxRetargetTimespan (ctxOf MainNetParams)
               = seconds (TargetTimespan MainNetParams) * 4) by reflexivity.
  assert (H9 : 0 <= CompactToBig (Bits firstRetargetTip))
    by (vm_compute; discriminate).
  split; [exact (conj H1 (conj H2 (conj H3 (conj H4 (conj H5 (conj H6
                   (conj H7 (conj H8 H9))))))))|].
  exact (legacy_adjustment_bounds firstRetargetTip genesisHeader 1394628160 4
           (ctxOf MainNetParams) H1 H2 H3 H4 H5 H6 H7 H8 H9).
Defined.

Lemma legacy_on_target_witness :
  (selectAlgorithm (ctxOf MainNetParams) (Some onTargetTip) = Legacy /\
   BlocksPerRetarget (ctxOf MainNetParams) <> 0 /\
   Z.rem (add32 (Height onTargetTip) 1)
         (BlocksPerRetarget (ctxOf MainNetParams)) = 0 /\
   RelativeAncestorCtx onTargetTip
     (retargetDistance onTargetTip (ctxOf MainNetParams))
   = Some genesisHeader /\
   0 < seconds (TargetTimespan MainNetParams) /\
   MinRetargetTimespan (ctxOf MainNetParams)
   <= seconds (TargetTimespan MainNetParams)
   <= MaxRetargetTimespan (ctxOf MainNetParams) /\
   sub64 (Timestamp onTargetTip) (Timestamp genesisHeader)
   = seconds (TargetTimespan MainNetParams)) /\
  calcNextRequiredDifficulty (Some onTargetTip) 1394628310
    (ctxOf MainNetParams) =
  Ok (BigToCompact (Z.min (CompactToBig (Bits onTargetTip))
                          (PowLimit MainNetParams))).
Proof.
  assert (H1 : selectAlgorithm (ctxOf MainNetParams) (Some onTargetTip)
               = Legacy) by (vm_compute; reflexivity).
  assert (H2 : BlocksPerRetarget (ctxOf MainNetParams) <> 0) by discriminate.
  assert (H3 : Z.rem (add32 (Height onTargetTip) 1)
                     (BlocksPerRetarget (ctxOf MainNetParams)) = 0)
    by (vm_compute; reflexivity).
  assert (H4 : RelativeAncestorCtx onTargetTip
                 (retargetDistance onTargetTip (ctxOf MainNetParams))
               = Some genesisHeader) by (vm_compute; reflexivity).
  assert (H5 : 0 < seconds (TargetTimespan MainNetParams)) by reflexivity.
  assert (H6 : MinRetargetTimespan (ctxOf MainNetParams)
               <= seconds (TargetTimespan MainNetParams)
               <= MaxRetargetTimespan (ctxOf MainNetParams))
    by (vm_compute; split; discriminate).
  assert (H7 : sub64 (Timestamp onTargetTip) (Timestamp genesisHeader)
               = seconds (TargetTimespan MainNetParams))
    by (vm_compute; reflexivity).
  split; [exact (conj H1 (conj H2 (conj H3 (conj H4 (conj H5 (conj H6 H7))))))|].
  exact (legacy_on_target onTargetTip genesisHeader 1394628310
           (ctxOf MainNetParams) H1 H2 H3 H4 H5 H6 H7).
Defined.

Lemma legacy_le_PowLimit_witness :
  (selectAlgorithm (ctxOf MainNetParams) (Some firstRetargetTip) = Legacy /\
   BlocksPerRetarget (ctxOf MainNetParams) <> 0 /\
   Z.rem (add32 (Height firstRetargetTip) 1)
         (BlocksPerRetarget (ctxOf MainNetParams)) = 0 /\
   0 <= PowLimit (ChainParams (ctxOf MainNetParams)) < 2 ^ 256 /\
   calcNextRequiredDifficulty (Some firstRetargetTip) 1394628160
     (ctxOf MainNetParams) = Ok 0x1e0ffde7) /\
  CompactToBig 0x1e0ffde7 <= PowLimit (ChainParams (ctxOf MainNetParams)).
Proof.
  assert (H1 : selectAlgorithm (ctxOf MainNetParams) (Some firstRetargetTip)
               = Legacy) by (vm_compute; reflexivity).
  assert (H2 : BlocksPerRetarget (ctxOf MainNetParams) <> 0) by discriminate.
  assert (H3 : Z.rem (add32 (Height firstRetargetTip) 1)
                     (BlocksPerRetarget (ctxOf MainNetParams)) = 0)
    by (vm_compute; reflexivity).
  assert (H4 : 0 <= PowLimit (ChainParams (ctxOf MainNetParams)) < 2 ^ 256)
    by (vm_compute; split; [discriminate | reflexivity]).
  assert (H5 : calcNextRequiredDifficulty (Some firstRetargetTip) 1394628160
                 (ctxOf MainNetParams) = Ok 0x1e0ffde7)
    by (vm_compute; reflexivity).
  split; [exact (conj H1 (conj H2 (conj H3 (conj H4 H5))))|].
  exact (legacy_le_PowLimit firstRetargetTip 1394628160 0x1e0ffde7
           (ctxOf MainNetParams) H1 H2 H3 H4 H5).
Defined.

(** [findPrevTestNetDifficulty] returns the bits of the nearest block,
    from the start down, that is on a retarget boundary or does not carry
    the minimum difficulty, and [PowLimitBits] when the chain has no such
    block; with a retarget interval other than zero it does not panic. *)
Theorem findPrevTestNetDifficulty_nearest (startNode : HeaderCtx)
  (c : ChainCtx) :
  BlocksPerRetarget c <> 0 ->
  (forall n h,
      walkBack n startNode = Some h ->
      minDifficultyOffBoundary c h = false ->
      (forall k hk, (k < n)%nat -> walkBack k startNode = Some hk ->
                    minDifficultyOffBoundary c hk = true) ->
      findPrevTestNetDifficulty (Some startNode) c = Ok (Bits h))
  /\ ((forall n h, walkBack n startNode = Some h ->
                   minDifficultyOffBoundary c h = true) ->
      findPrevTestNetDifficulty (Some startNode) c
      = Ok (PowLimitBits (ChainParams c))).
Proof.
  intros Hbpr. cbn [findPrevTestNetDifficulty]. split.
  - intros n. revert startNode.
    induction n as [|n IH]; intros startNode h Hw Hstop Hbefore.
    + simpl in Hw. injection Hw as <-.
      destruct startNode as [height ts bits parent].
      cbn [findPrevTestNetDifficultyFrom].
      destruct (Z.eqb_spec (BlocksPerRetarget c) 0); [contradiction|].
      unfold minDifficultyOffBoundary in Hstop. cbn [Height Bits] in Hstop.
      rewrite Hstop. reflexivity.
    + destruct startNode as [height ts bits [p|]]; simpl in Hw;
        [|discriminate].
      cbn [findPrevTestNetDifficultyFrom].
      destruct (Z.eqb_spec (BlocksPerRetarget c) 0); [contradiction|].
      pose proof (Hbefore O (Header height ts bits (Some p))
                    ltac:(lia) eq_refl) as H0.
      unfold minDifficultyOffBoundary in H0. cbn [Height Bits] in H0.
      rewrite H0.
      apply (IH p h Hw Hstop).
      intros k hk Hk Hwk. apply (Hbefore (S k) hk ltac:(lia)). exact Hwk.
  - induction startNode as [height ts bits | height ts bits p IH]
      using HeaderCtx_chain_ind; intros Hall;
      cbn [findPrevTestNetDifficultyFrom];
      (destruct (Z.eqb_spec (BlocksPerRetarget c) 0) as [|_];
       [contradiction|]);
      pose proof (Hall O _ eq_refl) as H0;
      unfold minDifficultyOffBoundary in H0; cbn [Height Bits] in H0;
      rewrite H0.
    + reflexivity.
    + apply IH. intros n h Hw. apply (Hall (S n)). exact Hw.
Qed.

Lemma findPrevTestNetDifficulty_nearest_witness :
  BlocksPerRetarget (ctxOf TestNet4Params) <> 0 /\
  (forall n h,
      walkBack n (orphanHeader 50) = Some h ->
      minDifficultyOffBoundary (ctxOf TestNet4Params) h = false ->
      (forall k hk, (k < n)%nat -> walkBack k (orphanHeader 50) = Some hk ->
                    minDifficultyOffBoundary (ctxOf TestNet4Params) hk = true) ->
      findPrevTestNetDifficulty (Some (orphanHeader 50)) (ctxOf TestNet4Params)
      = Ok (Bits h))
  /\ ((forall n h, walkBack n (orphanHeader 50) = Some h ->
                   minDifficultyOffBoundary (ctxOf TestNet4Params) h = true) ->
      findPrevTestNetDifficulty (Some (orphanHeader 50)) (ctxOf TestNet4Params)
      = Ok (PowLimitBits (ChainParams (ctxOf TestNet4Params)))).
Proof.
  assert (H : BlocksPerRetarget (ctxOf TestNet4Params) <> 0) by discriminate.
  split; [exact H|].
  exact (findPrevTestNetDifficulty_nearest (orphanHeader 50)
           (ctxOf TestNet4Params) H).
Defined.

End LegacyRetarget.

(** ** The easiest difficulty *)

Section EasiestDifficulty.

Lemma retargetPeriods_nonneg (d M : Z) : 0 < M -> 0 <= retargetPeriods d M.
Proof.
  intros HM. unfold retargetPeriods.
  destruct (Z.leb_spec d 0); [lia|]. apply Z.div_pos; lia.
Qed.

Lemma retargetPeriods_step (d M : Z) :
  0 < M -> 0 < d -> retargetPeriods d M = 1 + retargetPeriods (d - M) M.
Proof.
  intros HM Hd. unfold retargetPeriods.
  destruct (Z.leb_spec d 0); [lia|].
  destruct (Z.leb_spec (d - M) 0).
  - rewrite Z.add_0_r. symmetry.
    apply Z.div_unique with (r := d - 1); lia.
  - replace (d + M - 1) with (d - M + M - 1 + 1 * M) by ring.
    rewrite Z.div_add by lia. ring.
Qed.

(** With enough fuel the loop ends, and up to the clamp its result is
    the start target multiplied by the factor once per period. *)
Lemma easiestLoop_closed (c : ChainCtx) (fuel : nat) :
  let F := RetargetAdjustmentFactor (ChainParams c) in
  let M := MaxRetargetTimespan c in
  let PL := PowLimit (ChainParams c) in
  1 <= F -> 0 < M <= MaxInt64 ->
  forall d x,
    0 <= x -> d <= MaxInt64 -> retargetPeriods d M < Z.of_nat fuel ->
    exists y, easiestLoop fuel c d x = Some y /\
              Z.min y PL = Z.min (x * F ^ retargetPeriods d M) PL.
Proof.
  intros F M PL HF HM.
  induction fuel as [|fuel IH]; intros d x Hx Hd Hfuel.
  { pose proof (retargetPeriods_nonneg d M ltac:(lia)). lia. }
  cbn [easiestLoop]. fold F M PL.
  destruct (Z.gtb_spec d 0) as [Hpos | Hnonpos]; cbn [andb].
  - destruct (Z.ltb_spec x PL) as [Hlt | Hge].
    + assert (Hsub : sub64 d M = d - M).
      { unfold sub64. apply i64_small. unfold MinInt64, MaxInt64 in *. lia. }
      rewrite Hsub.
      pose proof (retargetPeriods_step d M ltac:(lia) Hpos) as Hstep.
      destruct (IH (d - M) (x * F) ltac:(nia) ltac:(lia) ltac:(lia))
        as (y & Hy & Hmin).
      exists y. split; [exact Hy|]. rewrite Hmin.
      rewrite (retargetPeriods_step d M) by lia.
      rewrite Z.pow_add_r by (pose proof (retargetPeriods_nonneg (d - M) M);
                              lia).
      rewrite Z.pow_1_r. f_equal. ring.
    + exists x. split; [reflexivity|].
      pose proof (retargetPeriods_nonneg d M ltac:(lia)) as Hk.
      assert (HFk : 1 <= F ^ retargetPeriods d M).
      { pose proof (Z.pow_pos_nonneg F (retargetPeriods d M)
                      ltac:(lia) Hk). lia. }
      rewrite !Z.min_r by nia. reflexivity.
  - exists x. split; [reflexivity|].
    unfold retargetPeriods. destruct (Z.leb_spec d 0); [|lia].
    rewrite Z.pow_0_r, Z.mul_1_r. reflexivity.
Qed.

(** The easiest difficulty in closed form: when the minimum-difficulty
    shortcut does not apply, the factor is at least 1, the maximum
    timespan is positive and the start target is not negative, the loop
    ends after at most one round per started maximum timespan of the
    duration, and the result is the encoding of the start target
    multiplied by the factor once per such timespan, capped at
    [PowLimit]. *)
Theorem calcEasiestDifficulty_closed_form (fuel : nat) (c : ChainCtx)
  (bits duration : Z) :
  let p := ChainParams c in
  let d := seconds duration in
  ReduceMinDifficulty p = false
  \/ d <= seconds (MinDiffReductionTime p) ->
  1 <= RetargetAdjustmentFactor p ->
  0 < MaxRetargetTimespan c <= MaxInt64 ->
  0 <= CompactToBig bits ->
  d <= MaxInt64 ->
  retargetPeriods d (MaxRetargetTimespan c) < Z.of_nat fuel ->
  calcEasiestDifficulty fuel c bits duration =
  Some (BigToCompact
          (Z.min (CompactToBig bits
                  * RetargetAdjustmentFactor p
                    ^ retargetPeriods d (MaxRetargetTimespan c))
                 (PowLimit p))).
Proof.
  intros p d Hshort HF HM Hx Hd Hfuel.
  unfold calcEasiestDifficulty. fold p d.
  assert (Hcond : ReduceMinDifficulty p
                  && (d >? seconds (MinDiffReductionTime p)) = false).
  { destruct Hshort as [-> | Hle]; [reflexivity|].
    destruct (Z.gtb_spec d (seconds (MinDiffReductionTime p))); [lia|].
    apply andb_false_r. }
  rewrite Hcond.
  destruct (easiestLoop_closed c fuel HF HM d (CompactToBig bits) Hx Hd Hfuel)
    as (y & -> & Hmin).
  rewrite gtb_min. fold p in Hmin. rewrite Hmin. reflexivity.
Qed.

Lemma calcEasiestDifficulty_closed_form_witness :
  (ReduceMinDifficulty (ChainParams (ctxOf MainNetParams)) = false
   \/ seconds (2419200 * Second)
      <= seconds (MinDiffReductionTime (ChainParams (ctxOf MainNetParams)))) /\
  1 <= RetargetAdjustmentFactor (ChainParams (ctxOf MainNetParams)) /\
  0 < MaxRetargetTimespan (ctxOf MainNetParams) <= MaxInt64 /\
  0 <= CompactToBig 0x1b0404cb /\
  seconds (2419200 * Second) <= MaxInt64 /\
  retargetPeriods (seconds (2419200 * Second))
    (MaxRetargetTimespan (ctxOf MainNetParams)) < Z.of_nat 3 /\
  calcEasiestDifficulty 3 (ctxOf MainNetParams) 0x1b0404cb
    (2419200 * Second) =
  Some (BigToCompact
          (Z.min (CompactToBig 0x1b0404cb
                  * RetargetAdjustmentFactor (ChainParams (ctxOf MainNetParams))
                    ^ retargetPeriods (seconds (2419200 * Second))
                        (MaxRetargetTimespan (ctxOf MainNetParams)))
                 (PowLimit (ChainParams (ctxOf MainNetParams))))).
Proof.
  assert (H1 : ReduceMinDifficulty (ChainParams (ctxOf MainNetParams)) = false
               \/ seconds (2419200 * Second)
                  <= seconds (MinDiffReductionTime
                                (ChainParams (ctxOf MainNetParams))))
    by (left; reflexivity).
  assert (H2 : 1 <= RetargetAdjustmentFactor
                      (ChainParams (ctxOf MainNetParams)))
    by (vm_compute; discriminate).
  assert (H3 : 0 < MaxRetargetTimespan (ctxOf MainNetParams) <= MaxInt64)
    by (vm_compute; split; [reflexivity | discriminate]).
  assert (H4 : 0 <= CompactToBig 0x1b0404cb) by (vm_compute; discriminate).
  assert (H5 : seconds (2419200 * Second) <= MaxInt64)
    by (vm_compute; discriminate).
  assert (H6 : retargetPeriods (seconds (2419200 * Second))
                 (MaxRetargetTimespan (ctxOf MainNetParams)) < Z.of_nat 3)
    by (vm_compute; reflexivity).
  repeat (split; [assumption|]).
  exact (calcEasiestDifficulty_closed_form 3
           (ctxOf MainNetParams) 0x1b0404cb (2419200 * Second)
           H1 H2 H3 H4 H5 H6).
Defined.



Example calcEasiestDifficulty_four_weeks :
  calcEasiestDifficulty 3 (ctxOf MainNetParams) 0x1b0404cb
    (2419200 * Second) = Some 0x1b404cb0.
Proof. reflexivity. Qed.

End EasiestDifficulty.

(** ** One algorithm per height *)

Section HeightIntervals.

(** With the activation heights in order
    ([0 < LWMAHeight < LWMAFixHeight < ASERTHeight]) and retargeting on,
    the heights fall into four intervals: the legacy algorithm below
    [LWMAHeight], LWMA v1 from there, LWMA v2 from [LWMAFixHeight] up to
    and including [ASERTHeight], and ASERT above. *)
Theorem algorithm_by_height (tip : HeaderCtx) (newBlockTime : Z)
  (c : ChainCtx) :
  let p := ChainParams c in
  let next := add32 (Height tip) 1 in
  PoWNoRetargeting p = false ->
  0 < LWMAHeight p -> LWMAHeight p < LWMAFixHeight p ->
  LWMAFixHeight p < ASERTHeight p ->
  calcNextRequiredDifficulty (Some tip) newBlockTime c =
  if next <? LWMAHeight p then legacyRetarget tip newBlockTime c
  else if next <? LWMAFixHeight p then calcNextRequiredDifficultyLWMA tip c
  else if next <=? ASERTHeight p then calcNextRequiredDifficultyLWMAv2 tip c
  else calcNextRequiredDifficultyASERT tip c.
Proof.
  intros p next Hno H1 H2 H3.
  unfold calcNextRequiredDifficulty. fold p. rewrite Hno. cbv zeta.
  fold next.
  destruct (Z.gtb_spec (ASERTHeight p) 0), (Z.gtb_spec next (ASERTHeight p)),
    (Z.gtb_spec (LWMAFixHeight p) 0), (Z.geb_spec next (LWMAFixHeight p)),
    (Z.gtb_spec (LWMAHeight p) 0), (Z.geb_spec next (LWMAHeight p)),
    (Z.ltb_spec next (LWMAHeight p)), (Z.ltb_spec next (LWMAFixHeight p)),
    (Z.leb_spec next (ASERTHeight p)); cbn [andb]; try lia; reflexivity.
Qed.

Lemma algorithm_by_height_witness :
  (PoWNoRetargeting (ChainParams (ctxOf MainNetParams)) = false /\
   0 < LWMAHeight (ChainParams (ctxOf MainNetParams)) /\
   LWMAHeight (ChainParams (ctxOf MainNetParams))
   < LWMAFixHeight (ChainParams (ctxOf MainNetParams)) /\
   LWMAFixHeight (ChainParams (ctxOf MainNetParams))
   < ASERTHeight (ChainParams (ctxOf MainNetParams))) /\
  calcNextRequiredDifficulty (Some (anchorTip 150)) 1700000300
    (ctxOf MainNetParams) =
  if add32 (Height (anchorTip 150)) 1
     <? LWMAHeight (ChainParams (ctxOf MainNetParams))
  then legacyRetarget (anchorTip 150) 1700000300 (ctxOf MainNetParams)
  else if add32 (Height (anchorTip 150)) 1
          <? LWMAFixHeight (ChainParams (ctxOf MainNetParams))
  then calcNextRequiredDifficultyLWMA (anchorTip 150) (ctxOf MainNetParams)
  else if add32 (Height (anchorTip 150)) 1
          <=? ASERTHeight (ChainParams (ctxOf MainNetParams))
  then calcNextRequiredDifficultyLWMAv2 (anchorTip 150) (ctxOf MainNetParams)
  else calcNextRequiredDifficultyASERT (anchorTip 150) (ctxOf MainNetParams).
Proof.
  assert (H0 : PoWNoRetargeting (ChainParams (ctxOf MainNetParams)) = false)
    by reflexivity.
  assert (H1 : 0 < LWMAHeight (ChainParams (ctxOf MainNetParams)))
    by reflexivity.
  assert (H2 : LWMAHeight (ChainParams (ctxOf MainNetParams))
               < LWMAFixHeight (ChainParams (ctxOf MainNetParams)))
    by reflexivity.
  assert (H3 : LWMAFixHeight (ChainParams (ctxOf MainNetParams))
               < ASERTHeight (ChainParams (ctxOf MainNetParams)))
    by reflexivity.
  split; [exact (conj H0 (conj H1 (conj H2 H3)))|].
  exact (algorithm_by_height (anchorTip 150) 1700000300 (ctxOf MainNetParams)
           H0 H1 H2 H3).
Defined.

End HeightIntervals.
